(** * cc2svn: history replay and dump synthesis

    A shallow embedding of [cc2svn.py] (ClearCase history to Subversion
    dump stream) and the properties of its serializer, its reverse line
    reader and its replay engine.

    Conventions of the embedding.
    - A Python 2 [str] is a byte string: Rocq's [string].  [len] is the
      byte count, as an integer.
    - A [dict] is a [gmap]; the order in which Python 2 enumerates a dict is
      not the insertion order, so enumeration goes through the class
      [DictOrder], whose only law is that every entry comes exactly once.
    - A [set] is a [gset].
    - The platform is POSIX: [os.sep] is a slash.
    - Exceptions are values of [PyExc]; code that can raise lives in the
      monad [M], which keeps the state reached when the exception left. *)

From Stdlib Require Import ZArith Lia Ascii.
From stdpp Require Import base gmap strings list fin_maps pretty sorting.

(** ** Python strings *)

Definition LF : string := String "010"%char "".
Definition CR : string := String "013"%char "".

(** [len(s)] *)
Definition len (s : string) : Z := Z.of_nat (String.length s).

(** [str(n)] for an integer. *)
Definition str (n : Z) : string := pretty n.

(** Truth value of a string: non-empty. *)
Definition truthy (s : string) : bool :=
  match s with EmptyString => false | _ => true end.

(** [s[:n]] and [s[n:]] for [0 <= n]. *)
Fixpoint take_s (n : nat) (s : string) : string :=
  match n, s with
  | S n', String c s' => String c (take_s n' s')
  | _, _ => ""
  end.

Fixpoint drop_s (n : nat) (s : string) : string :=
  match n, s with
  | S n', String c s' => drop_s n' s'
  | _, _ => s
  end.

(** [s.replace(a, b)] for single characters [a] and [b]. *)
Fixpoint replace_char (a b : ascii) (s : string) : string :=
  match s with
  | EmptyString => EmptyString
  | String c s' => String (if Ascii.eqb c a then b else c) (replace_char a b s')
  end.

(** [s.splitlines(keepends)] of a byte string: lines end at a line feed, a
    carriage return, or the pair of them; [cur] is the line being read, if
    one was started. *)
Fixpoint splitlines_go (keepends : bool) (cur : option string) (s : string)
  : list string :=
  match s with
  | EmptyString => match cur with Some l => [l] | None => [] end
  | String c s' =>
    let l := default "" cur in
    if Ascii.eqb c "010" then
      (l +:+ (if keepends then LF else "")) :: splitlines_go keepends None s'
    else if Ascii.eqb c "013" then
      match s' with
      | String "010" s'' =>
        (l +:+ (if keepends then CR +:+ LF else ""))
          :: splitlines_go keepends None s''
      | _ => (l +:+ (if keepends then CR else "")) :: splitlines_go keepends None s'
      end
    else splitlines_go keepends (Some (l +:+ String c "")) s'
  end.

Definition splitlines (keepends : bool) (s : string) : list string :=
  splitlines_go keepends None s.

(** [c * n] for a one-character string. *)
Fixpoint string_repeat (n : nat) (c : ascii) : string :=
  match n with
  | 0 => ""
  | S n' => String c (string_repeat n' c)
  end.

(** ['b' in mode.lower()] *)
Fixpoint mode_has_b (m : string) : bool :=
  match m with
  | EmptyString => false
  | String c m' => Ascii.eqb c "b" || Ascii.eqb c "B" || mode_has_b m'
  end.

(** [os.path]: the part up to and with the last slash, and the rest. *)
Fixpoint split_last_slash (s : string) : string * string :=
  match s with
  | EmptyString => ("", "")
  | String c s' =>
    let '(h, t) := split_last_slash s' in
    if truthy h then (String c h, t)
    else if Ascii.eqb c "/" then ("/", t) else ("", String c t)
  end.

(** [s.rstrip('/')] *)
Fixpoint rstrip_slash (s : string) : string :=
  match s with
  | EmptyString => ""
  | String c s' =>
    let r := rstrip_slash s' in
    if negb (truthy r) && Ascii.eqb c "/" then "" else String c r
  end.

(** [s == '/' * len(s)] *)
Fixpoint all_slashes (s : string) : bool :=
  match s with
  | EmptyString => true
  | String c s' => Ascii.eqb c "/" && all_slashes s'
  end.

(** [os.path.basename] *)
Definition basename (p : string) : string := (split_last_slash p).2.

(** [os.path.dirname] *)
Definition dirname (p : string) : string :=
  let head := (split_last_slash p).1 in
  if truthy head && negb (all_slashes head) then rstrip_slash head else head.

(** [s.lstrip()], [s.rstrip()] and [s.strip()]. *)
Fixpoint lstrip (s : string) : string :=
  match s with
  | EmptyString => ""
  | String c s' => if Ascii.is_space c then lstrip s' else s
  end.

Fixpoint rstrip (s : string) : string :=
  match s with
  | EmptyString => ""
  | String c s' =>
    let r := rstrip s' in
    if negb (truthy r) && Ascii.is_space c then "" else String c r
  end.

Definition strip (s : string) : string := rstrip (lstrip s).

(** [s.split(sep)] for a non-empty [sep]; [skip] counts the characters of a
    separator still to pass, [cur] is the piece being read. *)
Fixpoint split_go (sep : string) (skip : nat) (cur : string) (s : string)
  : list string :=
  match s with
  | EmptyString => [cur]
  | String c s' =>
    match skip with
    | S k => split_go sep k cur s'
    | 0 =>
      if String.prefix sep s
      then cur :: split_go sep (String.length sep - 1) "" s'
      else split_go sep 0 (cur +:+ String c "") s'
    end
  end.

Definition split (sep s : string) : list string := split_go sep 0 "" s.

(** [s.startswith(p)] *)
Definition startswith (s p : string) : bool := String.prefix p s.

(** ** Dictionaries *)

(** [d.iteritems()]: some enumeration of the entries. *)
Class DictOrder := {
  iteritems : forall {V : Type}, gmap string V -> list (string * V);
  iteritems_perm : forall (V : Type) (m : gmap string V),
    iteritems m ≡ₚ map_to_list m
}.

(** One enumeration order, to run examples that do not depend on it. *)
Definition canonical_order : DictOrder :=
  {| iteritems := fun V m => map_to_list m;
     iteritems_perm := fun V m => reflexivity (map_to_list m) |}.

(** The hash of a byte string in CPython 2 (on a 64-bit [long], hash
    randomization off, as it is by default): [string_hash]. *)
Definition wrap64 (x : Z) : Z := (x mod 18446744073709551616)%Z.

Fixpoint py2_hash_go (x : Z) (s : string) : Z :=
  match s with
  | EmptyString => x
  | String c s' =>
    py2_hash_go (Z.lxor (wrap64 (1000003 * x)%Z) (Z.of_N (N_of_ascii c))) s'
  end.

Definition py2_hash (s : string) : Z :=
  match s with
  | EmptyString => 0%Z
  | String c _ =>
    let x := py2_hash_go (wrap64 (Z.shiftl (Z.of_N (N_of_ascii c)) 7)) s in
    let x := Z.lxor x (len s) in
    if (x =? 18446744073709551615)%Z then 18446744073709551614%Z else x
  end.

(** The slot a key goes to first in a dict's initial table of eight. *)
Definition py2_slot (key : string) : Z := Z.land (py2_hash key) 7.

Definition slot_le {V : Type} (a b : string * V) : Prop :=
  (py2_slot a.1 <= py2_slot b.1)%Z.

#[local] Instance slot_le_dec {V : Type} : RelDecision (@slot_le V).
Proof. intros a b. unfold slot_le. apply _. Defined.

(** Enumeration by slot: the order of CPython 2 for a dict of at most five
    keys that go to different slots (no collision, no resize, no deletion). *)
Definition py2_small_dict_order : DictOrder :=
  {| iteritems := fun V m => merge_sort slot_le (map_to_list m);
     iteritems_perm := fun V m => merge_sort_Permutation slot_le (map_to_list m) |}.

(** ** Exceptions *)

Inductive PyExc :=
| NameError (name : string)
| TypeError (msg : string)
| UnicodeError
| RuntimeError (msg : string)
| SystemExit (code : Z)
| IOError (msg : string)
| ZeroDivisionError
| PlainException (msg : string).

(** State and exception monad: the state survives a raise. *)
Definition M (S A : Type) : Type := S -> (PyExc + A) * S.

Definition ret {S A} (a : A) : M S A := fun s => (inr a, s).

Definition raise {S A} (e : PyExc) : M S A := fun s => (inl e, s).

Definition bind {S A B} (m : M S A) (k : A -> M S B) : M S B :=
  fun s => match m s with
           | (inr a, s') => k a s'
           | (inl e, s') => (inl e, s')
           end.

Definition get {S} : M S S := fun s => (inr s, s).

Definition modify {S} (f : S -> S) : M S unit := fun s => (inr tt, f s).

Notation "'do' x <- m ; k" := (bind m (fun x => k))
  (at level 10, x name, m at level 100, k at level 200).
Notation "'exec' m ; k" := (bind m (fun _ => k))
  (at level 10, m at level 100, k at level 200).

(** [for x in l: body x] *)
Fixpoint forM {S A} (l : list A) (body : A -> M S unit) : M S unit :=
  match l with
  | [] => ret tt
  | x :: l' => exec body x; forM l' body
  end.

(** ** Property sets ([class SvnProperties]) *)

Record SvnProperties := mkProps {
  keyset : gmap string string;
  totalLen : Z
}.

(** ** The output stream ([class WriteStream]) *)

(** The entry points of the serializer, with their arguments.  [history]
    below lists the calls made on a stream, enabled or not: it is a history
    variable of the model, the Python object keeps no such list. *)
Inductive DumpCall :=
| CallRevisionHeader (revnum : Z) (props : SvnProperties)
| CallSvnFile (action path : string) (props : SvnProperties) (content : string)
| CallSvnCopy (kind copyfromPath : string) (copyfromRev : Z) (target : string)
| CallSvnDir (path : string)
| CallSvnDelete (path : string).

Record WriteStream := mkStream {
  enabled : bool;
  file : string;          (* the bytes written to the underlying file *)
  history : list DumpCall
}.

Module WriteStream.

Definition new : WriteStream :=
  {| enabled := true; file := ""; history := [] |}.

Definition enable (out : WriteStream) : WriteStream :=
  {| enabled := true; file := file out; history := history out |}.

Definition disable (out : WriteStream) : WriteStream :=
  {| enabled := false; file := file out; history := history out |}.

Definition disabled (out : WriteStream) : bool := negb (enabled out).

Definition write (data : string) (out : WriteStream) : WriteStream :=
  if enabled out
  then {| enabled := enabled out; file := file out +:+ data;
          history := history out |}
  else out.

Definition log (c : DumpCall) (out : WriteStream) : WriteStream :=
  {| enabled := enabled out; file := file out;
     history := history out ++ [c] |}.

End WriteStream.

Module SvnProperties.

(** [__init__] *)
Definition new : SvnProperties := {| keyset := ∅; totalLen := 10 |}.

Definition reset (p : SvnProperties) : SvnProperties :=
  {| keyset := ∅; totalLen := 10 |}.

Definition calcPropLength (key value : string) : Z :=
  let klen := len ("K " +:+ str (len key) +:+ LF +:+ key +:+ LF) in
  let vlen := len ("V " +:+ str (len value) +:+ LF +:+ value +:+ LF) in
  (klen + vlen)%Z.

Definition set (key value : string) (p : SvnProperties) : SvnProperties :=
  let total :=
    match keyset p !! key with
    | Some old => (totalLen p - calcPropLength key old)%Z
    | None => totalLen p
    end in
  {| keyset := <[key := value]> (keyset p);
     totalLen := (total + calcPropLength key value)%Z |}.

Definition writeLength (p : SvnProperties) (out : WriteStream) : WriteStream :=
  WriteStream.write ("Prop-content-length: " +:+ str (totalLen p) +:+ LF) out.

(** The body of the loop of [writeContent], for one entry. *)
Definition writeItem (kv : string * string) (out : WriteStream) : WriteStream :=
  let '(key, value) := kv in
  let out := WriteStream.write ("K " +:+ str (len key) +:+ LF) out in
  let out := WriteStream.write (key +:+ LF) out in
  let out := WriteStream.write ("V " +:+ str (len value) +:+ LF) out in
  let out := if truthy value then WriteStream.write value out else out in
  WriteStream.write LF out.

Definition writeContent `{DictOrder} (p : SvnProperties) (out : WriteStream)
  : WriteStream :=
  let out := fold_left (fun o kv => writeItem kv o) (iteritems (keyset p)) out in
  WriteStream.write ("PROPS-END" +:+ LF) out.

Definition dump `{DictOrder} (p : SvnProperties) (out : WriteStream)
  : WriteStream :=
  let out := writeLength p out in
  let out := WriteStream.write ("Content-length: " +:+ str (totalLen p) +:+ LF) out in
  let out := WriteStream.write LF out in
  let out := writeContent p out in
  WriteStream.write (LF +:+ LF) out.

End SvnProperties.

(** The bytes [writeContent] produces for a property set: what it writes to a
    fresh stream. *)
Definition propsBlock `{DictOrder} (p : SvnProperties) : string :=
  file (SvnProperties.writeContent p WriteStream.new).

(** [EmptyProps = SvnProperties()] *)
Definition EmptyProps : SvnProperties := SvnProperties.new.

(** Operations a client performs on a property set, as data, to speak of
    arbitrary sequences of them. *)
Inductive PropOp :=
| OpSet (key value : string)
| OpReset.

Definition applyOp (p : SvnProperties) (op : PropOp) : SvnProperties :=
  match op with
  | OpSet key value => SvnProperties.set key value p
  | OpReset => SvnProperties.reset p
  end.

(** A fresh [SvnProperties()] after the operations [ops], left to right. *)
Definition runOps (ops : list PropOp) : SvnProperties :=
  fold_left applyOp ops SvnProperties.new.

(** Bytes of the key/value lines, summed over a list of entries. *)
Definition itemsLen (l : list (string * string)) : Z :=
  foldr (fun kv acc => (SvnProperties.calcPropLength kv.1 kv.2 + acc)%Z) 0%Z l.

(** The bookkeeping invariant of [SvnProperties]. *)
Definition consistent (p : SvnProperties) : Prop :=
  totalLen p = (10 + itemsLen (map_to_list (keyset p)))%Z.


(** A sequence with a reset, an empty value and an overwritten key. *)
Definition example_ops : list PropOp :=
  [OpSet "svn:date" "2009"; OpReset; OpSet "svn:log" "initial import";
   OpSet "svn:author" ""; OpSet "svn:log" "fix"].

(** ** The world outside the script *)

(** [time.struct_time]: a tuple of integers, compared as tuples are. *)
Definition struct_time := list Z.

Fixpoint tuple_gt (a b : list Z) : bool :=
  match a, b with
  | x :: a', y :: b' => if (y <? x)%Z then true
                        else if (x <? y)%Z then false else tuple_gt a' b'
  | _ :: _, [] => true
  | [], _ => false
  end.

(** Library and operating-system services the script calls. *)
Record Env := {
  (* [text.decode(ENCODING).encode("utf8")]; [None] when the decoding raises *)
  toUTF8 : string -> option string;
  (* [time.strftime(SVN_DATE_FORMAT, date)] *)
  strftime : struct_time -> string;
  (* [hashlib.md5(data).hexdigest()] *)
  md5_hexdigest : string -> string;
  (* [fnmatch.fnmatch(filename, pattern)] *)
  fnmatch : string -> string -> bool;
  (* [Converter.getFile(path, revision, symlink)]: cache and cleartool; the
     cache file it names is represented by its bytes *)
  getFile : string -> string -> bool -> PyExc + string;
  (* the operator's answer to [askYesNo(question)] *)
  askYesNo : string -> bool
}.

(** The configuration constants the replay reads. *)
Record Config := {
  DUMP_SINCE_DATE : option struct_time;
  SVN_CREATE_BRANCHES_TAGS_DIRS : option string;
  IGNORE_CHILD_BRANCH_WARNING : string
}.

Definition FILEREAD_CHUNKSIZE : nat := 512.

(** ** Files opened for reading in binary mode *)

Record FileObj := mkFile {
  mode : string;   (* the mode it was opened with *)
  data : string;   (* the bytes of the file *)
  pos : nat        (* the read position *)
}.

(** [open(filename, 'rb')] on a file holding [content]. *)
Definition open_rb (content : string) : FileObj :=
  {| mode := "rb"; data := content; pos := 0 |}.

(** [f.read(n)] *)
Definition read (n : nat) (f : FileObj) : string * FileObj :=
  let s := take_s n (drop_s (pos f) (data f)) in
  (s, {| mode := mode f; data := data f; pos := pos f + String.length s |}).

(** [f.seek(offset)] from the start of the file. *)
Definition seek (offset : nat) (f : FileObj) : FileObj :=
  {| mode := mode f; data := data f; pos := offset |}.

(** [f.seek(-back, 2)]: from the end of the file. *)
Definition seek_end (back : nat) (f : FileObj) : FileObj :=
  {| mode := mode f; data := data f; pos := String.length (data f) - back |}.

(** What one pass of a chunked read loop sees: the unread bytes. *)
Definition unread (f : FileObj) : string := drop_s (pos f) (data f).

(** ** Reading a file backwards *)

(** The [for] loop of [rblocks]: the full blocks, last first. *)
Fixpoint rblocks_loop (idxs : list nat) (blocksize : nat) (f : FileObj)
  : list string :=
  match idxs with
  | [] => []
  | i :: idxs' =>
    let f := seek (i * blocksize) f in
    let '(block, f) := read blocksize f in
    block :: rblocks_loop idxs' blocksize f
  end.

(** [rblocks(f, blocksize)]: the blocks the generator yields, in order. *)
Definition rblocks (f : FileObj) (blocksize : nat) : PyExc + list string :=
  if negb (mode_has_b (mode f))
  then inl (PlainException "File must be opened using binary mode.")
  else if Nat.eqb blocksize 0 then inl ZeroDivisionError
  else
    let size := String.length (data f) in
    let fullblocks := size / blocksize in
    let lastblock := size mod blocksize in
    let f := seek_end lastblock f in
    let '(block, f) := read lastblock f in
    (* xrange(fullblocks-1, -1, -1) *)
    inr (block :: rblocks_loop (rev (seq 0 fullblocks)) blocksize f).

(** One turn of the [for] loop of [rlines]: the new [buf] and the lines
    yielded in this turn. *)
Definition rlines_step (keepends : bool) (buf block : string)
  : string * list string :=
  let buf := block +:+ buf in
  let lines := splitlines keepends buf in
  match lines with
  | [] => (buf, [])
  | _ :: _ =>
    let lines := rev lines in                (* lines.reverse() *)
    (List.last lines "", removelast lines)   (* buf = lines.pop() *)
  end.

Fixpoint rlines_loop (keepends : bool) (buf : string) (blocks : list string)
  : list string :=
  match blocks with
  | [] => [buf]                              (* yield buf *)
  | block :: blocks' =>
    let '(buf', yielded) := rlines_step keepends buf block in
    yielded ++ rlines_loop keepends buf' blocks'
  end.

(** [rlines(f, keepends)]: the lines the generator yields, in order. *)
Definition rlines (f : FileObj) (keepends : bool) : PyExc + list string :=
  match rblocks f 4096 with
  | inl e => inl e
  | inr blocks => inr (rlines_loop keepends "" blocks)
  end.

(** Forward reading, as the claim compares it: the lines of the whole
    content, first to last. *)
Definition forward_lines (content : string) : list string :=
  splitlines false content.

(** A file of 4098 bytes: a line of 4095 bytes, an empty line, and a last
    line without a line end.  The empty line's line feed is the first byte of
    the short block that [rblocks] yields first. *)
Definition blank_line_at_boundary : string :=
  string_repeat 4095 "a" +:+ LF +:+ LF +:+ "b".

(** ** The serializer *)

Section Serializer.
Context `{DictOrder}.
Variable env : Env.

Definition out_write (s : string) : M WriteStream unit :=
  modify (WriteStream.write s).

(** A loop of the model that ran out of its bound: see the theorems that
    the bounds used are enough. *)
Definition need {S A} (o : option A) : M S A :=
  match o with
  | Some a => ret a
  | None => raise (RuntimeError "loop bound of the model")
  end.

Definition writeContentLength (n : Z) : M WriteStream unit :=
  out_write ("Content-length: " +:+ str n +:+ LF).

Definition writeTextContentLength (n : Z) : M WriteStream unit :=
  out_write ("Text-content-length: " +:+ str n +:+ LF).

Definition writeNodePath (nodePath : string) : M WriteStream unit :=
  match toUTF8 env (replace_char "\" "/" nodePath) with
  | Some p => out_write ("Node-path: " +:+ p +:+ LF)
  | None => raise UnicodeError
  end.

Definition writeNodeKind (nodeKind : string) : M WriteStream unit :=
  out_write ("Node-kind: " +:+ nodeKind +:+ LF).

Definition writeNodeAction (nodeAction : string) : M WriteStream unit :=
  out_write ("Node-action: " +:+ nodeAction +:+ LF).

(** The [while 1] loop of [calculateLengthAndChecksum]; [md] is the data fed
    to the digest so far. *)
Fixpoint checksumLoop (fuel : nat) (f : FileObj) (md : string)
  (textContentLength : Z) : option (Z * string) :=
  match fuel with
  | 0 => None
  | S fuel' =>
    let '(s, f') := read FILEREAD_CHUNKSIZE f in
    if truthy s
    then checksumLoop fuel' f' (md +:+ s) (textContentLength + len s)%Z
    else Some (textContentLength, md)
  end.

Definition calculateLengthAndChecksum (content : string) : option (Z * string) :=
  match checksumLoop (S (String.length content)) (open_rb content) "" 0%Z with
  | Some (textContentLength, md) =>
    Some (textContentLength, md5_hexdigest env md)
  | None => None
  end.

(** The [while 1] loop of [writeContent(out, filename)]. *)
Fixpoint writeContentLoop (fuel : nat) (f : FileObj) (out : WriteStream)
  : option WriteStream :=
  match fuel with
  | 0 => None
  | S fuel' =>
    let '(s, f') := read FILEREAD_CHUNKSIZE f in
    if truthy s
    then writeContentLoop fuel' f' (WriteStream.write s out)
    else Some out
  end.

Definition writeContent (content : string) : M WriteStream unit :=
  fun out =>
    match writeContentLoop (S (String.length content)) (open_rb content) out with
    | Some out' => (inr tt, out')
    | None => (inl (RuntimeError "loop bound of the model"), out)
    end.

Definition dumpSvnFile (action path : string) (props : SvnProperties)
  (content : string) : M WriteStream unit :=
  exec modify (WriteStream.log (CallSvnFile action path props content));
  exec writeNodePath path;
  exec writeNodeKind "file";
  exec writeNodeAction action;
  exec modify (SvnProperties.writeLength props);
  do lc <- need (calculateLengthAndChecksum content);
  exec writeTextContentLength lc.1;
  exec out_write ("Text-content-md5: " +:+ lc.2 +:+ LF);
  exec writeContentLength (lc.1 + totalLen props)%Z;
  exec out_write LF;
  exec modify (SvnProperties.writeContent props);
  exec writeContent content;
  out_write (LF +:+ LF).

Definition dumpSvnCopy (kind copyfromPath : string) (copyfromRev : Z)
  (target : string) : M WriteStream unit :=
  exec modify (WriteStream.log (CallSvnCopy kind copyfromPath copyfromRev target));
  exec writeNodePath target;
  exec writeNodeKind kind;
  exec writeNodeAction "add";
  exec out_write ("Node-copyfrom-rev: " +:+ str copyfromRev +:+ LF);
  match toUTF8 env (replace_char "\" "/" copyfromPath) with
  | Some p =>
    exec out_write ("Node-copyfrom-path: " +:+ p +:+ LF);
    out_write LF
  | None => raise UnicodeError
  end.

Definition dumpSvnDir (path : string) : M WriteStream unit :=
  exec modify (WriteStream.log (CallSvnDir path));
  exec writeNodePath path;
  exec writeNodeKind "dir";
  exec writeNodeAction "add";
  out_write LF.

Definition dumpSvnDelete (path : string) : M WriteStream unit :=
  exec modify (WriteStream.log (CallSvnDelete path));
  exec writeNodePath path;
  exec writeNodeAction "delete";
  out_write LF.

Definition getSvnBranchPath (branch : string) : string := "branches/" +:+ branch.

Definition getSvnTagPath (tag : string) : string := "tags/" +:+ tag.

End Serializer.

(** ** File sets ([class FileSet(set)]) *)

Record FileSet := mkFileSet {
  root : string;
  members : gset string
}.

Module FileSet.

Definition new (root : string) : FileSet := {| root := root; members := ∅ |}.

Definition getAbsolutePath (fs : FileSet) (path : string) : string :=
  root fs +:+ "/" +:+ path.

Definition add (path : string) (fs : FileSet) : FileSet :=
  {| root := root fs; members := {[path]} ∪ members fs |}.

Definition contains (path : string) (fs : FileSet) : bool :=
  bool_decide (path ∈ members fs).

(** Truth value of a set: non-empty. *)
Definition nonempty (fs : FileSet) : bool :=
  negb (bool_decide (members fs = ∅)).

(** [fs.copy()] followed by [.root = root']. *)
Definition copy_to (root' : string) (fs : FileSet) : FileSet :=
  {| root := root'; members := members fs |}.

End FileSet.

(** ** History records ([class CCRecord]) *)

Module CCRecord.

Record t := mk {
  comment : string;
  date : struct_time;
  path : string;
  revision : string;
  operation : string;
  labels : list string;
  type : string;
  author : string;
  branchNames : list string;
  revNumber : string;
  (* set by [Converter.process] *)
  svnbranch : string;
  svnpath : string
}.

Definition with_svn (branch spath : string) (r : t) : t :=
  {| comment := comment r; date := date r; path := path r;
     revision := revision r; operation := operation r; labels := labels r;
     type := type r; author := author r; branchNames := branchNames r;
     revNumber := revNumber r; svnbranch := branch; svnpath := spath |}.

End CCRecord.

(** ** The converter ([class Converter]) *)

(** A property set handed out by [SvnAutoProps.getProps]: the object stored
    under a pattern, or the global [EmptyProps]. *)
Inductive PropsRef :=
| AutoRef (pattern : string)
| EmptyRef.

Record Converter := mkConverter {
  autoProps : gmap string SvnProperties;   (* [SvnAutoProps.autoProps] *)
  emptyProps : SvnProperties;              (* the global [EmptyProps] *)
  labels : option (list string);
  checklabels : gset string;               (* own set, when [labels] is None *)
  branches : option (list string);
  ignoredDirectories : option (list string);
  out : WriteStream;
  (* branch/label -> FileSet; a FileSet object is stored under exactly one
     key from its creation on, and the model refers to it by that key *)
  svnTree : gmap string FileSet;
  ccTree : gset (string * string);
  svnRevNum : Z;
  revProps : SvnProperties                 (* [SvnRevisionProps.properties] *)
}.

Definition set_out (o : WriteStream) (c : Converter) : Converter :=
  mkConverter (autoProps c) (emptyProps c) (labels c) (checklabels c)
    (branches c) (ignoredDirectories c) o (svnTree c) (ccTree c)
    (svnRevNum c) (revProps c).

Definition set_svnTree (t : gmap string FileSet) (c : Converter) : Converter :=
  mkConverter (autoProps c) (emptyProps c) (labels c) (checklabels c)
    (branches c) (ignoredDirectories c) (out c) t (ccTree c)
    (svnRevNum c) (revProps c).

Definition set_ccTree (t : gset (string * string)) (c : Converter) : Converter :=
  mkConverter (autoProps c) (emptyProps c) (labels c) (checklabels c)
    (branches c) (ignoredDirectories c) (out c) (svnTree c) t
    (svnRevNum c) (revProps c).

Definition set_svnRevNum (n : Z) (c : Converter) : Converter :=
  mkConverter (autoProps c) (emptyProps c) (labels c) (checklabels c)
    (branches c) (ignoredDirectories c) (out c) (svnTree c) (ccTree c)
    n (revProps c).

Definition set_revProps (p : SvnProperties) (c : Converter) : Converter :=
  mkConverter (autoProps c) (emptyProps c) (labels c) (checklabels c)
    (branches c) (ignoredDirectories c) (out c) (svnTree c) (ccTree c)
    (svnRevNum c) p.

Definition set_checklabels (s : gset string) (c : Converter) : Converter :=
  mkConverter (autoProps c) (emptyProps c) (labels c) s
    (branches c) (ignoredDirectories c) (out c) (svnTree c) (ccTree c)
    (svnRevNum c) (revProps c).

Definition set_props (ref : PropsRef) (p : SvnProperties) (c : Converter)
  : Converter :=
  match ref with
  | AutoRef pattern =>
    mkConverter (<[pattern := p]> (autoProps c)) (emptyProps c) (labels c)
      (checklabels c) (branches c) (ignoredDirectories c) (out c) (svnTree c)
      (ccTree c) (svnRevNum c) (revProps c)
  | EmptyRef =>
    mkConverter (autoProps c) p (labels c) (checklabels c) (branches c)
      (ignoredDirectories c) (out c) (svnTree c) (ccTree c) (svnRevNum c)
      (revProps c)
  end.

(** The property set a reference stands for. *)
Definition props_at (ref : PropsRef) (c : Converter) : SvnProperties :=
  match ref with
  | AutoRef pattern => default SvnProperties.new (autoProps c !! pattern)
  | EmptyRef => emptyProps c
  end.

(** The file set stored under [key]. *)
Definition fileSet_at (key : string) (c : Converter) : FileSet :=
  default (FileSet.new "") (svnTree c !! key).

(** The interpreter's bound on nested calls. *)
Definition recursion_limit : nat := 1000.

(** ** Automatic properties ([class SvnAutoProps]) *)

Module SvnAutoProps.

(** The properties of one line's right-hand side, [key=value;key=value]. *)
Definition parseProps (s : string) : SvnProperties :=
  fold_left
    (fun props avp =>
       let fields := split "=" avp in
       let key := hd "" fields in
       let value := match fields with _ :: v :: _ => v | _ => "" end in
       SvnProperties.set key value props)
    (split ";" s) SvnProperties.new.

(** [pattern, str = line.strip().split(" = ")]: [None] when the unpacking
    raises. *)
Definition line_def (line : string) : option (string * string) :=
  match split " = " (strip line) with
  | [pattern; s] => Some (pattern, s)
  | _ => None
  end.

(** One turn of the loop of [load]; a line that is not [pattern = props] is
    skipped. *)
Definition load_line (autoProps : gmap string SvnProperties) (line : string)
  : gmap string SvnProperties :=
  match line_def line with
  | Some (pattern, s) => <[pattern := parseProps s]> autoProps
  | None => autoProps
  end.

(** [load(filename)], on the lines of the file. *)
Definition load (lines : list string) : gmap string SvnProperties :=
  fold_left load_line lines ∅.

Section GetProps.
Context `{DictOrder}.
Variable env : Env.

(** [getProps(filepath)]: which object is returned. *)
Definition getProps (autoProps : gmap string SvnProperties) (filepath : string)
  : PropsRef :=
  let filename := basename filepath in
  match List.find (fun kv => fnmatch env filename kv.1) (iteritems autoProps) with
  | Some (pattern, _) => AutoRef pattern
  | None => EmptyRef
  end.

(** The claim's reading of [getProps], to compare with: the first line of
    the file whose pattern matches the base name, as pattern and
    right-hand side. *)
Definition first_match_in_file (lines : list string) (filepath : string)
  : option (string * string) :=
  List.find (fun ps => fnmatch env (basename filepath) ps.1)
    (omap line_def lines).

End GetProps.

(** The right-hand side of the last line of the file that gives [pattern]. *)
Fixpoint last_def (lines : list string) (pattern : string) : option string :=
  match lines with
  | [] => None
  | line :: lines' =>
    match last_def lines' pattern with
    | Some s => Some s
    | None =>
      match line_def line with
      | Some (p, s) => if String.eqb p pattern then Some s else None
      | None => None
      end
    end
  end.

End SvnAutoProps.

(** ** Revision properties ([class SvnRevisionProps]) *)

Module SvnRevisionProps.
Section Setters.
Variable env : Env.

Definition setAuthor (author : string) (p : SvnProperties) : SvnProperties :=
  SvnProperties.set "svn:author" (default "" (toUTF8 env author)) p.

Definition setDate (date : struct_time) (p : SvnProperties) : SvnProperties :=
  SvnProperties.set "svn:date" (strftime env date) p.

Definition setMessage (message : string) (p : SvnProperties) : SvnProperties :=
  SvnProperties.set "svn:log" (default "" (toUTF8 env message)) p.

Definition setCCRevision (ccrevision : string) (p : SvnProperties)
  : SvnProperties :=
  SvnProperties.set "ClearcaseRevision" ccrevision p.

End Setters.
End SvnRevisionProps.

(** ** The methods of the converter *)

Section ConverterMethods.
Context `{DictOrder}.
Variable env : Env.
Variable cfg : Config.

(** [Converter(dumpfile, labels, branches, ignoredDirectories, autoProps)] *)
Definition Converter_new (labels branches ignoredDirectories : option (list string))
  (autoProps : gmap string SvnProperties) : Converter :=
  {| autoProps := autoProps; emptyProps := EmptyProps; labels := labels;
     checklabels := ∅; branches := branches;
     ignoredDirectories := ignoredDirectories; out := WriteStream.new;
     svnTree := ∅; ccTree := ∅; svnRevNum := 1;
     revProps := SvnProperties.new |}.

(** A serializer call on [self.out]. *)
Definition lift_out {A} (m : M WriteStream A) : M Converter A :=
  fun c => let '(r, o) := m (out c) in (r, set_out o c).

Definition dumpRevisionHeader (c : Converter) : Converter :=
  let c := set_out (WriteStream.log
                      (CallRevisionHeader (svnRevNum c) (revProps c)) (out c)) c in
  let c := set_out (WriteStream.write
                      ("Revision-number: " +:+ str (svnRevNum c) +:+ LF) (out c)) c in
  let c := set_svnRevNum (svnRevNum c + 1) c in
  set_out (SvnProperties.dump (revProps c) (out c)) c.

Definition setRevisionProps (r : CCRecord.t) (c : Converter) : Converter :=
  let p := revProps c in
  let p := SvnRevisionProps.setMessage env (CCRecord.comment r) p in
  let p := SvnRevisionProps.setAuthor env (CCRecord.author r) p in
  let p := SvnRevisionProps.setDate env (CCRecord.date r) p in
  let p := SvnRevisionProps.setCCRevision (CCRecord.revision r) p in
  set_revProps p c.

Definition initializeFile : M Converter unit :=
  exec lift_out (out_write ("SVN-fs-dump-format-version: 2" +:+ LF +:+ LF));
  exec (match DUMP_SINCE_DATE cfg with
        | Some _ => modify (fun c => set_out (WriteStream.disable (out c)) c)
        | None => ret tt
        end);
  if match SVN_CREATE_BRANCHES_TAGS_DIRS cfg with
     | Some s => truthy s
     | None => false
     end
  then
    exec modify dumpRevisionHeader;
    exec lift_out (dumpSvnDir env (getSvnBranchPath ""));
    lift_out (dumpSvnDir env (getSvnTagPath ""))
  else ret tt.

Definition dumpFile (r : CCRecord.t) (action : string) (symlink : bool)
  : M Converter unit :=
  do contentFilename <-
    (fun c => (getFile env (CCRecord.path r) (CCRecord.revision r) symlink, c));
  do c <- get;
  let props := SvnAutoProps.getProps env (autoProps c) (CCRecord.svnpath r) in
  exec (if symlink && String.eqb action "add"
        then modify (fun c => set_props props
                       (SvnProperties.set "svn:special" "*" (props_at props c)) c)
        else ret tt);
  do c <- get;
  lift_out (dumpSvnFile env action (CCRecord.svnpath r) (props_at props c)
              contentFilename).

(** [fileSet.add(path)] for the file set stored under [key]. *)
Definition fileSet_add (key path : string) : M Converter unit :=
  modify (fun c => set_svnTree (alter (FileSet.add path) key (svnTree c)) c).

(** [createParentDirs(fileSet, path)], the file set being the one stored
    under [key]; [depth] is the number of nested calls still allowed. *)
Fixpoint createParentDirs (depth : nat) (key path : string) : M Converter unit :=
  match depth with
  | 0 => raise (RuntimeError "maximum recursion depth exceeded")
  | S depth' =>
    let dir := dirname path in
    do c <- get;
    if truthy dir && negb (FileSet.contains dir (fileSet_at key c)) then
      exec createParentDirs depth' key dir;
      do c <- get;
      let dirpath := FileSet.getAbsolutePath (fileSet_at key c) dir in
      exec lift_out (dumpSvnDir env dirpath);
      fileSet_add key dir
    else ret tt
  end.

(** [getTagFileset(label)]: the key of the file set returned. *)
Definition getTagFileset (label : string) : M Converter string :=
  do c <- get;
  match svnTree c !! label with
  | Some _ => ret label
  | None =>
    let fileSet := FileSet.new (getSvnTagPath label) in
    exec modify (fun c => set_svnTree (<[label := fileSet]> (svnTree c)) c);
    exec lift_out (dumpSvnDir env (root fileSet));
    ret label
  end.

(** [self.labels is None or cclabel in self.labels] *)
Definition label_allowed (c : Converter) (cclabel : string) : bool :=
  match labels c with
  | None => true
  | Some l => bool_decide (cclabel ∈ l)
  end.

(** The [for] loop of [processLabels]. *)
Fixpoint processLabels_loop (r : CCRecord.t) (updateLabels : bool)
  (copyfromRev : Z) (first : bool) (cclabels : list string) : M Converter unit :=
  match cclabels with
  | [] => ret tt
  | cclabel :: cclabels' =>
    do c <- get;
    if label_allowed c cclabel then
      exec (if first then modify dumpRevisionHeader else ret tt);
      do fileSet <- getTagFileset cclabel;
      exec createParentDirs recursion_limit fileSet (CCRecord.path r);
      do c <- get;
      let copyfromPath := CCRecord.svnpath r in
      let copytoPath :=
        FileSet.getAbsolutePath (fileSet_at fileSet c) (CCRecord.path r) in
      exec lift_out (dumpSvnCopy env "file" copyfromPath copyfromRev copytoPath);
      exec (if match labels c with None => true | Some _ => false end
               && updateLabels
            then modify (fun c => set_checklabels ({[cclabel]} ∪ checklabels c) c)
            else ret tt);
      processLabels_loop r updateLabels copyfromRev false cclabels'
    else processLabels_loop r updateLabels copyfromRev first cclabels'
  end.

Definition processLabels (r : CCRecord.t) (updateLabels : bool)
  : M Converter unit :=
  exec modify (fun c => set_ccTree
                 ({[(CCRecord.path r, CCRecord.revision r)]} ∪ ccTree c) c);
  do c <- get;
  let copyfromRev := (svnRevNum c - 1)%Z in
  processLabels_loop r updateLabels copyfromRev true (CCRecord.labels r).

Definition isIgnored (c : Converter) (path : string) : bool :=
  match ignoredDirectories c with
  | None => false
  | Some dirs => existsb (fun directory => startswith path directory) dirs
  end.

(** [len(branchNames) > 0 and branchNames[-1] or "unknown"] *)
Definition svnbranch_of (branchNames : list string) : string :=
  match List.last (map Some branchNames) None with
  | Some b => if truthy b then b else "unknown"
  | None => "unknown"
  end.

(** [branchNames[-2]], for a list of two names or more. *)
Definition parent_of (branchNames : list string) : string :=
  List.last (removelast branchNames) "".

Definition is_version_op (operation : string) : bool :=
  String.eqb operation "checkin" || String.eqb operation "mkbranch"
  || String.eqb operation "mkelem".

(** The file-version case of [process], branch already known. *)
Definition process_known_branch (r : CCRecord.t) (branchFileSet : FileSet)
  : M Converter unit :=
  let key := CCRecord.svnbranch r in
  exec modify dumpRevisionHeader;
  exec (if FileSet.contains (CCRecord.path r) branchFileSet then
          dumpFile r "change" false
        else
          exec createParentDirs recursion_limit key (CCRecord.path r);
          exec dumpFile r "add" false;
          fileSet_add key (CCRecord.path r));
  processLabels r true.

(** The parent branch is not known: report, then create the branch as a new
    directory or exit, as configured or as the operator says. *)
Definition create_branch_anyway (key : string) : M Converter unit :=
  if String.eqb (IGNORE_CHILD_BRANCH_WARNING cfg) "true"
     || askYesNo env "Create branch anyway and ignore the error? (or exit)"
  then
    let newBranchFileSet := FileSet.new (getSvnBranchPath key) in
    exec modify (fun c => set_svnTree (<[key := newBranchFileSet]> (svnTree c)) c);
    lift_out (dumpSvnDir env (root newBranchFileSet))
  else raise (SystemExit 1).

(** The branch is created as a copy of its parent. *)
Definition copy_branch (key parentSvnBranch : string) (copyfromRev : Z)
  (parentBranchFileSet : FileSet) : M Converter unit :=
  let copyfromPath := getSvnBranchPath parentSvnBranch in
  let copytoPath := getSvnBranchPath key in
  let newBranchFileSet := FileSet.copy_to copytoPath parentBranchFileSet in
  exec modify (fun c => set_svnTree (<[key := newBranchFileSet]> (svnTree c)) c);
  lift_out (dumpSvnCopy env "dir" copyfromPath copyfromRev copytoPath).

(** The file-version case of [process], new branch. *)
Definition process_new_branch (r : CCRecord.t) : M Converter unit :=
  let key := CCRecord.svnbranch r in
  do c <- get;
  let copyfromRev := (svnRevNum c - 1)%Z in
  exec modify dumpRevisionHeader;
  exec (if length (CCRecord.branchNames r) <? 2 then
          (* new top level branch *)
          let newBranchFileSet := FileSet.new (getSvnBranchPath key) in
          exec modify (fun c => set_svnTree (<[key := newBranchFileSet]> (svnTree c)) c);
          lift_out (dumpSvnDir env (root newBranchFileSet))
        else
          let parentSvnBranch := parent_of (CCRecord.branchNames r) in
          do c <- get;
          match svnTree c !! parentSvnBranch with
          | Some parentBranchFileSet =>
            if FileSet.nonempty parentBranchFileSet
            then copy_branch key parentSvnBranch copyfromRev parentBranchFileSet
            else create_branch_anyway key
          | None => create_branch_anyway key
          end);
  do c <- get;
  exec (if FileSet.contains (CCRecord.path r) (fileSet_at key c) then
          (* file is already in the set - svn modify if cc version is not 0 *)
          if negb (String.eqb (CCRecord.revNumber r) "0")
          then dumpFile r "change" false
          else ret tt
        else
          exec createParentDirs recursion_limit key (CCRecord.path r);
          exec dumpFile r "add" false;
          fileSet_add key (CCRecord.path r));
  processLabels r true.

(** The directory-version case of [process]. *)
Definition process_directory (r : CCRecord.t) : M Converter unit :=
  let key := CCRecord.svnbranch r in
  do c <- get;
  match svnTree c !! key with
  | Some branchFileSet =>
    if FileSet.nonempty branchFileSet then
      exec (if FileSet.contains (CCRecord.path r) branchFileSet then ret tt
            else
              exec modify dumpRevisionHeader;
              exec createParentDirs recursion_limit key (CCRecord.path r);
              exec lift_out (dumpSvnDir env (CCRecord.svnpath r));
              fileSet_add key (CCRecord.path r));
      modify (fun c => set_ccTree
                ({[(CCRecord.path r, CCRecord.revision r)]} ∪ ccTree c) c)
    else ret tt
  | None => ret tt
  end.

(** The cases of [process], by element type and operation. *)
Definition process_cases (r : CCRecord.t) : M Converter unit :=
  if String.eqb (CCRecord.type r) "version" then
    if is_version_op (CCRecord.operation r) then
      do c <- get;
      match svnTree c !! CCRecord.svnbranch r with
      | Some branchFileSet => process_known_branch r branchFileSet
      | None => process_new_branch r
      end
    else ret tt
  else if String.eqb (CCRecord.type r) "directory version" then
    if is_version_op (CCRecord.operation r) then process_directory r
    else ret tt
  else if String.eqb (CCRecord.type r) "symbolic link"
          && String.eqb (CCRecord.operation r) "mkslink" then
    (* [PUT_CCLINKS_TO_BRANCH] is defined nowhere: the first statement of
       this case raises, and the rest of the case is never run *)
    raise (NameError "PUT_CCLINKS_TO_BRANCH")
  else ret tt.

(** [out.enable()] once a record is newer than [DUMP_SINCE_DATE]. *)
Definition enable_after_cutoff (r : CCRecord.t) (c : Converter) : Converter :=
  match DUMP_SINCE_DATE cfg with
  | Some since =>
    if WriteStream.disabled (out c) && tuple_gt (CCRecord.date r) since
    then set_out (WriteStream.enable (out c)) c
    else c
  | None => c
  end.

(** [process(ccRecord)] *)
Definition process (r0 : CCRecord.t) : M Converter unit :=
  if String.eqb (CCRecord.path r0) "." then ret tt else
  let svnbranch := svnbranch_of (CCRecord.branchNames r0) in
  let r := CCRecord.with_svn svnbranch
             (getSvnBranchPath svnbranch +:+ "/" +:+ CCRecord.path r0) r0 in
  do c <- get;
  if match branches c with
     | Some bs => negb (bool_decide (svnbranch ∈ bs))
     | None => false
     end
  then ret tt else
  if isIgnored c (CCRecord.path r) then ret tt else
  exec modify (enable_after_cutoff r);
  exec modify (setRevisionProps r);
  process_cases r.

(** The replay loop of [main]: records oldest first, until one raises. *)
Definition replay (records : list CCRecord.t) : M Converter unit :=
  forM records process.

End ConverterMethods.

(** ** Saving the run state *)

(** Values of the two types [saveState] adds up. *)
Inductive PyVal :=
| PyStr (s : string)
| PyInt (n : Z).

(** [a + b] *)
Definition py_add (a b : PyVal) : PyExc + PyVal :=
  match a, b with
  | PyStr x, PyStr y => inr (PyStr (x +:+ y))
  | PyInt x, PyInt y => inr (PyInt (x + y))
  | PyStr _, PyInt _ => inl (TypeError "cannot concatenate 'str' and 'int' objects")
  | PyInt _, PyStr _ =>
    inl (TypeError "unsupported operand type(s) for +: 'int' and 'str'")
  end.

(** [a + b + ... ], left to right. *)
Fixpoint py_sum (a : PyVal) (bs : list PyVal) : PyExc + PyVal :=
  match bs with
  | [] => inr a
  | b :: bs' =>
    match py_add a b with
    | inr ab => py_sum ab bs'
    | inl e => inl e
    end
  end.

Section SaveState.
Context `{DictOrder}.

(** The recovery file: its content, [None] while it does not exist. *)
Definition StateFile := option string.

(** [stateFile.write(a + b + ...)] *)
Definition stateFile_write (a : PyVal) (bs : list PyVal) : M StateFile unit :=
  match py_sum a bs with
  | inr (PyStr s) => modify (fun f => Some (default "" f +:+ s))
  | inr (PyInt _) => raise (TypeError "expected a character buffer object")
  | inl e => raise e
  end.

(** [saveState(file)] *)
Definition saveState (c : Converter) : M StateFile unit :=
  exec modify (fun _ => Some "");                      (* open(file, "wt") *)
  exec stateFile_write (PyStr "SvnRevNum:") [PyInt (svnRevNum c); PyStr LF];
  exec stateFile_write (PyStr ("svnTree:" +:+ LF)) [];
  exec forM (iteritems (svnTree c))
         (fun kv => stateFile_write (PyStr kv.1)
                      [PyStr "|"; PyStr (root kv.2); PyStr LF]);
  exec stateFile_write (PyStr ("ccTree:" +:+ LF)) [];
  forM (elements (ccTree c))
    (fun pr => stateFile_write (PyStr pr.1) [PyStr "|"; PyStr pr.2; PyStr LF]).

End SaveState.

(** ** Example data *)

(** A matcher for patterns made of literal characters, [*] and [?]. *)
Fixpoint glob (pattern : string) : string -> bool :=
  match pattern with
  | EmptyString => fun s => negb (truthy s)
  | String "*" pattern' =>
    fix star (s : string) : bool :=
      glob pattern' s || match s with
                         | EmptyString => false
                         | String _ s' => star s'
                         end
  | String "?" pattern' =>
    fun s => match s with
             | EmptyString => false
             | String _ s' => glob pattern' s'
             end
  | String c pattern' =>
    fun s => match s with
             | EmptyString => false
             | String d s' => Ascii.eqb c d && glob pattern' s'
             end
  end.

Definition pad2 (n : Z) : string :=
  if (n <? 10)%Z then "0" +:+ str n else str n.

(** [SVN_DATE_FORMAT] applied to year, month, day, hour, minute, second. *)
Definition example_strftime (t : struct_time) : string :=
  match t with
  | y :: m :: d :: hh :: mm :: ss :: _ =>
    str y +:+ "-" +:+ pad2 m +:+ "-" +:+ pad2 d +:+ "T" +:+
    pad2 hh +:+ ":" +:+ pad2 mm +:+ ":" +:+ pad2 ss +:+ ".000000Z"
  | _ => ""
  end.

(** An environment to run examples in: text is already UTF-8, every version
    is in the cache, and the digest is a stand-in. *)
Definition example_env : Env :=
  {| toUTF8 := Some;
     strftime := example_strftime;
     md5_hexdigest := fun data => "md5-of-" +:+ str (len data) +:+ "-bytes";
     fnmatch := fun filename pattern => glob pattern filename;
     getFile := fun path revision _ =>
                  inr ("bytes of " +:+ path +:+ "@@" +:+ revision);
     askYesNo := fun _ => true |}.

Definition example_cfg : Config :=
  {| DUMP_SINCE_DATE := None;
     SVN_CREATE_BRANCHES_TAGS_DIRS := None;
     IGNORE_CHILD_BRANCH_WARNING := "false" |}.

(** A file-version record as [CCHistoryParser.processLine] builds it. *)
Definition version_record (date : struct_time) (path revision operation : string)
  (labels branchNames : list string) (revNumber : string) : CCRecord.t :=
  {| CCRecord.comment := ""; CCRecord.date := date; CCRecord.path := path;
     CCRecord.revision := revision; CCRecord.operation := operation;
     CCRecord.labels := labels; CCRecord.type := "version";
     CCRecord.author := "alice"; CCRecord.branchNames := branchNames;
     CCRecord.revNumber := revNumber;
     CCRecord.svnbranch := ""; CCRecord.svnpath := "" |}.

(** What a serializer call was, without its property set and content. *)
Definition call_summary (call : DumpCall) : string :=
  match call with
  | CallRevisionHeader n _ => "revision " +:+ str n
  | CallSvnFile action path _ _ => "file " +:+ action +:+ " " +:+ path
  | CallSvnCopy kind from rev target =>
    "copy " +:+ kind +:+ " " +:+ from +:+ "@" +:+ str rev +:+ " " +:+ target
  | CallSvnDir path => "dir " +:+ path
  | CallSvnDelete path => "delete " +:+ path
  end.

(** The serializer calls made between two states of the converter. *)
Definition new_calls (c c' : Converter) : list DumpCall :=
  drop (length (history (out c))) (history (out c')).

Definition june : struct_time := [2009; 6; 1; 10; 0; 0; 0; 152; -1]%Z.
Definition july : struct_time := [2009; 7; 1; 0; 0; 0; 2; 182; -1]%Z.
Definition august : struct_time := [2009; 8; 3; 9; 30; 0; 0; 215; -1]%Z.

(** A configuration with a cutoff date and the top directories asked for. *)
Definition cutoff_cfg : Config :=
  {| DUMP_SINCE_DATE := Some july;
     SVN_CREATE_BRANCHES_TAGS_DIRS := Some "true";
     IGNORE_CHILD_BRANCH_WARNING := "false" |}.

Definition fresh_converter : Converter := Converter_new None None None ∅.

(** A history of two elements on [main], the second one labelled twice, both
    then branched to [dev]. *)
Definition foo_main_0 : CCRecord.t :=
  version_record june "foo.txt" "/main/0" "mkelem" [] ["main"] "0".
Definition bar_main_0 : CCRecord.t :=
  version_record june "src/bar.txt" "/main/0" "mkelem" ["REL1"; "REL2"] ["main"] "0".
Definition foo_dev_0 : CCRecord.t :=
  version_record august "foo.txt" "/main/dev/0" "mkbranch" [] ["main"; "dev"] "0".
Definition bar_dev_0 : CCRecord.t :=
  version_record august "src/bar.txt" "/main/dev/0" "mkbranch" [] ["main"; "dev"] "0".

(** The run of [main] up to the end of the replay: a new dump file, then the
    records. *)
Definition run `{DictOrder} (env : Env) (cfg : Config) (records : list CCRecord.t)
  (c : Converter) : (PyExc + unit) * Converter :=
  (exec initializeFile env cfg; replay env cfg records) c.

Definition foo_main_1 : CCRecord.t :=
  version_record august "foo.txt" "/main/1" "checkin" [] ["main"] "1".

(** A mapping file whose second pattern CPython enumerates first. *)
Definition two_patterns : list string :=
  ["README* = svn:keywords=Id" +:+ LF;
   "# text files" +:+ LF;
   "*.txt = svn:eol-style=native;svn:mime-type=text/plain" +:+ LF].

(** ** Vocabulary of the replay properties *)

(** An operation on the stream that logs no call and keeps the switch. *)
Definition quiet (f : WriteStream -> WriteStream) : Prop :=
  forall o, history (f o) = history o /\ enabled (f o) = enabled o.

Definition quietM {A} (m : M WriteStream A) : Prop :=
  forall o, history (m o).2 = history o /\ enabled (m o).2 = enabled o.

(** A serializer entry point: it logs its call, once, and keeps the switch. *)
Definition logs {A} (m : M WriteStream A) (call : DumpCall) : Prop :=
  forall o, history (m o).2 = history o ++ [call] /\ enabled (m o).2 = enabled o.


Definition is_dir_call (call : DumpCall) : bool :=
  match call with CallSvnDir _ => true | _ => false end.

Definition is_header_call (call : DumpCall) : bool :=
  match call with CallRevisionHeader _ _ => true | _ => false end.

Definition is_copy_call (call : DumpCall) : bool :=
  match call with CallSvnCopy _ _ _ _ => true | _ => false end.

Definition is_change_call (call : DumpCall) : bool :=
  match call with
  | CallSvnFile action _ _ _ => String.eqb action "change"
  | _ => false
  end.

(** The root of the file set a label resolves to: that of the set stored
    under its name, or of the tag created for it. *)
Definition tag_root (c : Converter) (label : string) : string :=
  match svnTree c !! label with
  | Some fs => root fs
  | None => getSvnTagPath label
  end.

(** An operation [m] of the converter always ends in a state related to the
    one it started in. *)
Definition pres {A} (R : Converter -> Converter -> Prop) (m : M Converter A)
  : Prop :=
  forall c, R c (m c).2.

(** Steps that make only directory calls and leave alone the revision
    counter, the label list, the revision properties and every root, and
    drop no file set. *)
Definition frame (c c' : Converter) : Prop :=
  svnRevNum c' = svnRevNum c /\ labels c' = labels c /\ revProps c' = revProps c
  /\ (forall l, tag_root c' l = tag_root c l)
  /\ (forall k, is_Some (svnTree c !! k) -> is_Some (svnTree c' !! k))
  /\ exists ld, history (out c') = history (out c) ++ ld
                /\ Forall (fun call => is_dir_call call = true) ld.

(** Steps that only add calls satisfying [P] to the history. *)
Definition adds_calls (P : DumpCall -> Prop) (c c' : Converter) : Prop :=
  exists l, history (out c') = history (out c) ++ l /\ Forall P l.

(** The copy [processLabels] makes for a label: from the record's path on
    the branch side, at [copyfromRev], to the same path under the label's
    root. *)
Definition label_copy (r : CCRecord.t) (copyfromRev : Z) (c : Converter)
  (label : string) : DumpCall :=
  CallSvnCopy "file" (CCRecord.svnpath r) copyfromRev
    (tag_root c label +:+ "/" +:+ CCRecord.path r).

(** The revision header [processLabels] makes, if any of [passing] labels
    is there to make it for. *)
Definition label_header (c : Converter) (passing : list string) : list DumpCall :=
  match passing with
  | [] => []
  | _ :: _ => [CallRevisionHeader (svnRevNum c) (revProps c)]
  end.

Definition is_dir_or_copy (call : DumpCall) : bool :=
  is_dir_call call || is_copy_call call.

(** The converter after the first record, and after the first two. *)
Definition after_foo : Converter :=
  (@replay canonical_order example_env example_cfg [foo_main_0] fresh_converter).2.

Definition after_foo_bar : Converter :=
  (@replay canonical_order example_env example_cfg [foo_main_0; bar_main_0]
     fresh_converter).2.

(** The second record as [process] hands it to [processLabels]. *)
Definition bar_on_main : CCRecord.t :=
  CCRecord.with_svn "main" "branches/main/src/bar.txt" bar_main_0.

(** ** Vocabulary of the change-after-add property *)

(** The directories above [p], nearest first, as [createParentDirs] climbs
    them with [depth] nested calls at most. *)
Fixpoint ancestors (depth : nat) (p : string) : list string :=
  match depth with
  | 0 => []
  | S depth' =>
    let dir := dirname p in
    if truthy dir then dir :: ancestors depth' dir else []
  end.

(** The paths a history uses as directories: what lies above a record's
    path, and the paths of directory-version records. *)
Definition dirs_of (records : list CCRecord.t) : list string :=
  flat_map
    (fun r =>
       ancestors recursion_limit (CCRecord.path r)
       ++ (if String.eqb (CCRecord.type r) "directory version"
           then [CCRecord.path r] else []))
    records.

(** A history in which no path is both a file and a directory: the path of
    a file-version record is not a directory of the history. *)
Definition files_are_not_dirs (records : list CCRecord.t) : bool :=
  forallb
    (fun r =>
       negb (String.eqb (CCRecord.type r) "version")
       || negb (bool_decide (CCRecord.path r ∈ dirs_of records)))
    records.

(** The calls of the history [h] put the path [p] under the branch [k]: one
    of them adds the file there, or one of them creates the branch as a copy
    of a branch that had the path at that moment. *)
Inductive put_under : list DumpCall -> string -> string -> Prop :=
| put_by_add (h : list DumpCall) (k p : string) (props : SvnProperties)
    (content : string) :
    CallSvnFile "add" (getSvnBranchPath k +:+ "/" +:+ p) props content ∈ h ->
    put_under h k p
| put_by_copy (h1 h2 : list DumpCall) (k parent p : string) (rev : Z) :
    put_under h1 parent p ->
    put_under
      (h1 ++ CallSvnCopy "dir" (getSvnBranchPath parent) rev (getSvnBranchPath k)
          :: h2) k p.

(** Every file change in a history of calls is for a path of a branch that
    the calls before it put there. *)
Definition changes_follow_adds (h : list DumpCall) : Prop :=
  forall i sp props content,
    h !! i = Some (CallSvnFile "change" sp props content) ->
    exists k p, sp = getSvnBranchPath k +:+ "/" +:+ p /\ put_under (take i h) k p.

(** Why a path [p] is in the file set stored under [k]: it is a directory,
    or the calls so far put it under the branch [k]. *)
Definition member_ok (is_dir : string -> Prop) (h : list DumpCall)
  (k p : string) : Prop :=
  is_dir p \/ put_under h k p.

(** The invariant of the replay. *)
Definition replay_inv (is_dir : string -> Prop) (c : Converter) : Prop :=
  changes_follow_adds (history (out c))
  /\ forall k fs, svnTree c !! k = Some fs ->
       forall p, p ∈ members fs -> member_ok is_dir (history (out c)) k p.

(** A step that keeps the invariant. *)
Definition keeps_inv (is_dir : string -> Prop) (c c' : Converter) : Prop :=
  replay_inv is_dir c -> replay_inv is_dir c'.

(** * The rest of the script: the history parser, the lists read from
    files, the loop of [main] and the completion of labels *)

(** ** More of Python's strings *)

(** [sep.join(l)] *)
Fixpoint join (sep : string) (l : list string) : string :=
  match l with
  | [] => ""
  | [x] => x
  | x :: l' => x +:+ sep +:+ join sep l'
  end.

(** [c in s] for a character [c]. *)
Fixpoint has_char (c : ascii) (s : string) : bool :=
  match s with
  | EmptyString => false
  | String d s' => Ascii.eqb d c || has_char c s'
  end.

(** [s.endswith(p)] *)
Definition endswith (s p : string) : bool :=
  (String.length p <=? String.length s)
  && String.eqb (drop_s (String.length s - String.length p) s) p.

(** [s[1:-1]] *)
Definition slice_1_m1 (s : string) : string :=
  take_s (String.length s - 2) (drop_s 1 s).

(** [l[1:-1]] *)
Definition inner {A} (l : list A) : list A := removelast (tail l).

(** ** The history parser ([class CCHistoryParser]) *)

Definition HISTORY_FIELD_SEPARATOR : string := "@@@".

(** Library functions the parser calls. *)
Record ParserLib := {
  (* [time.strptime(text, CC_DATE_FORMAT)]: the date, or what it raises *)
  strptime : string -> PyExc + struct_time;
  (* [os.path.normpath] *)
  normpath : string -> string
}.

Module CCHistoryParser.

(** [parseLabels(s)], format [(label1, label2, label3)]. *)
Definition parseLabels (s : string) : list string :=
  if (0 <? len s)%Z && startswith s "(" && endswith s ")"
  then split ", " (slice_1_m1 s)
  else [].

(** [revisionParts = revision.split(os.sep)] and the two fields read from
    it; the code has a second branch for an empty list of parts. *)
Definition branchNames_of (revision : string) : list string :=
  let revisionParts := split "/" revision in
  if 0 <? length revisionParts then inner revisionParts else [].

Definition revNumber_of (revision : string) : string :=
  let revisionParts := split "/" revision in
  if 0 <? length revisionParts then List.last revisionParts "" else "-1".

Section Parser.
Variable lib : ParserLib.

(** A library call that can raise. *)
Definition call {S A} (r : PyExc + A) : M S A := fun s => (r, s).

(** [mkelemRecord(path, rev)] *)
Definition mkelemRecord {S} (path rev : string) : M S CCRecord.t :=
  do date <- call (strptime lib "20000101.000001");
  ret {| CCRecord.comment := ""; CCRecord.date := date; CCRecord.path := path;
         CCRecord.revision := rev; CCRecord.operation := "mkelem";
         CCRecord.labels := parseLabels ""; CCRecord.type := "version";
         CCRecord.author := "";
         CCRecord.branchNames := branchNames_of rev;
         CCRecord.revNumber := revNumber_of rev;
         CCRecord.svnbranch := ""; CCRecord.svnpath := "" |}.

(** The record [processLine] builds from the ten fields of a line. *)
Definition record_of_fields (fields : list string) (date : struct_time)
  : CCRecord.t :=
  let field i := nth i fields "" in
  let tags := parseLabels (field 5) in
  {| CCRecord.comment :=
       fold_left (fun comment tag => comment +:+ LF +:+ tag) tags (field 8);
     CCRecord.date := date;
     CCRecord.path := normpath lib (field 1);
     CCRecord.revision := field 2;
     CCRecord.operation := field 3;
     CCRecord.labels := parseLabels (field 4);
     CCRecord.type := field 6;
     CCRecord.author := field 7;
     CCRecord.branchNames := branchNames_of (field 2);
     CCRecord.revNumber := revNumber_of (field 2);
     CCRecord.svnbranch := ""; CCRecord.svnpath := "" |}.

(** [processLine(line)]; the state is [self.prevline]. *)
Definition processLine (line : string) : M string (option CCRecord.t) :=
  do prevline <- get;
  let line := if (0 <? len prevline)%Z then line +:+ LF +:+ prevline else line in
  let fields := split HISTORY_FIELD_SEPARATOR line in
  if length fields <? 10 then
    exec modify (fun _ => line);
    ret None
  else if 10 <? length fields then
    exec modify (fun _ => "");
    ret None
  else
    exec modify (fun _ => "");
    do date <- call (strptime lib (nth 0 fields ""));
    ret (Some (record_of_fields fields date)).

End Parser.
End CCHistoryParser.

(** ** Lists read from files *)

(** [readList(filename)], on the lines of the file when a name is given. *)
Definition readList (file_lines : option (list string)) : option (list string) :=
  match file_lines with
  | Some lines => Some (map strip lines)
  | None => None
  end.

(** ** The loop of [main] over the history file *)

(** An operation on one of two objects. *)
Definition on_fst {S T A} (m : M S A) : M (S * T) A :=
  fun st => let '(r, s) := m st.1 in (r, (s, st.2)).

Definition on_snd {S T A} (m : M T A) : M (S * T) A :=
  fun st => let '(r, t) := m st.2 in (r, (st.1, t)).

Section HistoryLoop.
Context `{DictOrder}.
Variable env : Env.
Variable cfg : Config.
Variable lib : ParserLib.

(** [for line in rlines(historyFile): ...] of [main], on the lines that
    [rlines] yields: the state is the parser's [prevline] and the converter. *)
Definition history_loop (lines : list string) : M (string * Converter) unit :=
  forM lines (fun line =>
    do ccRecord <- on_fst (CCHistoryParser.processLine lib line);
    match ccRecord with
    | Some r => on_snd (process env cfg r)
    | None => ret tt
    end).

End HistoryLoop.

(** Every non-empty end of the lines [suf], joined, has fewer than ten
    fields: read backwards, none of them completes a record. *)
Fixpoint all_pending (suf : list string) : bool :=
  match suf with
  | [] => true
  | _ :: suf' =>
    (length (split HISTORY_FIELD_SEPARATOR (join LF suf)) <? 10)
    && all_pending suf'
  end.

(** A record of the history file whose comment has three lines. *)
Definition three_line_record : list string :=
  ["20090729.162424@@@src/bar.txt@@@/main/dev/3@@@checkin@@@(REL1, REL2)@@@@@@version@@@alice@@@fix the parser";
   "";
   "and the tests@@@"].

(** Library functions to run examples with: a date is its digits read as
    one number, a path is left as it is. *)
Definition example_lib : ParserLib :=
  {| strptime := fun text => inr [len text];
     normpath := fun p => p |}.

(** ** Vocabulary for the effects of the converter's methods *)

(** A serializer entry point run on a disabled stream writes no byte and
    leaves the stream disabled. *)
Definition muteM {A} (m : M WriteStream A) : Prop :=
  forall o, enabled o = false ->
    enabled (m o).2 = false /\ file (m o).2 = file o.

(** The revision numbers of the headers among the calls [l]. *)
Definition header_numbers (l : list DumpCall) : list Z :=
  omap (fun call => match call with
                    | CallRevisionHeader n _ => Some n
                    | _ => None
                    end) l.

(** The property set handed to a call has the right running total. *)
Definition call_props_ok (call : DumpCall) : Prop :=
  match call with
  | CallRevisionHeader _ p => consistent p
  | CallSvnFile _ _ p _ => consistent p
  | _ => True
  end.

(** Every property set the converter holds has the right running total. *)
Definition props_ok (c : Converter) : Prop :=
  consistent (revProps c) /\ consistent (emptyProps c)
  /\ map_Forall (fun _ p => consistent p) (autoProps c).

(** What a step of the converter does to the history of calls, the revision
    counter and the property sets: the calls added satisfy [P], the headers
    among them are numbered from the counter on, one by one, and the counter
    ends after the last of them. *)
Definition effects (P : DumpCall -> Prop) (c c' : Converter) : Prop :=
  (exists l, history (out c') = history (out c) ++ l /\ Forall P l
     /\ header_numbers l
        = seqZ (svnRevNum c) (Z.of_nat (length (header_numbers l)))
     /\ svnRevNum c'
        = (svnRevNum c + Z.of_nat (length (header_numbers l)))%Z
     /\ (props_ok c -> Forall call_props_ok l))
  /\ (props_ok c -> props_ok c').

(** A step that, begun with the stream disabled, writes no byte and leaves
    the stream disabled. *)
Definition silent (c c' : Converter) : Prop :=
  enabled (out c) = false ->
    enabled (out c') = false /\ file (out c') = file (out c).

(** A step that only adds to the bytes written so far. *)
Definition appends (c c' : Converter) : Prop :=
  exists s, file (out c') = file (out c) +:+ s.

Definition appendsM {A} (m : M WriteStream A) : Prop :=
  forall o, exists s, file (m o).2 = file o +:+ s.

Definition steps (P : DumpCall -> Prop) (c c' : Converter) : Prop :=
  effects P c c' /\ silent c c' /\ appends c c'.

Section Filters.
Context `{DictOrder}.
Variable env : Env.
Variable cfg : Config.

(** The record is not dropped at the head of [process]. *)
Definition passes_filters (r : CCRecord.t) (c : Converter) : bool :=
  negb (String.eqb (CCRecord.path r) ".")
  && match branches c with
     | Some bs => bool_decide (svnbranch_of (CCRecord.branchNames r) ∈ bs)
     | None => true
     end
  && negb (isIgnored c (CCRecord.path r)).

(** The record with the two fields [process] sets. *)
Definition with_branch (r : CCRecord.t) : CCRecord.t :=
  CCRecord.with_svn (svnbranch_of (CCRecord.branchNames r))
    (getSvnBranchPath (svnbranch_of (CCRecord.branchNames r)) +:+ "/"
       +:+ CCRecord.path r) r.

(** The converter when [process] comes to look at the record's type: the
    stream enabled if the record is after the cutoff date, the revision
    properties set. *)
Definition prepared (r : CCRecord.t) (c : Converter) : Converter :=
  setRevisionProps env (with_branch r) (enable_after_cutoff cfg (with_branch r) c).

End Filters.

(** A symbolic-link record. *)
Definition link_record : CCRecord.t :=
  {| CCRecord.comment := ""; CCRecord.date := august; CCRecord.path := "latest";
     CCRecord.revision := "/main/1"; CCRecord.operation := "mkslink";
     CCRecord.labels := []; CCRecord.type := "symbolic link";
     CCRecord.author := "alice"; CCRecord.branchNames := ["main"];
     CCRecord.revNumber := "1"; CCRecord.svnbranch := ""; CCRecord.svnpath := "" |}.

(** The property block of a call's property set has as many bytes as the
    set's running total, which is what [Prop-content-length] gives. *)
Definition prop_length_right `{DictOrder} (call : DumpCall) : Prop :=
  match call with
  | CallRevisionHeader _ p => len (propsBlock p) = totalLen p
  | CallSvnFile _ _ p _ => len (propsBlock p) = totalLen p
  | _ => True
  end.

(** The first line of a dump file. *)
Definition dump_format_line : string :=
  "SVN-fs-dump-format-version: 2" +:+ LF +:+ LF.


(** The directories [createParentDirs] finds missing above [path], nearest
    first: it climbs until a directory is in the file set or the path has no
    directory part, with [depth] nested calls at most. *)
Fixpoint missing_dirs (depth : nat) (members : gset string) (path : string)
  : list string :=
  match depth with
  | 0 => []
  | S depth' =>
    let dir := dirname path in
    if truthy dir && negb (bool_decide (dir ∈ members))
    then dir :: missing_dirs depth' members dir
    else []
  end.

(** ** Completing the labels ([Converter.completeLabels]) *)

(** What [completeLabels] asks of ClearCase and of the cache, each answer
    being a result or the exception that comes out of [shellCmd] or of the
    file operations.  [KeyboardInterrupt], which the method lets through, is
    not among the exceptions of the model. *)
Record LabelEnv := {
  (* [self.saveConfigSpec(CCVIEW_CONFIGSPEC)] *)
  saveConfigSpec : PyExc + unit;
  (* [self.setLabelSpec(label)] *)
  setLabelSpec : string -> PyExc + unit;
  (* [self.setConfigSpec(CCVIEW_CONFIGSPEC)] *)
  setConfigSpec : PyExc + unit;
  (* [self.getLabelContent(label)] and [open]: the lines of the file that
     lists the versions under the label *)
  getLabelContent : string -> PyExc + list string;
  (* [self.getFileDetails(ccrevfile)] *)
  getFileDetails : string -> PyExc + string
}.

(** The order in which a Python set is enumerated. *)
Class SetOrder := {
  iter_set : gset string -> list string;
  iter_set_perm : forall s : gset string, iter_set s ≡ₚ elements s
}.

Definition canonical_set_order : SetOrder :=
  {| iter_set := elements;
     iter_set_perm := fun s => reflexivity (elements s) |}.

(** [l.remove(x)]: the first occurrence goes. *)
Fixpoint remove_first (x : string) (l : list string) : list string :=
  match l with
  | [] => []
  | y :: l' => if String.eqb y x then l' else y :: remove_first x l'
  end.

(** [try: m  except: pass], the state being what it was when the exception
    left [m]. *)
Definition catch_all {S} (m : M S unit) : M S unit :=
  fun s => match m s with
           | (inl _, s') => (inr tt, s')
           | r => r
           end.

Definition set_labels (ls : list string) (r : CCRecord.t) : CCRecord.t :=
  {| CCRecord.comment := CCRecord.comment r; CCRecord.date := CCRecord.date r;
     CCRecord.path := CCRecord.path r; CCRecord.revision := CCRecord.revision r;
     CCRecord.operation := CCRecord.operation r; CCRecord.labels := ls;
     CCRecord.type := CCRecord.type r; CCRecord.author := CCRecord.author r;
     CCRecord.branchNames := CCRecord.branchNames r;
     CCRecord.revNumber := CCRecord.revNumber r;
     CCRecord.svnbranch := CCRecord.svnbranch r;
     CCRecord.svnpath := CCRecord.svnpath r |}.

Section CompleteLabels.
Context `{DictOrder} `{SetOrder}.
Variable env : Env.
Variable cfg : Config.
Variable lib : ParserLib.
Variable lenv : LabelEnv.

(** [self.checklabels], enumerated: the list of labels that was given, or
    the set gathered during the replay. *)
Definition checklabels_list (c : Converter) : list string :=
  match labels c with
  | Some l => l
  | None => iter_set (checklabels c)
  end.

(** The switch of the stream for a file found under a label. *)
Definition switch_for (r : CCRecord.t) (o : WriteStream) : WriteStream :=
  match DUMP_SINCE_DATE cfg with
  | Some since =>
    if tuple_gt (CCRecord.date r) since
    then WriteStream.enable o else WriteStream.disable o
  | None => WriteStream.disable o
  end.

(** A file version under [label] that the replay has not seen: it is added
    under the tag. *)
Definition complete_file (label : string) (r : CCRecord.t) : M Converter unit :=
  exec modify (fun c => set_out (switch_for r (out c)) c);
  exec modify (setRevisionProps env r);
  exec modify dumpRevisionHeader;
  do fileSet <- getTagFileset env label;
  exec createParentDirs env recursion_limit fileSet (CCRecord.path r);
  do c <- get;
  let r := CCRecord.with_svn (CCRecord.svnbranch r)
             (FileSet.getAbsolutePath (fileSet_at fileSet c) (CCRecord.path r)) r in
  exec dumpFile env r "add" false;
  exec fileSet_add fileSet (CCRecord.path r);
  let r := if bool_decide (label ∈ CCRecord.labels r)
           then set_labels (remove_first label (CCRecord.labels r)) r else r in
  processLabels env r false.

(** The body of the loop over the lines of a label's content file; the state
    is the parser's [prevline] and the converter. *)
Definition complete_line (label line : string) : M (string * Converter) unit :=
  let ccrevfile := strip line in
  match split "@@" ccrevfile with
  | [path; revision] =>
    if String.eqb path "." then ret tt else
    let path := normpath lib path in
    do st <- get;
    if negb (bool_decide ((path, revision) ∈ ccTree st.2))
       && negb (isIgnored st.2 path)
    then
      do details <- CCHistoryParser.call (getFileDetails lenv ccrevfile);
      do ccRecord <- on_fst (CCHistoryParser.processLine lib details);
      let seen := on_snd (modify (fun c =>
                    set_ccTree ({[(path, revision)]} ∪ ccTree c) c)) in
      match ccRecord with
      | Some r =>
        if String.eqb (CCRecord.type r) "version"
        then on_snd (complete_file label r)
        else seen
      | None => seen
      end
    else ret tt
  | _ => ret tt
  end.

(** The body of the loop over the labels. *)
Definition complete_label (label : string) : M (string * Converter) unit :=
  exec CCHistoryParser.call (setLabelSpec lenv label);
  catch_all
    (do lines <- CCHistoryParser.call (getLabelContent lenv label);
     forM lines (complete_line label)).

(** [completeLabels()] *)
Definition completeLabels : M Converter unit :=
  fun c =>
    let checklabels := checklabels_list c in
    let truth := match checklabels with [] => false | _ :: _ => true end in
    let '(r, st) :=
      (exec (if truth then CCHistoryParser.call (saveConfigSpec lenv) else ret tt);
       exec forM checklabels complete_label;
       if truth then CCHistoryParser.call (setConfigSpec lenv) else ret tt)
        ("", c) in
    (r, st.2).

End CompleteLabels.

(** An operation on a state of type [S] always ends in a state related to
    the one it started in. *)
Definition stepwise {S A} (R : S -> S -> Prop) (m : M S A) : Prop :=
  forall s, R s (m s).2.

(** The bytes of the dump file are the same in both states. *)
Definition same_dump (st st' : string * Converter) : Prop :=
  file (out st'.2) = file (out st.2).

(** The bytes of the dump file in the first state are the beginning of
    those in the second. *)
Definition dump_grows (st st' : string * Converter) : Prop :=
  exists s, file (out st'.2) = file (out st.2) +:+ s.

(** Answers to run the completion of labels with: every command goes
    through, each label lists one version that the history does not have. *)
Definition example_lenv : LabelEnv :=
  {| saveConfigSpec := inr tt;
     setLabelSpec := fun _ => inr tt;
     setConfigSpec := inr tt;
     getLabelContent := fun _ => inr ["./src/old.txt@@/main/2" +:+ LF];
     getFileDetails := fun _ =>
       inr ("20090729.162424@@@src/old.txt@@@/main/2@@@checkin@@@(REL1)@@@@@@version@@@alice@@@gone since@@@"
            +:+ LF) |}.

(** The same, when the content of no label can be read. *)
Definition unreadable_lenv : LabelEnv :=
  {| saveConfigSpec := inr tt;
     setLabelSpec := fun _ => inr tt;
     setConfigSpec := inr tt;
     getLabelContent := fun _ => inl (IOError "No such file or directory");
     getFileDetails := fun _ => inr "" |}.

(** The example environment with an operator who answers no. *)
Definition refusing_env : Env :=
  {| toUTF8 := toUTF8 example_env; strftime := strftime example_env;
     md5_hexdigest := md5_hexdigest example_env; fnmatch := fnmatch example_env;
     getFile := getFile example_env; askYesNo := fun _ => false |}.

(** A directory version on [main]. *)
Definition src_dir_main : CCRecord.t :=
  {| CCRecord.comment := ""; CCRecord.date := june; CCRecord.path := "src";
     CCRecord.revision := "/main/1"; CCRecord.operation := "checkin";
     CCRecord.labels := []; CCRecord.type := "directory version";
     CCRecord.author := "alice"; CCRecord.branchNames := ["main"];
     CCRecord.revNumber := "1"; CCRecord.svnbranch := ""; CCRecord.svnpath := "" |}.

(** [c < 128] *)
Definition is_ascii (c : ascii) : bool := (N_of_ascii c <? 128)%N.

Fixpoint all_ascii (s : string) : bool :=
  match s with
  | EmptyString => true
  | String c s' => is_ascii c && all_ascii s'
  end.

(** The example environment with [ENCODING = "ascii"]: decoding raises on a
    byte above 127. *)
Definition ascii_env : Env :=
  {| toUTF8 := fun text => if all_ascii text then Some text else None;
     strftime := strftime example_env;
     md5_hexdigest := md5_hexdigest example_env; fnmatch := fnmatch example_env;
     getFile := getFile example_env; askYesNo := askYesNo example_env |}.

(** ** File sets and parent directories *)

(** A file set that holds, with every path, the directory the path is in. *)
Definition dir_closed (fs : FileSet) : Prop :=
  forall p, p ∈ members fs -> truthy (dirname p) = true ->
    dirname p ∈ members fs.

Definition tree_closed (c : Converter) : Prop :=
  forall k fs, svnTree c !! k = Some fs -> dir_closed fs.

(** A step that keeps the file sets closed. *)
Definition keeps_closed (c c' : Converter) : Prop :=
  tree_closed c -> tree_closed c'.

(** A step that leaves the file sets alone. *)
Definition same_tree (c c' : Converter) : Prop := svnTree c' = svnTree c.

(** ** [main], without a directory of config specs *)

(** The files [main] works on, each with its content when it exists. *)
Record World := {
  dump_file : option string;     (* [SVN_DUMP_FILE] *)
  state_file : option string     (* [RUN_STATE_FILE] *)
}.

(** The files [main] reads and the history it asks ClearCase for: lines or
    content, or the exception that opening or fetching raises.  A list file
    that the configuration does not name is [None]. *)
Record MainEnv := {
  CC_LABELS_FILE : option (PyExc + list string);
  CC_BRANCHES_FILE : option (PyExc + list string);
  CC_IGNORED_DIRECTORIES_FILE : option (PyExc + list string);
  SVN_AUTOPROPS_FILE : PyExc + list string;
  (* [getCCHistory(HISTORY_FILE)] and [open(HISTORY_FILE, 'rb')] *)
  HISTORY_FILE : PyExc + string
}.

(** [readList(filename)], with the opening of the file. *)
Definition readList_file (f : option (PyExc + list string))
  : PyExc + option (list string) :=
  match f with
  | None => inr None
  | Some (inl e) => inl e
  | Some (inr lines) => inr (readList (Some lines))
  end.

(** Both objects of a state of the loop, for an operation on the converter
    alone that needs the parser for its own. *)
Definition with_parser {A} (m : M (string * Converter) A) : M Converter A :=
  fun c => let '(r, st) := m ("", c) in (r, st.2).

Section Main.
Context `{DictOrder} `{SetOrder}.
Variable env : Env.
Variable cfg : Config.
Variable lib : ParserLib.
Variable lenv : LabelEnv.
Variable menv : MainEnv.

(** What [main] does with the converter once the dump file is open, when
    [CC_CONFIG_SPEC_DIR] is not set. *)
Definition main_body (continuedRun : bool) : M Converter unit :=
  exec (if continuedRun then ret tt else initializeFile env cfg);
  do content <- CCHistoryParser.call (HISTORY_FILE menv);
  do lines <- CCHistoryParser.call (rlines (open_rb content) false);
  exec with_parser
         (exec history_loop env cfg lib lines;
          on_snd (completeLabels env cfg lib lenv));
  ret tt.

(** The [try] block of [main]: its result, the files after it, and the
    converter if it was made.  The dump file is opened for appending; its
    content afterwards is what the stream wrote, exception or not. *)
Definition main_try (w : World) : (PyExc + unit) * (World * option Converter) :=
  match readList_file (CC_LABELS_FILE menv) with
  | inl e => (inl e, (w, None))
  | inr labels =>
  match readList_file (CC_BRANCHES_FILE menv) with
  | inl e => (inl e, (w, None))
  | inr branches =>
  match readList_file (CC_IGNORED_DIRECTORIES_FILE menv) with
  | inl e => (inl e, (w, None))
  | inr ignoredDirectories =>
  match SVN_AUTOPROPS_FILE menv with
  | inl e => (inl e, (w, None))
  | inr lines =>
    let autoProps := SvnAutoProps.load lines in
    let continuedRun :=
      bool_decide (is_Some (state_file w)) && bool_decide (is_Some (dump_file w)) in
    let '(w, continuedRun) :=
      if continuedRun then
        if askYesNo env "Continue previous run?" then (w, true)
        else ({| dump_file := None; state_file := None |}, false)
      else (w, false) in
    (* [with open(SVN_DUMP_FILE, 'ab') as dumpfile] *)
    let dumpfile := {| enabled := true; file := default "" (dump_file w);
                       history := [] |} in
    let converter :=
      set_out dumpfile
        (Converter_new labels branches ignoredDirectories autoProps) in
    let '(r, converter) := main_body continuedRun converter in
    (r, ({| dump_file := Some (file (out converter));
            state_file := state_file w |}, Some converter))
  end end end end.

(** [main()] *)
Definition main_plain (w : World) : (PyExc + unit) * World :=
  match main_try w with
  | (inr _, (w', _)) => (inr tt, w')
  | (inl (SystemExit _), (w', _)) => (inr tt, w')
  | (inl _, (w', None)) => (inr tt, w')
  | (inl _, (w', Some converter)) =>
    let '(r, f) := saveState converter (state_file w') in
    (r, {| dump_file := dump_file w'; state_file := f |})
  end.

End Main.

(** A run whose history is one symbolic-link record; no list file is
    configured and the file of automatic properties is empty. *)
Definition link_menv : MainEnv :=
  {| CC_LABELS_FILE := None; CC_BRANCHES_FILE := None;
     CC_IGNORED_DIRECTORIES_FILE := None; SVN_AUTOPROPS_FILE := inr [];
     HISTORY_FILE :=
       inr ("20090803.093000@@@latest@@@/main/1@@@mkslink@@@@@@@@@symbolic link@@@alice@@@a link@@@"
            +:+ LF) |}.

(** No dump file, no state file; and a dump file left by an earlier run. *)
Definition new_world : World := {| dump_file := None; state_file := None |}.

Definition old_world : World :=
  {| dump_file := Some "bytes of an earlier dump"; state_file := None |}.

(** The converters of two states are related by [effects]. *)
Definition run_effects (st st' : string * Converter) : Prop :=
  effects (fun _ => True) st.2 st'.2.

(** A dump file and a state file left by a run that failed. *)
Definition failed_world : World :=
  {| dump_file := Some "bytes of an earlier dump"; state_file := Some "" |}.

(** A run over the history of the examples' first element. *)
Definition foo_menv : MainEnv :=
  {| CC_LABELS_FILE := None; CC_BRANCHES_FILE := None;
     CC_IGNORED_DIRECTORIES_FILE := None; SVN_AUTOPROPS_FILE := inr [];
     HISTORY_FILE :=
       inr ("20090601.100000@@@foo.txt@@@/main/0@@@mkelem@@@@@@@@@version@@@alice@@@@@@"
            +:+ LF) |}.
(** * Properties *)

(** ** Strings *)

Lemma app_cons (c : ascii) (a b : string) :
  String c a +:+ b = String c (a +:+ b).
Proof. reflexivity. Qed.

Lemma app_nil_l (b : string) : "" +:+ b = b.
Proof. reflexivity. Qed.

Lemma app_empty_r (s : string) : s +:+ "" = s.
Proof. induction s as [|c s IH]; [reflexivity | by rewrite app_cons, IH]. Qed.

Lemma app_assoc_s (a b c : string) : (a +:+ b) +:+ c = a +:+ b +:+ c.
Proof.
  induction a as [|x a IH]; [reflexivity | by rewrite !app_cons, IH].
Qed.

Lemma length_app_s (a b : string) :
  String.length (a +:+ b) = String.length a + String.length b.
Proof.
  induction a as [|x a IH]; [reflexivity | rewrite app_cons; simpl; by rewrite IH].
Qed.

Lemma len_app (a b : string) : len (a +:+ b) = (len a + len b)%Z.
Proof. unfold len. rewrite length_app_s. lia. Qed.

Lemma len_nonneg (a : string) : (0 <= len a)%Z.
Proof. unfold len. lia. Qed.

Lemma truthy_false (s : string) : truthy s = false -> s = "".
Proof. destruct s; [reflexivity | discriminate]. Qed.


(** ** The monad *)

Lemma bind_modify {S B} (f : S -> S) (k : unit -> M S B) (s : S) :
  bind (modify f) k s = k tt (f s).
Proof. reflexivity. Qed.

Lemma bind_ret {S A B} (a : A) (k : A -> M S B) (s : S) :
  bind (ret a) k s = k a s.
Proof. reflexivity. Qed.

Lemma bind_raise {S A B} (e : PyExc) (k : A -> M S B) (s : S) :
  bind (raise e) k s = (inl e, s).
Proof. reflexivity. Qed.

Lemma bind_get {S B} (k : S -> M S B) (s : S) :
  bind get k s = k s s.
Proof. reflexivity. Qed.

Lemma bind_ok {S A B} (m : M S A) (k : A -> M S B) (s s' : S) (a : A) :
  m s = (inr a, s') -> bind m k s = k a s'.
Proof. unfold bind. by intros ->. Qed.

Lemma bind_err {S A B} (m : M S A) (k : A -> M S B) (s s' : S) (e : PyExc) :
  m s = (inl e, s') -> bind m k s = (inl e, s').
Proof. unfold bind. by intros ->. Qed.

Lemma bind_assoc {S A B C} (m : M S A) (k : A -> M S B) (k' : B -> M S C) (s : S) :
  bind (bind m k) k' s = bind m (fun a => bind (k a) k') s.
Proof. unfold bind. destruct (m s) as [[e|a] s']; reflexivity. Qed.

(** ** Property sets *)

Section PropertyLength.
Context `{DictOrder}.

Lemma itemsLen_perm (l1 l2 : list (string * string)) :
  l1 ≡ₚ l2 -> itemsLen l1 = itemsLen l2.
Proof.
  induction 1 as [|x l l' _ IH|x y l|l l' l'' _ IH1 _ IH2]; simpl; lia.
Qed.

Lemma consistent_new : consistent SvnProperties.new.
Proof.
  unfold consistent, SvnProperties.new; simpl.
  by rewrite map_to_list_empty.
Qed.

Lemma consistent_reset (p : SvnProperties) : consistent (SvnProperties.reset p).
Proof. apply consistent_new. Qed.

Lemma consistent_set (key value : string) (p : SvnProperties) :
  consistent p -> consistent (SvnProperties.set key value p).
Proof.
  unfold consistent, SvnProperties.set; simpl; intros Hc.
  destruct (keyset p !! key) as [old|] eqn:Hk.
  - rewrite <- (insert_delete_eq (keyset p)).
    rewrite (itemsLen_perm _ _ (map_to_list_insert _ key value
               (lookup_delete_eq (keyset p) key))).
    rewrite Hc, <- (itemsLen_perm _ _ (map_to_list_delete _ _ _ Hk)).
    simpl. lia.
  - rewrite (itemsLen_perm _ _ (map_to_list_insert _ key value Hk)).
    simpl. lia.
Qed.

Lemma consistent_runOps (ops : list PropOp) : consistent (runOps ops).
Proof.
  unfold runOps. generalize consistent_new.
  generalize SvnProperties.new as p.
  induction ops as [|op ops IH]; intros p Hp; simpl; [exact Hp|].
  apply IH. destruct op; [by apply consistent_set | apply consistent_reset].
Qed.

Lemma write_enabled (data : string) (out : WriteStream) :
  enabled out = true ->
  enabled (WriteStream.write data out) = true /\
  file (WriteStream.write data out) = file out +:+ data.
Proof. unfold WriteStream.write. intros ->. by simpl. Qed.

Lemma write_on (data fl : string) (h : list DumpCall) :
  WriteStream.write data (mkStream true fl h) = mkStream true (fl +:+ data) h.
Proof. reflexivity. Qed.

Lemma write_off (data fl : string) (h : list DumpCall) :
  WriteStream.write data (mkStream false fl h) = mkStream false fl h.
Proof. reflexivity. Qed.

Lemma writeItem_enabled (kv : string * string) (out : WriteStream) :
  enabled out = true ->
  enabled (SvnProperties.writeItem kv out) = true /\
  len (file (SvnProperties.writeItem kv out))
  = (len (file out) + SvnProperties.calcPropLength kv.1 kv.2)%Z.
Proof.
  destruct kv as [key value]; intros He.
  unfold SvnProperties.writeItem, SvnProperties.calcPropLength, WriteStream.write.
  rewrite He; simpl. split; [by destruct (truthy value); simpl; rewrite ?He|].
  destruct (truthy value) eqn:Hv; simpl; rewrite ?He; simpl.
  - rewrite !len_app. lia.
  - apply truthy_false in Hv as ->. rewrite !len_app.
    change (len "") with 0%Z. lia.
Qed.

Lemma writeItems_enabled (l : list (string * string)) (out : WriteStream) :
  enabled out = true ->
  enabled (fold_left (fun o kv => SvnProperties.writeItem kv o) l out) = true /\
  len (file (fold_left (fun o kv => SvnProperties.writeItem kv o) l out))
  = (len (file out) + itemsLen l)%Z.
Proof.
  revert out. induction l as [|kv l IH]; intros out He; simpl.
  - split; [done | lia].
  - destruct (writeItem_enabled kv out He) as [He' Hl].
    destruct (IH _ He') as [He'' Hl'']. split; [done|]. lia.
Qed.

Lemma writeContent_len (p : SvnProperties) (out : WriteStream) :
  enabled out = true -> consistent p ->
  len (file (SvnProperties.writeContent p out)) = (len (file out) + totalLen p)%Z.
Proof.
  intros He Hc. unfold SvnProperties.writeContent.
  destruct (writeItems_enabled (iteritems (keyset p)) out He) as [He' Hl].
  destruct (write_enabled ("PROPS-END" +:+ LF) _ He') as [_ ->].
  rewrite len_app, Hl, Hc, (itemsLen_perm _ _ (iteritems_perm _ (keyset p))).
  change (len ("PROPS-END" +:+ LF)) with 10%Z. lia.
Qed.

(** C3.  After any sequence of [set] and [reset] on a fresh property set,
    the number written in the [Prop-content-length] header is [totalLen],
    and [writeContent] then writes exactly [totalLen] bytes (the key and
    value lines and the closing [PROPS-END] line), whatever the order in
    which the dictionary enumerates its entries. *)
Theorem prop_content_length_exact (ops : list PropOp) (out : WriteStream) :
  enabled out = true ->
  file (SvnProperties.writeLength (runOps ops) out)
    = file out +:+ "Prop-content-length: " +:+ str (totalLen (runOps ops)) +:+ LF
  /\ len (file (SvnProperties.writeContent (runOps ops) out))
    = (len (file out) + totalLen (runOps ops))%Z.
Proof.
  intros He. split.
  - unfold SvnProperties.writeLength. by apply write_enabled.
  - apply writeContent_len; [exact He | apply consistent_runOps].
Qed.

End PropertyLength.

Example example_ops_total : totalLen (runOps example_ops) = 51%Z.
Proof. vm_compute. reflexivity. Qed.

Example example_ops_bytes :
  file (@SvnProperties.writeContent canonical_order
          (runOps example_ops) WriteStream.new)
  = "K 10" +:+ LF +:+ "svn:author" +:+ LF +:+ "V 0" +:+ LF +:+ LF +:+
    "K 7" +:+ LF +:+ "svn:log" +:+ LF +:+ "V 3" +:+ LF +:+ "fix" +:+ LF +:+
    "PROPS-END" +:+ LF.
Proof. vm_compute. reflexivity. Qed.

Lemma prop_content_length_exact_witness :
  enabled WriteStream.new = true /\
  len (file (@SvnProperties.writeContent py2_small_dict_order
               (runOps example_ops) WriteStream.new))
  = (len (file WriteStream.new) + totalLen (runOps example_ops))%Z.
Proof.
  split; [reflexivity|].
  apply (@prop_content_length_exact py2_small_dict_order
           example_ops WriteStream.new).
  reflexivity.
Defined.

(** ** Slices *)

Lemma take_drop_s (n : nat) (s : string) : take_s n s +:+ drop_s n s = s.
Proof.
  revert s; induction n as [|n IH]; intros [|c s]; try reflexivity.
  simpl. by rewrite app_cons, IH.
Qed.

Lemma drop_s_add (a b : nat) (s : string) :
  drop_s (a + b) s = drop_s b (drop_s a s).
Proof.
  revert s; induction a as [|a IH]; intros s; [reflexivity|].
  destruct s as [|c s]; simpl; [by destruct b | apply IH].
Qed.

Lemma drop_s_length_take (n : nat) (s : string) :
  drop_s (String.length (take_s n s)) s = drop_s n s.
Proof.
  revert s; induction n as [|n IH]; intros [|c s]; try reflexivity.
  simpl. apply IH.
Qed.

Lemma take_s_empty (n : nat) (s : string) : take_s (S n) s = "" -> s = "".
Proof. destruct s; [reflexivity | discriminate]. Qed.

Lemma length_drop_s_lt (n : nat) (s : string) :
  s <> "" -> String.length (drop_s (S n) s) < String.length s.
Proof.
  destruct s as [|c s]; [done|intros _]. simpl.
  revert s; induction n as [|n IH]; intros s; simpl; [lia|].
  destruct s as [|c' s]; simpl; [lia|]. specialize (IH s). lia.
Qed.

Lemma truthy_true (s : string) : truthy s = true -> s <> "".
Proof. by destruct s. Qed.

(** ** File nodes *)

Section FileNodes.
Context `{DictOrder}.
Variable env : Env.

Lemma read_spec (n : nat) (f : FileObj) :
  (read (S n) f).1 +:+ unread (read (S n) f).2 = unread f /\
  ((read (S n) f).1 = "" -> unread f = "") /\
  ((read (S n) f).1 <> "" ->
     String.length (unread (read (S n) f).2) < String.length (unread f)).
Proof.
  unfold read, unread; cbn [fst snd pos data].
  rewrite drop_s_add, drop_s_length_take. split; [apply take_drop_s|].
  split; [apply take_s_empty|]. intros Hne. apply length_drop_s_lt.
  intros Heq. apply Hne. by rewrite Heq.
Qed.

Lemma checksumLoop_spec (fuel : nat) (f : FileObj) (md : string) (n : Z) :
  String.length (unread f) < fuel ->
  checksumLoop fuel f md n = Some ((n + len (unread f))%Z, md +:+ unread f).
Proof.
  revert f md n. induction fuel as [|fuel IH]; intros f md n Hlt; [lia|].
  cbn [checksumLoop]. change FILEREAD_CHUNKSIZE with (S 511).
  destruct (read_spec 511 f) as (Happ & Hemp & Hdec).
  destruct (read (S 511) f) as [s f'] eqn:Hr; cbn [fst snd] in *.
  destruct (truthy s) eqn:Hs.
  - rewrite IH by (specialize (Hdec (truthy_true _ Hs)); lia).
    rewrite <- Happ, len_app, app_assoc_s. f_equal. f_equal. lia.
  - apply truthy_false in Hs. rewrite (Hemp Hs).
    change (len "") with 0%Z. rewrite app_empty_r. do 2 f_equal. lia.
Qed.

(** The chunked pass measures the whole file and digests it in order. *)
Lemma calculateLengthAndChecksum_spec (content : string) :
  calculateLengthAndChecksum env content
  = Some (len content, md5_hexdigest env content).
Proof.
  unfold calculateLengthAndChecksum.
  rewrite checksumLoop_spec by (unfold unread; simpl; lia).
  unfold unread; simpl. reflexivity.
Qed.

Lemma writeContentLoop_spec (fuel : nat) (f : FileObj) (out : WriteStream) :
  String.length (unread f) < fuel ->
  writeContentLoop fuel f out = Some (WriteStream.write (unread f) out).
Proof.
  revert f out. induction fuel as [|fuel IH]; intros f out Hlt; [lia|].
  cbn [writeContentLoop]. change FILEREAD_CHUNKSIZE with (S 511).
  destruct (read_spec 511 f) as (Happ & Hemp & Hdec).
  destruct (read (S 511) f) as [s f'] eqn:Hr; cbn [fst snd] in *.
  destruct (truthy s) eqn:Hs.
  - rewrite IH by (specialize (Hdec (truthy_true _ Hs)); lia).
    rewrite <- Happ. unfold WriteStream.write.
    destruct out as [[] fl h]; simpl; [|reflexivity]. by rewrite app_assoc_s.
  - apply truthy_false in Hs. rewrite (Hemp Hs). unfold WriteStream.write.
    destruct out as [[] fl h]; simpl; [|reflexivity]. by rewrite app_empty_r.
Qed.

Lemma writeContent_spec (content : string) (out : WriteStream) :
  writeContent content out = (inr tt, WriteStream.write content out).
Proof.
  unfold writeContent.
  rewrite writeContentLoop_spec by (unfold unread; simpl; lia).
  reflexivity.
Qed.

Lemma writeItem_bytes (kv : string * string) :
  exists b, forall out, enabled out = true ->
    SvnProperties.writeItem kv out = mkStream true (file out +:+ b) (history out).
Proof.
  destruct kv as [key value].
  exists ("K " +:+ str (len key) +:+ LF +:+ key +:+ LF +:+
          "V " +:+ str (len value) +:+ LF +:+ value +:+ LF).
  intros [e fl h] He; simpl in He; subst e.
  unfold SvnProperties.writeItem, WriteStream.write; simpl.
  destruct (truthy value) eqn:Hv; simpl.
  - by rewrite !app_assoc_s.
  - apply truthy_false in Hv as ->. by rewrite !app_assoc_s.
Qed.

Lemma writeItems_bytes (l : list (string * string)) :
  exists b, forall out, enabled out = true ->
    fold_left (fun o kv => SvnProperties.writeItem kv o) l out
    = mkStream true (file out +:+ b) (history out).
Proof.
  induction l as [|kv l [b Hb]].
  - exists "". intros [e fl h] He; simpl in *; subst. by rewrite app_empty_r.
  - destruct (writeItem_bytes kv) as [b0 Hb0]. exists (b0 +:+ b).
    intros out He. simpl. rewrite (Hb0 out He), Hb by reflexivity.
    simpl. by rewrite app_assoc_s.
Qed.

Lemma writeContent_bytes (p : SvnProperties) (out : WriteStream) :
  enabled out = true ->
  SvnProperties.writeContent p out
  = mkStream true (file out +:+ propsBlock p) (history out).
Proof.
  intros He. unfold propsBlock, SvnProperties.writeContent.
  destruct (writeItems_bytes (iteritems (keyset p))) as [b Hb].
  rewrite (Hb out He), (Hb WriteStream.new) by reflexivity.
  unfold WriteStream.write; simpl. by rewrite app_assoc_s.
Qed.

(** C4.  A file node written by [dumpSvnFile]: the chunked pass over the
    content measures its full byte count, that count is the
    [Text-content-length], the [Content-length] is that count plus the
    property set's [totalLen], and the node's body is the property block
    (of [totalLen] bytes when the set was built by [set] and [reset])
    followed by the content itself, for content of any size. *)
Theorem content_length_is_sum (action path p' : string) (props : SvnProperties)
  (content : string) (out : WriteStream) :
  enabled out = true ->
  toUTF8 env (replace_char "\" "/" path) = Some p' ->
  calculateLengthAndChecksum env content
    = Some (len content, md5_hexdigest env content) /\
  (consistent props -> len (propsBlock props) = totalLen props) /\
  exists out',
    dumpSvnFile env action path props content out = (inr tt, out') /\
    file out' =
      file out +:+ "Node-path: " +:+ p' +:+ LF +:+
      "Node-kind: file" +:+ LF +:+
      "Node-action: " +:+ action +:+ LF +:+
      "Prop-content-length: " +:+ str (totalLen props) +:+ LF +:+
      "Text-content-length: " +:+ str (len content) +:+ LF +:+
      "Text-content-md5: " +:+ md5_hexdigest env content +:+ LF +:+
      "Content-length: " +:+ str (len content + totalLen props) +:+ LF +:+
      LF +:+ propsBlock props +:+ content +:+ LF +:+ LF.
Proof.
  intros He Hp. split; [apply calculateLengthAndChecksum_spec|]. split.
  { intros Hc. unfold propsBlock.
    rewrite (writeContent_len props WriteStream.new) by done.
    change (len (file WriteStream.new)) with 0%Z. lia. }
  unfold dumpSvnFile, writeNodePath, writeNodeKind,
    writeNodeAction, writeTextContentLength, writeContentLength, out_write.
  rewrite Hp, calculateLengthAndChecksum_spec.
  rewrite !bind_modify. unfold need. rewrite bind_ret. cbn [fst snd].
  rewrite !bind_modify.
  rewrite (bind_ok _ _ _ _ _ (writeContent_spec content _)).
  destruct out as [e fl h]; cbn [enabled] in He; subst e.
  unfold SvnProperties.writeLength, WriteStream.log. cbn [enabled file history].
  rewrite !write_on, writeContent_bytes by reflexivity.
  cbn [enabled file history]. unfold modify. rewrite !write_on.
  eexists; split; [reflexivity|]. cbn [file]. by rewrite !app_assoc_s.
Qed.

End FileNodes.

(** ** The reverse line reader *)

Example rblocks_hello :
  rblocks (open_rb "hello world") 3 = inr ["ld"; "wor"; "lo "; "hel"].
Proof. vm_compute. reflexivity. Qed.

Example splitlines_mixed :
  splitlines false ("a" +:+ LF +:+ LF +:+ "b" +:+ CR +:+ LF +:+ "c" +:+ CR)
  = ["a"; ""; "b"; "c"].
Proof. vm_compute. reflexivity. Qed.

Example rlines_small :
  rlines (open_rb ("one" +:+ LF +:+ "two" +:+ LF +:+ LF +:+ "four")) false
  = inr ["four"; ""; "two"; "one"].
Proof. vm_compute. reflexivity. Qed.

Example rlines_boundary :
  rlines (open_rb blank_line_at_boundary) false
  = inr ["b"; string_repeat 4095 "a"].
Proof. vm_compute. reflexivity. Qed.

Example forward_boundary :
  forward_lines blank_line_at_boundary = [string_repeat 4095 "a"; ""; "b"].
Proof. vm_compute. reflexivity. Qed.

Example rlines_empty_file : rlines (open_rb "") false = inr [""].
Proof. vm_compute. reflexivity. Qed.

Lemma take_s_all (s : string) : take_s (String.length s) s = s.
Proof. induction s as [|c s IH]; simpl; [reflexivity | by rewrite IH]. Qed.

Lemma splitlines_go_started (keepends : bool) (l s : string) :
  splitlines_go keepends (Some l) s <> [].
Proof.
  revert l; induction s as [|c s IH]; intros l; simpl; [done|].
  destruct (Ascii.eqb c "010"); [done|].
  destruct (Ascii.eqb c "013"); [|apply IH].
  destruct s as [|c' s]; [done|].
  by destruct c' as [[] [] [] [] [] [] [] []].
Qed.

Lemma splitlines_nonempty (keepends : bool) (s : string) :
  s <> "" -> splitlines keepends s <> [].
Proof.
  destruct s as [|c s]; [done|intros _]. unfold splitlines; simpl.
  destruct (Ascii.eqb c "010"); [done|].
  destruct (Ascii.eqb c "013"); [|apply splitlines_go_started].
  destruct s as [|c' s]; [done|].
  by destruct c' as [[] [] [] [] [] [] [] []].
Qed.

Lemma rblocks_single_block (content : string) :
  String.length content < 4096 ->
  rblocks (open_rb content) 4096 = inr [content].
Proof.
  intros Hlt. unfold rblocks, open_rb, seek_end, read.
  cbn [mode data pos mode_has_b negb Ascii.eqb orb Bool.eqb].
  change (Nat.eqb 4096 0) with false. cbv iota.
  rewrite Nat.div_small, Nat.mod_small by exact Hlt.
  rewrite Nat.sub_diag. cbn [seq rev rblocks_loop drop_s].
  by rewrite take_s_all.
Qed.

(** Within one block the reader is right: a non-empty file shorter than the
    block size comes out as its lines, last first. *)
Theorem rlines_single_block (content : string) :
  content <> "" -> String.length content < 4096 ->
  rlines (open_rb content) false = inr (rev (forward_lines content)).
Proof.
  intros Hne Hlt. unfold rlines. rewrite rblocks_single_block by exact Hlt.
  f_equal. cbn [rlines_loop]. unfold rlines_step, forward_lines.
  rewrite app_empty_r.
  pose proof (splitlines_nonempty false content Hne) as Hl.
  destruct (splitlines false content) as [|x l] eqn:Hs; [done|].
  symmetry. apply app_removelast_last.
  intros Hr. apply (f_equal (@length string)) in Hr.
  rewrite length_rev in Hr. discriminate.
Qed.

(** C5, at an input where it fails.  An empty line whose line feed opens a
    block, right after a line feed that closes the block before it, is
    yielded by forward line splitting and not by [rlines]. *)
Theorem rlines_loses_blank_line :
  rlines (open_rb blank_line_at_boundary) false
    = inr ["b"; string_repeat 4095 "a"]
  /\ rev (forward_lines blank_line_at_boundary)
    = ["b"; ""; string_repeat 4095 "a"].
Proof. split; vm_compute; reflexivity. Qed.

(** ** The replay engine: filtering *)

Section Replay.
Context `{DictOrder}.
Variable env : Env.
Variable cfg : Config.

(** C7.  A record whose path is the repository root, whose branch is not in
    the branch allow-list, or whose path starts with an ignored directory, is
    dropped: [process] returns normally and the converter is exactly as it
    was (file sets, visited set, revision counter, output stream). *)
Theorem filtered_record_is_dropped (r : CCRecord.t) (c : Converter) :
  CCRecord.path r = "." \/
  (exists bs, branches c = Some bs /\ svnbranch_of (CCRecord.branchNames r) ∉ bs) \/
  isIgnored c (CCRecord.path r) = true ->
  process env cfg r c = (inr tt, c).
Proof.
  intros Hf. unfold process.
  destruct (String.eqb (CCRecord.path r) ".") eqn:Hdot; [reflexivity|].
  rewrite bind_get.
  destruct Hf as [Hp | [(bs & Hbs & Hnot) | Hig]].
  - rewrite Hp in Hdot. discriminate.
  - rewrite Hbs. rewrite bool_decide_eq_false_2 by exact Hnot. reflexivity.
  - destruct (match branches c with
              | Some bs => negb (bool_decide (svnbranch_of (CCRecord.branchNames r) ∈ bs))
              | None => false
              end); [reflexivity|].
    cbn [CCRecord.path CCRecord.with_svn]. rewrite Hig. reflexivity.
Qed.

(** ** The replay engine: revision numbers *)

Lemma dump_disabled (p : SvnProperties) (o : WriteStream) :
  enabled o = false -> SvnProperties.dump p o = o.
Proof.
  destruct o as [e fl h]; cbn [enabled]; intros ->.
  unfold SvnProperties.dump, SvnProperties.writeLength, SvnProperties.writeContent.
  rewrite !write_off.
  induction (iteritems (keyset p)) as [|[k v] l IH]; cbn [fold_left].
  - apply write_off.
  - unfold SvnProperties.writeItem at 2. rewrite !write_off.
    destruct (truthy v); rewrite ?write_off; exact IH.
Qed.

Lemma dumpRevisionHeader_counter (c : Converter) :
  svnRevNum (dumpRevisionHeader c) = (svnRevNum c + 1)%Z.
Proof. reflexivity. Qed.

Lemma dumpRevisionHeader_disabled (c : Converter) :
  enabled (out c) = false ->
  file (out (dumpRevisionHeader c)) = file (out c).
Proof.
  intros He.
  destruct c as [ap ep lb cl br ig [e fl h] tr cc n rp].
  cbn [out enabled] in He; subst e.
  unfold dumpRevisionHeader, set_out, set_svnRevNum, WriteStream.log.
  cbn [out svnRevNum revProps enabled file history autoProps emptyProps labels
       checklabels branches ignoredDirectories svnTree ccTree].
  rewrite write_off, dump_disabled by reflexivity. reflexivity.
Qed.

End Replay.

(** C10.  [dumpRevisionHeader] adds one to the revision counter on every
    call, also when the stream is disabled and nothing is written.  So with
    a cutoff date the suppressed records use up revision numbers: in the run
    below the dump file holds the format line and then, as its first
    revision, number 3, and the counter ends at 4. *)
Theorem revision_numbers_are_consumed_when_suppressed `{DictOrder}
  (c : Converter) :
  svnRevNum (dumpRevisionHeader c) = (svnRevNum c + 1)%Z
  /\ (enabled (out c) = false ->
      file (out (dumpRevisionHeader c)) = file (out c))
  /\ (let final :=
        (@run canonical_order example_env cutoff_cfg
           [foo_main_0; foo_main_1] fresh_converter).2 in
      startswith (file (out final))
        ("SVN-fs-dump-format-version: 2" +:+ LF +:+ LF +:+
         "Revision-number: 3" +:+ LF) = true
      /\ svnRevNum final = 4%Z
      /\ map call_summary (history (out final))
         = ["revision 1"; "dir branches/"; "dir tags/";
            "revision 2"; "dir branches/main"; "file add branches/main/foo.txt";
            "revision 3"; "file change branches/main/foo.txt"]).
Proof.
  split; [apply dumpRevisionHeader_counter|].
  split; [apply dumpRevisionHeader_disabled|].
  vm_compute. repeat split; reflexivity.
Qed.


(** ** Saving the run state *)

(** C8, as the code has it.  [saveState] opens the recovery file, which
    empties it, and raises on its first [write]: the revision counter is an
    integer and is added to a string.  Nothing of the run state is saved, for
    any state of the converter. *)
Theorem saveState_raises `{DictOrder} (c : Converter) (f : StateFile) :
  saveState c f
  = (inl (TypeError "cannot concatenate 'str' and 'int' objects"), Some "").
Proof. reflexivity. Qed.

(** ** Automatic properties *)

Lemma find_first {A} (f : A -> bool) (l : list A) (x : A) :
  List.find f l = Some x ->
  exists l1 l2, l = l1 ++ x :: l2 /\ f x = true /\
                Forall (fun y => f y = false) l1.
Proof.
  induction l as [|y l IH]; simpl; [discriminate|].
  destruct (f y) eqn:Hy.
  - intros [= ->]. exists [], l. by repeat split.
  - intros Hf. destruct (IH Hf) as (l1 & l2 & -> & Hx & Hall).
    exists (y :: l1), l2. repeat split; [done|]. by constructor.
Qed.

Lemma find_nowhere {A} (f : A -> bool) (l : list A) :
  List.find f l = None -> Forall (fun y => f y = false) l.
Proof.
  induction l as [|y l IH]; simpl; [constructor|].
  destruct (f y) eqn:Hy; [discriminate|]. intros Hf. constructor; auto.
Qed.

Lemma load_line_lookup (m : gmap string SvnProperties) (line pattern : string) :
  SvnAutoProps.load_line m line !! pattern
  = match SvnAutoProps.line_def line with
    | Some (p, s) =>
      if String.eqb p pattern then Some (SvnAutoProps.parseProps s)
      else m !! pattern
    | None => m !! pattern
    end.
Proof.
  unfold SvnAutoProps.load_line.
  destruct (SvnAutoProps.line_def line) as [[p s]|]; [|reflexivity].
  destruct (String.eqb_spec p pattern) as [->|Hne].
  - apply lookup_insert_eq.
  - by apply lookup_insert_ne.
Qed.

Lemma load_from_lookup (lines : list string) (m : gmap string SvnProperties)
  (pattern : string) :
  fold_left SvnAutoProps.load_line lines m !! pattern
  = match SvnAutoProps.last_def lines pattern with
    | Some s => Some (SvnAutoProps.parseProps s)
    | None => m !! pattern
    end.
Proof.
  revert m. induction lines as [|line lines IH]; intros m; [reflexivity|].
  cbn [fold_left SvnAutoProps.last_def]. rewrite IH.
  destruct (SvnAutoProps.last_def lines pattern); [reflexivity|].
  rewrite load_line_lookup.
  destruct (SvnAutoProps.line_def line) as [[p s]|]; [|reflexivity].
  by destruct (String.eqb p pattern).
Qed.

(** What [load] holds for a pattern: the properties of the last line that
    gives it. *)
Lemma load_lookup (lines : list string) (pattern : string) :
  SvnAutoProps.load lines !! pattern
  = SvnAutoProps.parseProps <$> SvnAutoProps.last_def lines pattern.
Proof.
  unfold SvnAutoProps.load. rewrite load_from_lookup, lookup_empty.
  by destruct (SvnAutoProps.last_def lines pattern).
Qed.

(** C9, as the code has it.  [getProps] returns the property set of a
    pattern that matches the base name: the first such pattern in the order
    in which the dictionary enumerates its keys, with the properties of the
    last line of the file that gives this pattern.  When no pattern of the
    dictionary matches it returns [EmptyProps], which has no property. *)
Theorem getProps_first_in_dict_order `{DictOrder} (env : Env)
  (lines : list string) (filepath : string) :
  match SvnAutoProps.getProps env (SvnAutoProps.load lines) filepath with
  | AutoRef pattern =>
    fnmatch env (basename filepath) pattern = true
    /\ (exists before props after,
          iteritems (SvnAutoProps.load lines) = before ++ (pattern, props) :: after
          /\ Forall (fun kv => fnmatch env (basename filepath) kv.1 = false) before)
    /\ (exists s, SvnAutoProps.last_def lines pattern = Some s
          /\ SvnAutoProps.load lines !! pattern = Some (SvnAutoProps.parseProps s))
  | EmptyRef =>
    (forall pattern props,
       SvnAutoProps.load lines !! pattern = Some props ->
       fnmatch env (basename filepath) pattern = false)
    /\ keyset EmptyProps = ∅ /\ propsBlock EmptyProps = "PROPS-END" +:+ LF
  end.
Proof.
  unfold SvnAutoProps.getProps.
  destruct (List.find _ _) as [[pattern props]|] eqn:Hfind.
  - destruct (find_first _ _ _ Hfind) as (l1 & l2 & Hl & Hm & Hall).
    split; [exact Hm|]. split; [by exists l1, props, l2|].
    assert ((pattern, props) ∈ map_to_list (SvnAutoProps.load lines)) as Hin.
    { rewrite <- (iteritems_perm _ (SvnAutoProps.load lines)), Hl.
      apply elem_of_app. right. by left. }
    apply elem_of_map_to_list in Hin. pose proof Hin as Hin'.
    rewrite load_lookup in Hin'.
    destruct (SvnAutoProps.last_def lines pattern) as [s|]; [|discriminate].
    exists s. split; [reflexivity|]. rewrite Hin. simpl in Hin'. congruence.
  - split; [|split].
    + intros pattern props Hl. apply find_nowhere in Hfind.
      rewrite Forall_forall in Hfind.
      apply (Hfind (pattern, props)).
      rewrite (iteritems_perm _ (SvnAutoProps.load lines)).
      by apply elem_of_map_to_list.
    + reflexivity.
    + unfold propsBlock, SvnProperties.writeContent, EmptyProps, SvnProperties.new.
      cbn [keyset].
      pose proof (iteritems_perm _ (∅ : gmap string string)) as Hp.
      rewrite map_to_list_empty in Hp. apply Permutation_nil_r in Hp.
      rewrite Hp. reflexivity.
Qed.

(** C9, as the claim states it, fails: of two patterns that match, the one
    that comes first in the file need not be the one whose properties are
    returned.  With the enumeration order of CPython 2 the dictionary below
    gives ["*.txt"], the later line, before ["README*"]. *)
Lemma getProps_not_first_in_file :
  SvnAutoProps.first_match_in_file example_env two_patterns "docs/README.txt"
    = Some ("README*", "svn:keywords=Id")
  /\ py2_slot "*.txt" = 5%Z /\ py2_slot "README*" = 7%Z
  /\ @SvnAutoProps.getProps py2_small_dict_order example_env
       (SvnAutoProps.load two_patterns) "docs/README.txt" = AutoRef "*.txt".
Proof. vm_compute. repeat split; reflexivity. Qed.

(** ** Effects of the serializer on the stream *)

Section StreamEffects.
Context `{DictOrder}.
Variable env : Env.

Lemma quiet_write (s : string) : quiet (WriteStream.write s).
Proof. intros [[] fl h]; by split. Qed.

Lemma quiet_id : quiet (fun o => o).
Proof. by intros o. Qed.

Lemma quiet_comp (f g : WriteStream -> WriteStream) :
  quiet f -> quiet g -> quiet (fun o => g (f o)).
Proof.
  intros Hf Hg o. destruct (Hf o) as [<- <-]. apply Hg.
Qed.

Lemma quiet_writeItem (kv : string * string) : quiet (SvnProperties.writeItem kv).
Proof.
  destruct kv as [k v]. intros [[] fl h]; unfold SvnProperties.writeItem;
    rewrite ?write_on, ?write_off; destruct (truthy v);
    rewrite ?write_on, ?write_off; by split.
Qed.

Lemma quiet_writeItems (l : list (string * string)) :
  quiet (fold_left (fun o kv => SvnProperties.writeItem kv o) l).
Proof.
  induction l as [|kv l IH]; [apply quiet_id|].
  intros o. cbn [fold_left]. destruct (quiet_writeItem kv o) as [<- <-]. apply IH.
Qed.

Lemma quiet_writeContent (p : SvnProperties) : quiet (SvnProperties.writeContent p).
Proof.
  unfold SvnProperties.writeContent.
  apply (quiet_comp _ _ (quiet_writeItems _) (quiet_write _)).
Qed.

Lemma quiet_writeLength (p : SvnProperties) : quiet (SvnProperties.writeLength p).
Proof. apply quiet_write. Qed.

Lemma quiet_dump (p : SvnProperties) : quiet (SvnProperties.dump p).
Proof.
  unfold SvnProperties.dump.
  apply (quiet_comp _ _); [|apply quiet_write].
  apply (quiet_comp _ _); [|apply quiet_writeContent].
  apply (quiet_comp _ _); [|apply quiet_write].
  apply (quiet_comp _ _); [|apply quiet_write].
  apply quiet_writeLength.
Qed.

Lemma quietM_ret {A} (a : A) : quietM (ret a).
Proof. by intros o. Qed.

Lemma quietM_raise {A} (e : PyExc) : quietM (@raise _ A e).
Proof. by intros o. Qed.

Lemma quietM_modify (f : WriteStream -> WriteStream) : quiet f -> quietM (modify f).
Proof. intros Hf o. apply Hf. Qed.

Lemma quietM_bind {A B} (m : M WriteStream A) (k : A -> M WriteStream B) :
  quietM m -> (forall a, quietM (k a)) -> quietM (bind m k).
Proof.
  intros Hm Hk o. unfold bind. specialize (Hm o).
  destruct (m o) as [[e|a] o']; cbn [snd] in *; [exact Hm|].
  destruct (Hk a o') as [-> ->]. exact Hm.
Qed.

Lemma quietM_out_write (s : string) : quietM (out_write s).
Proof. apply quietM_modify, quiet_write. Qed.

Lemma quietM_writeNodePath (p : string) : quietM (writeNodePath env p).
Proof.
  unfold writeNodePath. destruct (toUTF8 env _);
    [apply quietM_out_write | apply quietM_raise].
Qed.

Lemma quietM_writeContent (content : string) : quietM (writeContent content).
Proof.
  intros o. rewrite writeContent_spec. apply quiet_write.
Qed.

Lemma quietM_need {A} (x : option A) : quietM (need x).
Proof. destruct x; [apply quietM_ret | apply quietM_raise]. Qed.

Lemma logs_intro {A} (m : M WriteStream A) (call : DumpCall) :
  quietM m -> logs (exec modify (WriteStream.log call); m) call.
Proof.
  intros Hm o. rewrite bind_modify.
  destruct (Hm (WriteStream.log call o)) as [-> ->]. by split.
Qed.

Ltac quiet_steps :=
  repeat lazymatch goal with
  | |- quietM (bind _ _) => apply quietM_bind; [|intros ?]
  | |- quietM (out_write _) => apply quietM_out_write
  | |- quietM (writeNodePath _ _) => apply quietM_writeNodePath
  | |- quietM (writeContent _) => apply quietM_writeContent
  | |- quietM (need _) => apply quietM_need
  | |- quietM (ret _) => apply quietM_ret
  | |- quietM (raise _) => apply quietM_raise
  | |- quietM (modify _) => apply quietM_modify
  | |- quietM (match toUTF8 ?e ?x with _ => _ end) => destruct (toUTF8 e x)
  | |- quiet (SvnProperties.writeLength _) => apply quiet_writeLength
  | |- quiet (SvnProperties.writeContent _) => apply quiet_writeContent
  | |- quiet (WriteStream.write _) => apply quiet_write
  end.

Lemma logs_dumpSvnDir (p : string) : logs (dumpSvnDir env p) (CallSvnDir p).
Proof.
  apply logs_intro. unfold writeNodeKind, writeNodeAction. quiet_steps.
Qed.

Lemma logs_dumpSvnCopy (kind from : string) (rev : Z) (target : string) :
  logs (dumpSvnCopy env kind from rev target) (CallSvnCopy kind from rev target).
Proof.
  apply logs_intro. unfold writeNodeKind, writeNodeAction. quiet_steps.
Qed.

Lemma logs_dumpSvnFile (action path : string) (props : SvnProperties)
  (content : string) :
  logs (dumpSvnFile env action path props content)
       (CallSvnFile action path props content).
Proof.
  apply logs_intro.
  unfold writeNodeKind, writeNodeAction, writeTextContentLength,
    writeContentLength.
  quiet_steps.
Qed.

End StreamEffects.

(** ** Effects of the converter's methods *)

Section ConverterEffects.
Context `{DictOrder}.
Variable env : Env.
Variable cfg : Config.

Lemma lift_out_eq {A} (m : M WriteStream A) (c : Converter) :
  lift_out m c = ((m (out c)).1, set_out (m (out c)).2 c).
Proof. unfold lift_out. by destruct (m (out c)). Qed.

Section Pres.
Context (R : Converter -> Converter -> Prop) `{!Reflexive R} `{!Transitive R}.

Lemma pres_ret {A} (a : A) : pres R (ret a).
Proof. intros c. reflexivity. Qed.

Lemma pres_raise {A} (e : PyExc) : pres R (@raise _ A e).
Proof. intros c. reflexivity. Qed.

Lemma pres_get : pres R get.
Proof. intros c. reflexivity. Qed.

Lemma pres_modify (f : Converter -> Converter) :
  (forall c, R c (f c)) -> pres R (modify f).
Proof. intros Hf c. apply Hf. Qed.

Lemma pres_bind {A B} (m : M Converter A) (k : A -> M Converter B) :
  pres R m -> (forall a, pres R (k a)) -> pres R (bind m k).
Proof.
  intros Hm Hk c. unfold bind. specialize (Hm c).
  destruct (m c) as [[e|a] c']; cbn [snd] in *; [exact Hm|].
  etrans; [exact Hm | apply Hk].
Qed.

Lemma pres_pure {A} (f : Converter -> PyExc + A) : pres R (fun c => (f c, c)).
Proof. intros c. reflexivity. Qed.

Lemma pres_forM {A} (l : list A) (body : A -> M Converter unit) :
  (forall x, pres R (body x)) -> pres R (forM l body).
Proof.
  intros Hb. induction l as [|x l IH]; [apply pres_ret|].
  cbn [forM]. apply pres_bind; [apply Hb | intros _; exact IH].
Qed.

End Pres.

#[local] Instance frame_refl : Reflexive frame.
Proof.
  intros c. repeat split; [done|]. exists []. by rewrite app_nil_r.
Qed.

#[local] Instance frame_trans : Transitive frame.
Proof.
  intros c1 c2 c3 (Hn & Hl & Hp & Ht & Hk & l1 & Hh1 & Hd1)
    (Hn' & Hl' & Hp' & Ht' & Hk' & l2 & Hh2 & Hd2).
  split; [congruence|]. split; [congruence|]. split; [congruence|].
  split; [intros l; by rewrite Ht', Ht|]. split; [auto|].
  exists (l1 ++ l2). rewrite Hh2, Hh1, app_assoc. split; [done|].
  by apply Forall_app.
Qed.

#[local] Instance adds_calls_refl (P : DumpCall -> Prop) : Reflexive (adds_calls P).
Proof. intros c. exists []. by rewrite app_nil_r. Qed.

#[local] Instance adds_calls_trans (P : DumpCall -> Prop) :
  Transitive (adds_calls P).
Proof.
  intros c1 c2 c3 (l1 & Hh1 & Hd1) (l2 & Hh2 & Hd2).
  exists (l1 ++ l2). rewrite Hh2, Hh1, app_assoc. split; [done|].
  by apply Forall_app.
Qed.

Lemma adds_calls_weaken (P Q : DumpCall -> Prop) (c c' : Converter) :
  (forall call, P call -> Q call) -> adds_calls P c c' -> adds_calls Q c c'.
Proof.
  intros HPQ (l & Hh & Hl). exists l. split; [done|].
  eapply Forall_impl; eauto.
Qed.

Lemma frame_adds_dirs (c c' : Converter) :
  frame c c' -> adds_calls (fun call => is_dir_call call = true) c c'.
Proof. by intros (_ & _ & _ & _ & _ & Hh). Qed.

(** A serializer call, lifted: one more call in the history. *)
Lemma lift_out_logs {A} (m : M WriteStream A) (call : DumpCall) (c : Converter) :
  logs m call ->
  exists o', (lift_out m c).2 = set_out o' c
             /\ history o' = history (out c) ++ [call]
             /\ enabled o' = enabled (out c).
Proof.
  intros Hm. rewrite lift_out_eq. exists (m (out c)).2.
  split; [reflexivity | apply Hm].
Qed.

Lemma frame_lift_dir (p : string) : pres frame (lift_out (dumpSvnDir env p)).
Proof.
  intros c. destruct (lift_out_logs _ _ c (logs_dumpSvnDir env p))
    as (o' & -> & Hh & _).
  repeat split; [done|].
  exists [CallSvnDir p]. split; [exact Hh|]. by repeat constructor.
Qed.

Lemma tag_root_alter_add (c : Converter) (key p l : string) :
  tag_root (set_svnTree (alter (FileSet.add p) key (svnTree c)) c) l
  = tag_root c l.
Proof.
  unfold tag_root; cbn [svnTree set_svnTree]. rewrite lookup_alter.
  case_decide as Hk; [subst|reflexivity]. by destruct (svnTree c !! l).
Qed.

Lemma frame_fileSet_add (key p : string) : pres frame (fileSet_add key p).
Proof.
  intros c. unfold fileSet_add, modify; cbn [snd].
  split; [reflexivity|]. split; [reflexivity|]. split; [reflexivity|].
  split; [apply tag_root_alter_add|]. split.
  { intros k. cbn [svnTree set_svnTree]. rewrite lookup_alter.
    case_decide; [subst|done]. intros [fs ->]. by eexists. }
  exists []. by rewrite app_nil_r.
Qed.

Lemma frame_createParentDirs (depth : nat) (key path : string) :
  pres frame (createParentDirs env depth key path).
Proof.
  revert path. induction depth as [|depth IH]; intros path; cbn [createParentDirs].
  - apply pres_raise; apply _.
  - apply pres_bind; try apply _; [apply pres_get; apply _|]. intros c0.
    destruct (_ && _); [|apply pres_ret; apply _].
    apply pres_bind; try apply _; [apply IH|]. intros _.
    apply pres_bind; try apply _; [apply pres_get; apply _|]. intros c1.
    apply pres_bind; try apply _; [apply frame_lift_dir|]. intros _.
    apply frame_fileSet_add.
Qed.

Lemma frame_getTagFileset (label : string) (c : Converter) :
  frame c (getTagFileset env label c).2
  /\ (forall k, (getTagFileset env label c).1 = inr k ->
        k = label /\ is_Some (svnTree (getTagFileset env label c).2 !! label)).
Proof.
  unfold getTagFileset. rewrite bind_get.
  destruct (svnTree c !! label) as [fs|] eqn:Hl.
  - split; [reflexivity|]. intros k [= <-]. split; [reflexivity|].
    cbn [snd ret]. by rewrite Hl.
  - rewrite bind_modify.
    set (c1 := set_svnTree _ c).
    assert (frame c c1) as Hf1.
    { repeat split.
      - intros l. unfold tag_root, c1; cbn [svnTree set_svnTree].
        destruct (decide (label = l)) as [->|Hne].
        + by rewrite lookup_insert_eq, Hl.
        + by rewrite lookup_insert_ne.
      - intros k Hk. unfold c1; cbn [svnTree set_svnTree].
        destruct (decide (label = k)) as [->|Hne].
        + rewrite lookup_insert_eq. by eexists.
        + by rewrite lookup_insert_ne.
      - exists []. by rewrite app_nil_r. }
    pose proof (frame_lift_dir (root (FileSet.new (getSvnTagPath label))) c1) as Hf2.
    destruct (lift_out (dumpSvnDir env _) c1) as [[e|[]] c2] eqn:E; cbn [snd] in Hf2.
    + rewrite (bind_err _ _ _ _ _ E). split; [by etrans|]. intros k [=].
    + rewrite (bind_ok _ _ _ _ _ E). cbn [ret fst snd].
      split; [by etrans|]. intros k [= <-]. split; [reflexivity|].
      destruct Hf2 as (_ & _ & _ & _ & Hk & _). apply Hk.
      unfold c1; cbn [svnTree set_svnTree]. rewrite lookup_insert_eq. by eexists.
Qed.

Lemma root_fileSet_at (c : Converter) (k : string) :
  is_Some (svnTree c !! k) -> root (fileSet_at k c) = tag_root c k.
Proof. intros [fs Hfs]. unfold fileSet_at, tag_root. by rewrite Hfs. Qed.

End ConverterEffects.

(** ** Labels *)

#[global] Opaque recursion_limit.

Section LabelEffects.
Context `{DictOrder}.
Variable env : Env.

Lemma dumpRevisionHeader_effect (c : Converter) :
  exists o',
    dumpRevisionHeader c = set_svnRevNum (svnRevNum c + 1) (set_out o' c)
    /\ history o' = history (out c) ++ [CallRevisionHeader (svnRevNum c) (revProps c)]
    /\ enabled o' = enabled (out c).
Proof.
  unfold dumpRevisionHeader.
  destruct c as [ap ep lb cl br ig o tr cc n rp].
  unfold set_out, set_svnRevNum.
  cbn [out svnRevNum revProps autoProps emptyProps labels checklabels branches
       ignoredDirectories svnTree ccTree].
  eexists. split; [reflexivity|].
  destruct (quiet_dump rp (WriteStream.write ("Revision-number: " +:+ str n +:+ LF)
              (WriteStream.log (CallRevisionHeader n rp) o))) as [-> ->].
  destruct (quiet_write ("Revision-number: " +:+ str n +:+ LF)
              (WriteStream.log (CallRevisionHeader n rp) o)) as [-> ->].
  by split.
Qed.

Lemma bind_if_modify {S B} (b : bool) (f : S -> S) (k : unit -> M S B) (s : S) :
  bind (if b then modify f else ret tt) k s = k tt (if b then f s else s).
Proof. by destruct b. Qed.

Lemma filter_dirs_no_copy (l : list DumpCall) :
  Forall (fun call => is_dir_call call = true) l ->
  List.filter is_copy_call l = [] /\
  Forall (fun call => is_dir_or_copy call = true) l.
Proof.
  induction 1 as [|call l Hc _ [IH1 IH2]]; [by split|].
  destruct call; try discriminate. cbn. split; [exact IH1|]. by constructor.
Qed.

Lemma processLabels_loop_spec (r : CCRecord.t) (u : bool) (rev : Z)
  (ls : list string) :
  forall (first : bool) (c c' : Converter),
  processLabels_loop env r u rev first ls c = (inr tt, c') ->
  svnRevNum c' = (svnRevNum c +
                  (if first
                   then Z.of_nat (length (label_header c (List.filter (label_allowed c) ls)))
                   else 0))%Z
  /\ labels c' = labels c /\ revProps c' = revProps c
  /\ (forall l, tag_root c' l = tag_root c l)
  /\ exists l,
       history (out c') = history (out c)
         ++ (if first then label_header c (List.filter (label_allowed c) ls) else [])
         ++ l
       /\ Forall (fun call => is_dir_or_copy call = true) l
       /\ List.filter is_copy_call l
          = map (label_copy r rev c) (List.filter (label_allowed c) ls).
Proof.
  induction ls as [|a ls IH]; intros first c c' Hrun.
  - cbn in Hrun. injection Hrun as <-. cbn [List.filter label_header length].
    split; [destruct first; cbn; lia|]. repeat split.
    exists []. destruct first; cbn; rewrite ?app_nil_r; by repeat split.
  - cbn [processLabels_loop] in Hrun. rewrite bind_get in Hrun.
    cbn [List.filter]. destruct (label_allowed c a) eqn:Ha.
    2:{ apply IH in Hrun. exact Hrun. }
    set (c1 := if first then dumpRevisionHeader c else c).
    assert (exists o1, c1 = set_svnRevNum (svnRevNum c + (if first then 1 else 0))
                               (set_out o1 c)
                       /\ history o1 = history (out c)
                            ++ (if first then [CallRevisionHeader (svnRevNum c) (revProps c)]
                                else [])) as (o1 & Hc1 & Hh1).
    { unfold c1. destruct first.
      - destruct (dumpRevisionHeader_effect c) as (o' & -> & Hh & _). by exists o'.
      - exists (out c). rewrite app_nil_r, Z.add_0_r. by destruct c. }
    rewrite bind_if_modify in Hrun. fold c1 in Hrun.
    destruct (frame_getTagFileset env a c1) as [Hf2 Hk2].
    destruct (getTagFileset env a c1) as [[e|k] c2] eqn:E2;
      [rewrite (bind_err _ _ _ _ _ E2) in Hrun; discriminate|].
    rewrite (bind_ok _ _ _ _ _ E2) in Hrun. cbn [fst snd] in Hf2, Hk2.
    destruct (Hk2 k eq_refl) as [-> Hin2]. clear Hk2.
    pose proof (frame_createParentDirs env recursion_limit a (CCRecord.path r) c2) as Hf3.
    destruct (createParentDirs env recursion_limit a (CCRecord.path r) c2)
      as [[e|[]] c3] eqn:E3;
      [rewrite (bind_err _ _ _ _ _ E3) in Hrun; discriminate|].
    rewrite (bind_ok _ _ _ _ _ E3), bind_get in Hrun. cbn [snd] in Hf3.
    assert (root (fileSet_at a c3) = tag_root c a) as Hroot.
    { destruct Hf3 as (_ & _ & _ & Ht3 & Hk3 & _).
      destruct Hf2 as (_ & _ & _ & Ht2 & _ & _).
      rewrite root_fileSet_at by auto. rewrite Ht3, Ht2, Hc1.
      unfold tag_root. by destruct c. }
    unfold FileSet.getAbsolutePath in Hrun. rewrite Hroot in Hrun.
    fold (label_copy r rev c a) in Hrun.
    destruct (lift_out_logs _ _ c3 (logs_dumpSvnCopy env "file" (CCRecord.svnpath r) rev
                (tag_root c a +:+ "/" +:+ CCRecord.path r)))
      as (o4 & Hc4 & Hh4 & _).
    destruct (lift_out _ c3) as [[e|[]] c4] eqn:E4;
      [rewrite (bind_err _ _ _ _ _ E4) in Hrun; discriminate|].
    rewrite (bind_ok _ _ _ _ _ E4), bind_if_modify in Hrun. cbn [snd] in Hc4.
    match type of Hrun with
    | processLabels_loop _ _ _ _ _ _ ?x = _ => set (c5 := x) in Hrun
    end.
    apply IH in Hrun. clear IH.
    destruct Hrun as (Hn & Hl & Hp & Ht & l' & Hh & Hdc & Hfc).
    destruct Hf2 as (Hn2 & Hl2 & Hp2 & Ht2 & _ & ld2 & Hh2 & Hd2).
    destruct Hf3 as (Hn3 & Hl3 & Hp3 & Ht3 & _ & ld3 & Hh3 & Hd3).
    assert (svnRevNum c5 = svnRevNum c3 /\ labels c5 = labels c3
            /\ revProps c5 = revProps c3
            /\ (forall l, tag_root c5 l = tag_root c3 l)
            /\ history (out c5) = history (out c3) ++ [label_copy r rev c a])
      as (Hn5 & Hl5 & Hp5 & Ht5 & Hh5).
    { unfold c5. rewrite Hc4. destruct (_ && u); by repeat split. }
    assert (svnRevNum c1 = (svnRevNum c + (if first then 1 else 0))%Z
            /\ labels c1 = labels c /\ revProps c1 = revProps c
            /\ (forall l, tag_root c1 l = tag_root c l)
            /\ history (out c1) = history o1)
      as (Hn1 & Hl1 & Hp1 & Ht1 & Hh1').
    { rewrite Hc1. by repeat split. }
    assert (label_allowed c5 = label_allowed c) as Hal.
    { unfold label_allowed. by rewrite Hl5, Hl3, Hl2, Hl1. }
    assert (forall l, label_copy r rev c5 l = label_copy r rev c l) as Hlc.
    { intros l. unfold label_copy. by rewrite Ht5, Ht3, Ht2, Ht1. }
    rewrite Hal in *. rewrite (map_ext _ _ Hlc) in Hfc.
    split. { rewrite Hn, Hn5, Hn3, Hn2, Hn1. destruct first; cbn; lia. }
    split; [congruence|]. split; [congruence|].
    split. { intros l. by rewrite Ht, Ht5, Ht3, Ht2, Ht1. }
    destruct (filter_dirs_no_copy _ Hd2) as [Hfc2 Hdc2].
    destruct (filter_dirs_no_copy _ Hd3) as [Hfc3 Hdc3].
    exists (ld2 ++ ld3 ++ [label_copy r rev c a] ++ l').
    split; [|split].
    + rewrite Hh, Hh5, Hh3, Hh2, Hh1', Hh1. cbn [app].
      destruct first; cbn [label_header app]; by rewrite <- ?app_assoc.
    + repeat (apply Forall_app; split); try done. by repeat constructor.
    + rewrite !List.filter_app, Hfc2, Hfc3, Hfc. reflexivity.
Qed.

(** C2, as the code has it.  When [processLabels] returns, it has made one
    revision header if at least one label of the record passes the
    allow-list and none otherwise: one for the record, not one for each tag
    root.  After the header come, for each passing label in order, directory
    adds (the tag root when it is new, missing parent directories) and the
    copy of the record's branch-side path, at the revision before the
    header's, to the same path under the label's root. *)
Theorem labels_share_one_revision (r : CCRecord.t) (u : bool) (c c' : Converter) :
  processLabels env r u c = (inr tt, c') ->
  exists l,
    new_calls c c'
    = label_header c (List.filter (label_allowed c) (CCRecord.labels r)) ++ l
    /\ Forall (fun call => is_dir_or_copy call = true) l
    /\ List.filter is_copy_call l
       = map (label_copy r (svnRevNum c - 1) c)
           (List.filter (label_allowed c) (CCRecord.labels r))
    /\ svnRevNum c'
       = (svnRevNum c
          + Z.of_nat (length (label_header c
                                (List.filter (label_allowed c) (CCRecord.labels r)))))%Z.
Proof.
  unfold processLabels. rewrite bind_modify, bind_get. intros Hrun.
  apply processLabels_loop_spec in Hrun.
  destruct Hrun as (Hn & _ & _ & _ & l & Hh & Hd & Hf).
  exists l. split; [|split; [exact Hd|split; [exact Hf|exact Hn]]].
  unfold new_calls. rewrite Hh.
  change (history (out (set_ccTree _ c))) with (history (out c)).
  by rewrite drop_app_length.
Qed.

End LabelEffects.

(** C2, as the claim states it, fails: the record [bar_main_0] carries two
    labels, both pass (there is no allow-list), two tag roots are created,
    and the two copies share revision 3: processing the record makes two
    revision headers, its own and one for the labels, not three. *)
Lemma two_labels_one_revision :
  map call_summary (new_calls after_foo (after_foo_bar))
  = ["revision 2"; "dir branches/main/src";
     "file add branches/main/src/bar.txt";
     "revision 3";
     "dir tags/REL1"; "dir tags/REL1/src";
     "copy file branches/main/src/bar.txt@2 tags/REL1/src/bar.txt";
     "dir tags/REL2"; "dir tags/REL2/src";
     "copy file branches/main/src/bar.txt@2 tags/REL2/src/bar.txt"]
  /\ length (List.filter is_header_call (new_calls after_foo after_foo_bar)) = 2.
Proof. vm_compute. split; reflexivity. Qed.

Lemma labels_share_one_revision_witness :
  processLabels (H := canonical_order) example_env bar_on_main true after_foo
  = (inr tt, (processLabels (H := canonical_order) example_env bar_on_main true
                after_foo).2)
  /\ exists l,
       new_calls after_foo
         (processLabels (H := canonical_order) example_env bar_on_main true
            after_foo).2
       = label_header after_foo
           (List.filter (label_allowed after_foo) (CCRecord.labels bar_on_main)) ++ l
       /\ Forall (fun call => is_dir_or_copy call = true) l
       /\ List.filter is_copy_call l
          = map (label_copy bar_on_main (svnRevNum after_foo - 1) after_foo)
              (List.filter (label_allowed after_foo) (CCRecord.labels bar_on_main))
       /\ svnRevNum (processLabels (H := canonical_order) example_env bar_on_main
                       true after_foo).2
          = (svnRevNum after_foo
             + Z.of_nat (length (label_header after_foo
                   (List.filter (label_allowed after_foo)
                      (CCRecord.labels bar_on_main)))))%Z.
Proof.
  split; [vm_compute; reflexivity|].
  apply (labels_share_one_revision (H := canonical_order) example_env
           bar_on_main true after_foo).
  vm_compute. reflexivity.
Defined.

(** ** The invariant of the replay *)

Section Invariant.
Context `{DictOrder}.
Variable env : Env.
Variable cfg : Config.
Variable is_dir : string -> Prop.

#[global] Instance keeps_inv_refl : Reflexive (keeps_inv is_dir).
Proof. by intros c Hc. Qed.

#[global] Instance keeps_inv_trans : Transitive (keeps_inv is_dir).
Proof. intros c1 c2 c3 H12 H23 Hc. auto. Qed.

Lemma put_under_mono (h l : list DumpCall) (k p : string) :
  put_under h k p -> put_under (h ++ l) k p.
Proof.
  intros Hp. destruct Hp as [h k p props content Hin | h1 h2 k parent p rev Hp].
  - apply (put_by_add _ _ _ props content). apply elem_of_app. by left.
  - rewrite <- app_assoc. cbn [app]. by apply put_by_copy.
Qed.

Lemma member_ok_mono (h l : list DumpCall) (k p : string) :
  member_ok is_dir h k p -> member_ok is_dir (h ++ l) k p.
Proof. intros [Hd | Hp]; [by left | right; by apply put_under_mono]. Qed.

Lemma changes_follow_adds_app (h l : list DumpCall) :
  changes_follow_adds h ->
  Forall (fun call => is_change_call call = false) l ->
  changes_follow_adds (h ++ l).
Proof.
  intros Hh Hl i sp props content Hi.
  destruct (decide (i < length h)) as [Hlt|Hge].
  - rewrite lookup_app_l in Hi by done.
    rewrite take_app_le by lia. eauto.
  - rewrite lookup_app_r in Hi by lia.
    apply list_elem_of_lookup_2 in Hi. rewrite Forall_forall in Hl.
    specialize (Hl _ Hi). discriminate.
Qed.

Lemma changes_follow_adds_change (h : list DumpCall) (k p : string)
  (props : SvnProperties) (content : string) :
  changes_follow_adds h ->
  put_under h k p ->
  changes_follow_adds
    (h ++ [CallSvnFile "change" (getSvnBranchPath k +:+ "/" +:+ p) props content]).
Proof.
  intros Hh Hp i sp' props' content' Hi.
  destruct (decide (i < length h)) as [Hlt|Hge].
  - rewrite lookup_app_l in Hi by done.
    rewrite take_app_le by lia. eauto.
  - rewrite lookup_app_r in Hi by lia.
    apply list_lookup_singleton_Some in Hi as [Hi0 [= <- <- <-]].
    assert (i = length h) as -> by lia.
    rewrite take_app_length. eauto.
Qed.

(** New calls that are no changes keep the invariant. *)
Lemma inv_calls (c c' : Converter) (l : list DumpCall) :
  svnTree c' = svnTree c ->
  history (out c') = history (out c) ++ l ->
  Forall (fun call => is_change_call call = false) l ->
  keeps_inv is_dir c c'.
Proof.
  intros Ht Hh Hl [Hwf Hmem]. split.
  - rewrite Hh. by apply changes_follow_adds_app.
  - rewrite Ht, Hh. intros k fs Hk p Hp. apply member_ok_mono. eauto.
Qed.

Lemma inv_same (c c' : Converter) :
  svnTree c' = svnTree c -> history (out c') = history (out c) ->
  keeps_inv is_dir c c'.
Proof.
  intros Ht Hh. apply (inv_calls c c' []); [done| by rewrite app_nil_r | done].
Qed.

Lemma inv_add_member (c : Converter) (k p : string) :
  member_ok is_dir (history (out c)) k p ->
  keeps_inv is_dir c (set_svnTree (alter (FileSet.add p) k (svnTree c)) c).
Proof.
  intros Hok [Hwf Hmem]. split; [exact Hwf|].
  cbn [svnTree set_svnTree out]. intros k' fs'. rewrite lookup_alter.
  case_decide as Hk; [subst k'|by apply Hmem].
  destruct (svnTree c !! k) as [fs|] eqn:Hfs; [|discriminate].
  intros [= <-] q. cbn [members FileSet.add]. rewrite elem_of_union, elem_of_singleton.
  intros [->|Hq]; [exact Hok | by eapply Hmem].
Qed.

Lemma inv_insert_new (c : Converter) (k rt : string) :
  keeps_inv is_dir c (set_svnTree (<[k := FileSet.new rt]> (svnTree c)) c).
Proof.
  intros [Hwf Hmem]. split; [exact Hwf|].
  cbn [svnTree set_svnTree out]. intros k' fs'.
  destruct (decide (k = k')) as [->|Hne].
  - rewrite lookup_insert_eq. intros [= <-] q. cbn [members FileSet.new].
    by rewrite elem_of_empty.
  - rewrite lookup_insert_ne by done. by apply Hmem.
Qed.

Lemma keeps_bind {A B} (m : M Converter A) (k : A -> M Converter B)
  (c : Converter) :
  keeps_inv is_dir c (m c).2 ->
  (forall a, (m c).1 = inr a -> keeps_inv is_dir (m c).2 (k a (m c).2).2) ->
  keeps_inv is_dir c (bind m k c).2.
Proof.
  intros Hm Hk. unfold bind. destruct (m c) as [[e|a] c']; cbn [fst snd] in *.
  - exact Hm.
  - etrans; [exact Hm | by apply Hk].
Qed.

Lemma ki_lift_call {A} (m : M WriteStream A) (call : DumpCall) :
  logs m call -> is_change_call call = false ->
  pres (keeps_inv is_dir) (lift_out m).
Proof.
  intros Hm Hc c. destruct (lift_out_logs _ _ c Hm) as (o' & -> & Hh & _).
  apply (inv_calls _ _ [call]); [done | exact Hh | by repeat constructor].
Qed.

Lemma ki_lift_dir (p : string) :
  pres (keeps_inv is_dir) (lift_out (dumpSvnDir env p)).
Proof. by apply (ki_lift_call _ _ (logs_dumpSvnDir env p)). Qed.

Lemma ki_lift_copy (kind from : string) (rev : Z) (target : string) :
  pres (keeps_inv is_dir) (lift_out (dumpSvnCopy env kind from rev target)).
Proof. by apply (ki_lift_call _ _ (logs_dumpSvnCopy env kind from rev target)). Qed.

Lemma ki_header : pres (keeps_inv is_dir) (modify dumpRevisionHeader).
Proof.
  intros c. cbn [modify snd].
  destruct (dumpRevisionHeader_effect c) as (o' & -> & Hh & _).
  apply (inv_calls _ _ [CallRevisionHeader (svnRevNum c) (revProps c)]);
    [done | exact Hh | by repeat constructor].
Qed.

Lemma ki_fileSet_add_dir (k d : string) :
  is_dir d -> pres (keeps_inv is_dir) (fileSet_add k d).
Proof. intros Hd c. apply inv_add_member. by left. Qed.

Lemma ki_createParentDirs (depth : nat) (k path : string) :
  (forall d, d ∈ ancestors depth path -> is_dir d) ->
  pres (keeps_inv is_dir) (createParentDirs env depth k path).
Proof.
  revert path. induction depth as [|depth IH]; intros path Hanc;
    cbn [createParentDirs].
  - apply pres_raise; apply _.
  - apply pres_bind; try apply _; [apply pres_get; apply _|]. intros c0.
    cbn [ancestors] in Hanc.
    destruct (truthy (dirname path)) eqn:Ht; cbn [andb];
      [|apply pres_ret; apply _].
    destruct (negb _); [|apply pres_ret; apply _].
    apply pres_bind; try apply _.
    { apply IH. intros d Hd. apply Hanc. by right. }
    intros _.
    apply pres_bind; try apply _; [apply pres_get; apply _|]. intros c1.
    apply pres_bind; try apply _; [apply ki_lift_dir|]. intros _.
    apply ki_fileSet_add_dir. apply Hanc. by left.
Qed.

Lemma ki_getTagFileset (label : string) :
  pres (keeps_inv is_dir) (getTagFileset env label).
Proof.
  unfold getTagFileset.
  apply pres_bind; try apply _; [apply pres_get; apply _|]. intros c0.
  destruct (svnTree c0 !! label); [apply pres_ret; apply _|].
  apply pres_bind; try apply _.
  { apply pres_modify. intros c. apply inv_insert_new. }
  intros _. apply pres_bind; try apply _; [apply ki_lift_dir|].
  intros _. apply pres_ret; apply _.
Qed.

Lemma ki_plain (f : Converter -> Converter) :
  (forall c, svnTree (f c) = svnTree c) ->
  (forall c, history (out (f c)) = history (out c)) ->
  pres (keeps_inv is_dir) (modify f).
Proof. intros Ht Hh c. cbn [modify snd]. apply inv_same; [apply Ht | apply Hh]. Qed.

Lemma ki_processLabels_loop (r : CCRecord.t) (u : bool) (rev : Z)
  (first : bool) (ls : list string) :
  (forall d, d ∈ ancestors recursion_limit (CCRecord.path r) -> is_dir d) ->
  pres (keeps_inv is_dir) (processLabels_loop env r u rev first ls).
Proof.
  intros Hanc. revert first.
  induction ls as [|a ls IH]; intros first; cbn [processLabels_loop].
  - apply pres_ret; apply _.
  - apply pres_bind; try apply _; [apply pres_get; apply _|]. intros c0.
    destruct (label_allowed c0 a); [|apply IH].
    apply pres_bind; try apply _.
    { destruct first; [apply ki_header | apply pres_ret; apply _]. }
    intros _. apply pres_bind; try apply _; [apply ki_getTagFileset|].
    intros k. apply pres_bind; try apply _; [by apply ki_createParentDirs|].
    intros _. apply pres_bind; try apply _; [apply pres_get; apply _|].
    intros c1. apply pres_bind; try apply _; [apply ki_lift_copy|].
    intros _. apply pres_bind; try apply _; [|intros _; apply IH].
    destruct (_ && u); [by apply ki_plain | apply pres_ret; apply _].
Qed.

Lemma ki_processLabels (r : CCRecord.t) (u : bool) :
  (forall d, d ∈ ancestors recursion_limit (CCRecord.path r) -> is_dir d) ->
  pres (keeps_inv is_dir) (processLabels env r u).
Proof.
  intros Hanc. unfold processLabels.
  apply pres_bind; try apply _; [by apply ki_plain|]. intros _.
  apply pres_bind; try apply _; [apply pres_get; apply _|]. intros c0.
  by apply ki_processLabels_loop.
Qed.

(** What [dumpFile] does when it is not called for a link: nothing when the
    content cannot be fetched, one call of [dumpSvnFile] otherwise. *)
Lemma dumpFile_plain (r : CCRecord.t) (action : string) (c : Converter) :
  (exists e, getFile env (CCRecord.path r) (CCRecord.revision r) false = inl e
             /\ dumpFile env r action false c = (inl e, c))
  \/ (exists content o',
        getFile env (CCRecord.path r) (CCRecord.revision r) false = inr content
        /\ (dumpFile env r action false c).2 = set_out o' c
        /\ history o' = history (out c)
             ++ [CallSvnFile action (CCRecord.svnpath r)
                   (props_at (SvnAutoProps.getProps env (autoProps c)
                                (CCRecord.svnpath r)) c) content]
        /\ enabled o' = enabled (out c)).
Proof.
  unfold dumpFile.
  destruct (getFile env _ _ false) as [e|content]; [left; by exists e|].
  right. exists content. rewrite (bind_ok _ _ c c content eq_refl), bind_get.
  cbn [andb]. rewrite bind_ret, bind_get.
  destruct (lift_out_logs _ _ c
              (logs_dumpSvnFile env action (CCRecord.svnpath r)
                 (props_at (SvnAutoProps.getProps env (autoProps c)
                              (CCRecord.svnpath r)) c) content))
    as (o' & Hc & Hh & He).
  by exists o'.
Qed.

Lemma ki_dumpFile_add (r : CCRecord.t) :
  pres (keeps_inv is_dir) (dumpFile env r "add" false).
Proof.
  intros c. destruct (dumpFile_plain r "add" c)
    as [(e & _ & ->) | (content & o' & _ & -> & Hh & _)]; [reflexivity|].
  eapply inv_calls; [done | exact Hh | by repeat constructor].
Qed.

Lemma ki_add_file (r : CCRecord.t) (k : string) :
  CCRecord.svnpath r = getSvnBranchPath k +:+ "/" +:+ CCRecord.path r ->
  pres (keeps_inv is_dir)
    (exec dumpFile env r "add" false; fileSet_add k (CCRecord.path r)).
Proof.
  intros Hsp c. apply keeps_bind; [apply ki_dumpFile_add|].
  intros [] Hok.
  destruct (dumpFile_plain r "add" c)
    as [(e & _ & He) | (content & o' & _ & Hc & Hh & _)].
  { rewrite He in Hok. discriminate. }
  rewrite Hc. apply inv_add_member. right.
  eapply (put_by_add _ _ _ _ content). cbn [out set_out]. rewrite Hh, <- Hsp.
  apply elem_of_app. right. by left.
Qed.

Lemma ki_change (r : CCRecord.t) (k : string) (c : Converter) :
  CCRecord.svnpath r = getSvnBranchPath k +:+ "/" +:+ CCRecord.path r ->
  ~ is_dir (CCRecord.path r) ->
  FileSet.contains (CCRecord.path r) (fileSet_at k c) = true ->
  keeps_inv is_dir c (dumpFile env r "change" false c).2.
Proof.
  intros Hsp Hnd Hin.
  destruct (dumpFile_plain r "change" c)
    as [(e & _ & ->) | (content & o' & _ & -> & Hh & _)]; [reflexivity|].
  intros [Hwf Hmem]. split.
  - cbn [out set_out]. rewrite Hh, Hsp.
    apply changes_follow_adds_change; [done|].
    unfold FileSet.contains, fileSet_at in Hin.
    apply bool_decide_eq_true in Hin.
    destruct (svnTree c !! k) as [fs|] eqn:Hk.
    + by destruct (Hmem _ _ Hk _ Hin).
    + cbn in Hin. by apply elem_of_empty in Hin.
  - cbn [out set_out svnTree]. rewrite Hh. intros k' fs Hk' p Hp.
    apply member_ok_mono. eauto.
Qed.

Lemma ki_copy_branch (k parent : string) (rev : Z) (pfs : FileSet)
  (c : Converter) :
  svnTree c !! parent = Some pfs ->
  keeps_inv is_dir c (copy_branch env k parent rev pfs c).2.
Proof.
  intros Hpfs. unfold copy_branch. rewrite bind_modify.
  destruct (lift_out_logs _ _
              (set_svnTree (<[k := FileSet.copy_to (getSvnBranchPath k) pfs]> (svnTree c)) c)
              (logs_dumpSvnCopy env "dir" (getSvnBranchPath parent) rev
                 (getSvnBranchPath k)))
    as (o' & -> & Hh & _).
  cbn [out set_svnTree] in Hh.
  intros [Hwf Hmem]. split.
  - cbn [out set_out]. rewrite Hh.
    apply changes_follow_adds_app; [done | by repeat constructor].
  - cbn [out set_out svnTree set_svnTree]. rewrite Hh. intros k' fs'.
    destruct (decide (k = k')) as [<-|Hne].
    + rewrite lookup_insert_eq. intros [= <-] p Hp.
      cbn [members FileSet.copy_to] in Hp.
      destruct (Hmem _ _ Hpfs _ Hp) as [Hd|Hput]; [by left|].
      right. by apply put_by_copy.
    + rewrite lookup_insert_ne by done. intros Hk' p Hp.
      apply member_ok_mono. eauto.
Qed.

Lemma ki_new_dir_branch (k : string) :
  pres (keeps_inv is_dir)
    (exec modify (fun c => set_svnTree
                    (<[k := FileSet.new (getSvnBranchPath k)]> (svnTree c)) c);
     lift_out (dumpSvnDir env (root (FileSet.new (getSvnBranchPath k))))).
Proof.
  apply pres_bind; try apply _; [|intros _; apply ki_lift_dir].
  apply pres_modify. intros c. apply inv_insert_new.
Qed.

Lemma ki_create_branch_anyway (k : string) :
  pres (keeps_inv is_dir) (create_branch_anyway env cfg k).
Proof.
  unfold create_branch_anyway.
  destruct (_ || _); [apply ki_new_dir_branch | apply pres_raise; apply _].
Qed.

Section OneRecord.
Variable r : CCRecord.t.
Hypothesis Hanc :
  forall d, d ∈ ancestors recursion_limit (CCRecord.path r) -> is_dir d.
Hypothesis Hsp :
  CCRecord.svnpath r
  = getSvnBranchPath (CCRecord.svnbranch r) +:+ "/" +:+ CCRecord.path r.

(** The file case once the branch's file set is there, known or just made. *)
Lemma ki_file_in_branch (skip_version_0 : bool) (c : Converter) :
  ~ is_dir (CCRecord.path r) ->
  keeps_inv is_dir c
    ((if FileSet.contains (CCRecord.path r) (fileSet_at (CCRecord.svnbranch r) c)
      then
        if skip_version_0 then
          if negb (String.eqb (CCRecord.revNumber r) "0")
          then dumpFile env r "change" false
          else ret tt
        else dumpFile env r "change" false
      else
        exec createParentDirs env recursion_limit (CCRecord.svnbranch r)
               (CCRecord.path r);
        exec dumpFile env r "add" false;
        fileSet_add (CCRecord.svnbranch r) (CCRecord.path r)) c).2.
Proof.
  intros Hnd.
  destruct (FileSet.contains _ _) eqn:Hin.
  - destruct skip_version_0; [destruct (negb _)|]; try reflexivity;
      by apply (ki_change r (CCRecord.svnbranch r)).
  - apply pres_bind; try apply _; [by apply ki_createParentDirs|].
    intros _. by apply (ki_add_file r (CCRecord.svnbranch r)).
Qed.

Lemma ki_process_known (fs : FileSet) (c : Converter) :
  ~ is_dir (CCRecord.path r) ->
  svnTree c !! CCRecord.svnbranch r = Some fs ->
  keeps_inv is_dir c (process_known_branch env r fs c).2.
Proof.
  intros Hnd Hfs. unfold process_known_branch. rewrite bind_modify.
  etrans; [apply ki_header|]. cbn [modify snd].
  apply keeps_bind; [|intros _ _; by apply ki_processLabels].
  assert (fileSet_at (CCRecord.svnbranch r) (dumpRevisionHeader c) = fs) as Hat.
  { destruct (dumpRevisionHeader_effect c) as (o' & -> & _).
    unfold fileSet_at. cbn [svnTree set_svnRevNum set_out]. by rewrite Hfs. }
  pose proof (ki_file_in_branch false (dumpRevisionHeader c) Hnd) as Hk.
  rewrite Hat in Hk. exact Hk.
Qed.

Lemma ki_process_new (c : Converter) :
  ~ is_dir (CCRecord.path r) ->
  keeps_inv is_dir c (process_new_branch env cfg r c).2.
Proof.
  intros Hnd. unfold process_new_branch. rewrite bind_get, bind_modify.
  etrans; [apply ki_header|]. cbn [modify snd].
  apply keeps_bind.
  { destruct (_ <? 2); [apply ki_new_dir_branch|].
    rewrite bind_get. destruct (svnTree _ !! _) as [pfs|] eqn:Hpfs;
      [|apply ki_create_branch_anyway].
    destruct (FileSet.nonempty pfs);
      [by apply ki_copy_branch | apply ki_create_branch_anyway]. }
  intros _ _. rewrite bind_get.
  apply keeps_bind; [|intros _ _; by apply ki_processLabels].
  by apply (ki_file_in_branch true).
Qed.

Lemma ki_process_directory :
  is_dir (CCRecord.path r) ->
  pres (keeps_inv is_dir) (process_directory env r).
Proof.
  intros Hd. unfold process_directory.
  apply pres_bind; try apply _; [apply pres_get; apply _|]. intros c0.
  destruct (svnTree c0 !! _) as [fs|]; [|apply pres_ret; apply _].
  destruct (FileSet.nonempty fs); [|apply pres_ret; apply _].
  apply pres_bind; try apply _; [|intros _; by apply ki_plain].
  destruct (FileSet.contains _ fs); [apply pres_ret; apply _|].
  apply pres_bind; try apply _; [apply ki_header|]. intros _.
  apply pres_bind; try apply _; [by apply ki_createParentDirs|]. intros _.
  apply pres_bind; try apply _; [apply ki_lift_dir|]. intros _.
  by apply ki_fileSet_add_dir.
Qed.

Lemma ki_process_cases (c : Converter) :
  (CCRecord.type r = "version" -> ~ is_dir (CCRecord.path r)) ->
  (CCRecord.type r = "directory version" -> is_dir (CCRecord.path r)) ->
  keeps_inv is_dir c (process_cases env cfg r c).2.
Proof.
  intros Hfile Hdirv. unfold process_cases.
  destruct (String.eqb_spec (CCRecord.type r) "version") as [Hv|_].
  { destruct (is_version_op _); [|reflexivity]. rewrite bind_get.
    destruct (svnTree c !! _) as [fs|] eqn:Hfs.
    - apply ki_process_known; auto.
    - apply ki_process_new; auto. }
  destruct (String.eqb_spec (CCRecord.type r) "directory version") as [Hd|_].
  { destruct (is_version_op _); [|reflexivity]. apply ki_process_directory; auto. }
  destruct (_ && _); reflexivity.
Qed.

End OneRecord.

Lemma ki_process (r : CCRecord.t) :
  (forall d, d ∈ ancestors recursion_limit (CCRecord.path r) -> is_dir d) ->
  (CCRecord.type r = "version" -> ~ is_dir (CCRecord.path r)) ->
  (CCRecord.type r = "directory version" -> is_dir (CCRecord.path r)) ->
  pres (keeps_inv is_dir) (process env cfg r).
Proof.
  intros Hanc Hfile Hdirv c. unfold process.
  destruct (String.eqb _ "."); [reflexivity|]. rewrite bind_get.
  destruct (match branches c with Some _ => _ | None => _ end); [reflexivity|].
  destruct (isIgnored c _); [reflexivity|].
  rewrite !bind_modify.
  etrans; [|apply ki_process_cases; auto].
  apply inv_same.
  - unfold enable_after_cutoff. destruct (DUMP_SINCE_DATE cfg); [|reflexivity].
    by destruct (_ && _).
  - unfold enable_after_cutoff. destruct (DUMP_SINCE_DATE cfg); [|reflexivity].
    by destruct (_ && _).
Qed.

Lemma ki_initializeFile : pres (keeps_inv is_dir) (initializeFile env cfg).
Proof.
  unfold initializeFile.
  apply pres_bind; try apply _.
  { intros c. rewrite lift_out_eq. cbn [snd]. apply inv_same; [done|].
    cbn [out set_out]. apply (quietM_out_write _ (out c)). }
  intros _. apply pres_bind; try apply _.
  { destruct (DUMP_SINCE_DATE cfg); [by apply ki_plain | apply pres_ret; apply _]. }
  intros _. destruct (match SVN_CREATE_BRANCHES_TAGS_DIRS cfg with _ => _ end);
    [|apply pres_ret; apply _].
  apply pres_bind; try apply _; [apply ki_header|]. intros _.
  apply pres_bind; try apply _; [apply ki_lift_dir|]. intros _.
  apply ki_lift_dir.
Qed.

End Invariant.

(** ** Every change comes after an add *)

Section ChangeAfterAdd.
Context `{DictOrder}.
Variable env : Env.
Variable cfg : Config.

Lemma dirs_of_ancestor (records : list CCRecord.t) (r : CCRecord.t) (d : string) :
  r ∈ records -> d ∈ ancestors recursion_limit (CCRecord.path r) ->
  d ∈ dirs_of records.
Proof.
  intros Hr Hd. unfold dirs_of. apply list_elem_of_In, in_flat_map.
  exists r. split; [by apply list_elem_of_In|].
  apply list_elem_of_In, elem_of_app. by left.
Qed.

Lemma dirs_of_directory (records : list CCRecord.t) (r : CCRecord.t) :
  r ∈ records -> CCRecord.type r = "directory version" ->
  CCRecord.path r ∈ dirs_of records.
Proof.
  intros Hr Ht. unfold dirs_of. apply list_elem_of_In, in_flat_map.
  exists r. split; [by apply list_elem_of_In|].
  apply list_elem_of_In, elem_of_app. right. rewrite Ht. cbn. by left.
Qed.

Lemma files_are_not_dirs_spec (records : list CCRecord.t) (r : CCRecord.t) :
  files_are_not_dirs records = true ->
  r ∈ records -> CCRecord.type r = "version" ->
  CCRecord.path r ∉ dirs_of records.
Proof.
  unfold files_are_not_dirs. rewrite forallb_forall. intros Hall Hr Ht.
  specialize (Hall r (proj1 (list_elem_of_In _ _) Hr)).
  rewrite Ht in Hall. change (("version" =? "version")%string) with true in Hall.
  cbn [negb orb] in Hall.
  apply negb_true_iff, bool_decide_eq_false in Hall. exact Hall.
Qed.

Lemma ki_replay (is_dir : string -> Prop) (records : list CCRecord.t) :
  (forall r, r ∈ records ->
     (forall d, d ∈ ancestors recursion_limit (CCRecord.path r) -> is_dir d)
     /\ (CCRecord.type r = "version" -> ~ is_dir (CCRecord.path r))
     /\ (CCRecord.type r = "directory version" -> is_dir (CCRecord.path r))) ->
  pres (keeps_inv is_dir) (replay env cfg records).
Proof.
  unfold replay. induction records as [|r records IH]; intros Hall; cbn [forM].
  - apply pres_ret. apply _.
  - apply pres_bind; try apply _.
    + destruct (Hall r) as (Ha & Hf & Hd); [by left|]. by apply ki_process.
    + intros _. apply IH. intros r' Hr'. apply Hall. by right.
Qed.

Lemma replay_inv_new (is_dir : string -> Prop)
  (labels branches ignoredDirectories : option (list string))
  (autoProps : gmap string SvnProperties) :
  replay_inv is_dir (Converter_new labels branches ignoredDirectories autoProps).
Proof.
  split.
  - intros i sp props content Hi. cbn in Hi. by rewrite lookup_nil in Hi.
  - intros k fs Hk. cbn in Hk. by rewrite lookup_empty in Hk.
Qed.

(** C6: in the replay of a history in which no path is both a file and a
    directory, started by [main] on a new converter, every call that dumps a
    file with the action "change" is for a path of a branch that the calls
    before it put there: an "add" of that path under the branch, or the copy
    that created the branch from a branch which had the path. *)
Theorem change_follows_add (records : list CCRecord.t)
  (labels branches ignoredDirectories : option (list string))
  (autoProps : gmap string SvnProperties) :
  files_are_not_dirs records = true ->
  changes_follow_adds
    (history (out (run env cfg records
                     (Converter_new labels branches ignoredDirectories autoProps)).2)).
Proof.
  intros Hvalid.
  set (is_dir := fun p : string => p ∈ dirs_of records).
  assert (pres (keeps_inv is_dir)
            (exec initializeFile env cfg; replay env cfg records)) as Hrun.
  { apply pres_bind; try apply _; [apply ki_initializeFile|]. intros _.
    apply ki_replay. intros r Hr. split; [|split].
    - intros d Hd. by apply (dirs_of_ancestor records r).
    - intros Ht. by apply files_are_not_dirs_spec.
    - intros Ht. by apply dirs_of_directory. }
  apply (Hrun _ (replay_inv_new is_dir labels branches ignoredDirectories autoProps)).
Qed.

End ChangeAfterAdd.

Lemma change_follows_add_witness :
  files_are_not_dirs [foo_main_0; bar_main_0; foo_dev_0; bar_dev_0; foo_main_1] = true
  /\ changes_follow_adds
       (history (out (run (H := canonical_order) example_env example_cfg
                        [foo_main_0; bar_main_0; foo_dev_0; bar_dev_0; foo_main_1]
                        fresh_converter).2)).
Proof.
  split; [vm_compute; reflexivity|].
  apply (change_follows_add (H := canonical_order) example_env example_cfg
           [foo_main_0; bar_main_0; foo_dev_0; bar_dev_0; foo_main_1]
           None None None ∅).
  vm_compute. reflexivity.
Defined.

(** * Properties of the rest of the script *)

(** ** Splitting and joining *)

Lemma prefix_app (sep r : string) : String.prefix sep (sep +:+ r) = true.
Proof.
  induction sep as [|c sep IH]; [by destruct r|].
  rewrite app_cons. cbn [String.prefix]. by destruct (Ascii.ascii_dec c c).
Qed.

Lemma prefix_other (c d : ascii) (sep s : string) :
  Ascii.eqb d c = false -> String.prefix (String c sep) (String d s) = false.
Proof.
  intros Hne. cbn [String.prefix]. destruct (Ascii.ascii_dec c d) as [->|]; [|done].
  by rewrite Ascii.eqb_refl in Hne.
Qed.

Lemma prefix_drop (sep s : string) :
  String.prefix sep s = true -> s = sep +:+ drop_s (String.length sep) s.
Proof.
  revert s; induction sep as [|c sep IH]; intros s Hp; [by destruct s|].
  destruct s as [|d s]; [done|]. cbn [String.prefix] in Hp.
  destruct (Ascii.ascii_dec c d) as [->|]; [|done].
  rewrite app_cons. cbn [String.length drop_s]. f_equal. by apply IH.
Qed.

Lemma split_go_nonempty (sep : string) (k : nat) (cur s : string) :
  split_go sep k cur s <> [].
Proof.
  revert k cur; induction s as [|c s IH]; intros k cur; cbn [split_go]; [done|].
  destruct k; [|apply IH]. by destruct (String.prefix _ _).
Qed.

Lemma join_cons (sep x : string) (l : list string) :
  l <> [] -> join sep (x :: l) = x +:+ sep +:+ join sep l.
Proof. by destruct l. Qed.

(** Joining the pieces of a split gives the string back. *)
Lemma join_split_go (sep : string) (k : nat) (cur s : string) :
  sep <> "" -> join sep (split_go sep k cur s) = cur +:+ drop_s k s.
Proof.
  intros Hsep. revert k cur; induction s as [|c s IH]; intros k cur.
  - cbn [split_go join]. destruct k; cbn [drop_s]; by rewrite app_empty_r.
  - cbn [split_go]. destruct k as [|k]; [|by rewrite IH].
    destruct (String.prefix sep (String c s)) eqn:Hp.
    + rewrite join_cons by apply split_go_nonempty. rewrite IH, app_nil_l.
      cbn [drop_s]. f_equal. apply prefix_drop in Hp.
      destruct sep as [|d sep]; [done|]. cbn [String.length drop_s] in Hp.
      rewrite app_cons in Hp. injection Hp as -> Hs.
      rewrite Hs at 2. rewrite app_cons. do 2 f_equal.
      f_equal. cbn [String.length]. lia.
    + rewrite IH. cbn [drop_s]. rewrite app_assoc_s. by rewrite app_cons, app_nil_l.
Qed.

Lemma join_split (sep s : string) : sep <> "" -> join sep (split sep s) = s.
Proof. intros Hsep. unfold split. by rewrite join_split_go. Qed.

Lemma split_go_skip (sep : string) (cur s r : string) :
  split_go sep (String.length s) cur (s +:+ r) = split_go sep 0 cur r.
Proof.
  induction s as [|c s IH]; [reflexivity|].
  rewrite app_cons. cbn [String.length split_go]. exact IH.
Qed.

(** A piece without the separator's first character is read through. *)
Lemma split_go_piece (c : ascii) (sep cur x r : string) :
  has_char c x = false -> r = "" \/ String.prefix (String c sep) r = true ->
  split_go (String c sep) 0 cur (x +:+ r)
  = split_go (String c sep) 0 (cur +:+ x) r.
Proof.
  intros Hx Hr. revert cur; induction x as [|d x IH]; intros cur.
  - by rewrite app_nil_l, app_empty_r.
  - cbn [has_char] in Hx. apply orb_false_elim in Hx as [Hd Hx].
    rewrite app_cons. cbn [split_go].
    rewrite (prefix_other c d sep (x +:+ r) Hd). rewrite IH by done.
    by rewrite app_assoc_s, app_cons, app_nil_l.
Qed.

Lemma split_go_sep (c : ascii) (sep cur r : string) :
  split_go (String c sep) 0 cur (String c sep +:+ r)
  = cur :: split_go (String c sep) 0 "" r.
Proof.
  rewrite app_cons. cbn [split_go]. rewrite <- app_cons, prefix_app.
  replace (String.length (String c sep) - 1) with (String.length sep)
    by (cbn [String.length]; lia).
  by rewrite split_go_skip.
Qed.

Lemma split_go_join (c : ascii) (sep cur x : string) (l : list string) :
  Forall (fun y => has_char c y = false) (x :: l) ->
  split_go (String c sep) 0 cur (join (String c sep) (x :: l)) = (cur +:+ x) :: l.
Proof.
  revert cur x; induction l as [|y l IH]; intros cur x Hall.
  - cbn [join]. rewrite <- (app_empty_r x) at 1.
    rewrite split_go_piece; [done | by inversion Hall | by left].
  - rewrite join_cons by done. inversion Hall as [|? ? Hx Hl]; subst.
    rewrite split_go_piece; [|done | right; apply prefix_app].
    rewrite split_go_sep. f_equal. by rewrite IH.
Qed.

(** Splitting a join gives the pieces back, when none of them holds the
    separator's first character. *)
Lemma split_join (c : ascii) (sep : string) (l : list string) :
  l <> [] -> Forall (fun y => has_char c y = false) l ->
  split (String c sep) (join (String c sep) l) = l.
Proof.
  intros Hl Hall. destruct l as [|x l]; [done|].
  unfold split. by rewrite split_go_join.
Qed.

(** ** The history parser *)

Lemma take_s_app (a b : string) : take_s (String.length a) (a +:+ b) = a.
Proof.
  induction a as [|c a IH]; [by destruct b|].
  rewrite app_cons. cbn [String.length take_s]. by rewrite IH.
Qed.

Lemma drop_s_app (a b : string) : drop_s (String.length a) (a +:+ b) = b.
Proof. induction a as [|c a IH]; [reflexivity | by rewrite app_cons]. Qed.

Lemma endswith_app (a p : string) : endswith (a +:+ p) p = true.
Proof.
  unfold endswith. rewrite length_app_s.
  replace (String.length a + String.length p - String.length p)
    with (String.length a) by lia.
  rewrite drop_s_app, String.eqb_refl, andb_true_r. apply Nat.leb_le. lia.
Qed.

(** [parseLabels] reads back a label list written as [(l1, l2, ...)], when
    no label holds a comma. *)
Theorem parseLabels_join (labels : list string) :
  labels <> [] -> Forall (fun l => has_char "," l = false) labels ->
  CCHistoryParser.parseLabels ("(" +:+ join ", " labels +:+ ")") = labels.
Proof.
  intros Hne Hall. unfold CCHistoryParser.parseLabels.
  assert (endswith ("(" +:+ join ", " labels +:+ ")") ")" = true) as ->
    by (rewrite <- app_assoc_s; apply endswith_app).
  assert (slice_1_m1 ("(" +:+ join ", " labels +:+ ")") = join ", " labels) as ->.
  { unfold slice_1_m1. rewrite app_cons, app_nil_l. cbn [String.length drop_s].
    rewrite length_app_s. cbn [String.length].
    replace (S (String.length (join ", " labels) + 1) - 2)
      with (String.length (join ", " labels)) by lia.
    apply take_s_app. }
  assert ((0 <? len ("(" +:+ join ", " labels +:+ ")"))%Z = true) as ->.
  { rewrite app_cons. unfold len. cbn [String.length]. apply Z.ltb_lt. lia. }
  assert (startswith ("(" +:+ join ", " labels +:+ ")") "(" = true) as ->
    by apply prefix_app.
  cbn [andb]. by apply (split_join "," " ").
Qed.

Lemma parseLabels_join_witness :
  CCHistoryParser.parseLabels ("(" +:+ join ", " ["REL1"; "REL 2"] +:+ ")")
  = ["REL1"; "REL 2"].
Proof.
  apply (parseLabels_join ["REL1"; "REL 2"]); [done|].
  repeat constructor.
Defined.

(** The branch names and the version number are read back from a revision
    written as [/b1/.../bk/n]; without the slash in front, the first name is
    taken for the empty one before it and left out. *)
Theorem revision_round_trip (bs : list string) (n : string) :
  Forall (fun x => has_char "/" x = false) (bs ++ [n]) ->
  CCHistoryParser.branchNames_of ("/" +:+ join "/" (bs ++ [n])) = bs
  /\ CCHistoryParser.revNumber_of ("/" +:+ join "/" (bs ++ [n])) = n
  /\ CCHistoryParser.branchNames_of (join "/" (bs ++ [n])) = tail bs
  /\ CCHistoryParser.revNumber_of (join "/" (bs ++ [n])) = n.
Proof.
  intros Hall.
  assert (bs ++ [n] <> []) as Hne by (by destruct bs).
  assert ("/" +:+ join "/" (bs ++ [n]) = join "/" ("" :: bs ++ [n])) as ->
    by (by rewrite join_cons).
  unfold CCHistoryParser.branchNames_of, CCHistoryParser.revNumber_of.
  rewrite !(split_join "/" "") by (done || by constructor).
  assert (forall l : list string, (0 <? length (l ++ [n])) = true) as Hpos.
  { intros l. apply Nat.ltb_lt. rewrite length_app. cbn. lia. }
  rewrite (Hpos bs). change ("" :: bs ++ [n]) with (("" :: bs) ++ [n]).
  rewrite (Hpos ("" :: bs)). rewrite !last_last. unfold inner.
  repeat split; try done.
  - cbn [app tail]. by rewrite removelast_last.
  - destruct bs as [|b bs]; [done|]. cbn [app tail]. by rewrite removelast_last.
Qed.

Lemma revision_round_trip_witness :
  CCHistoryParser.branchNames_of ("/" +:+ join "/" (["main"; "dev"] ++ ["3"]))
  = ["main"; "dev"]
  /\ CCHistoryParser.revNumber_of ("/" +:+ join "/" (["main"; "dev"] ++ ["3"])) = "3"
  /\ CCHistoryParser.branchNames_of (join "/" (["main"; "dev"] ++ ["3"]))
     = tail ["main"; "dev"]
  /\ CCHistoryParser.revNumber_of (join "/" (["main"; "dev"] ++ ["3"])) = "3".
Proof.
  apply (revision_round_trip ["main"; "dev"] "3"). repeat constructor.
Defined.

Lemma processLine_pending (lib : ParserLib) (line prevline : string) :
  let text := if (0 <? len prevline)%Z then line +:+ LF +:+ prevline else line in
  length (split HISTORY_FIELD_SEPARATOR text) < 10 ->
  CCHistoryParser.processLine lib line prevline = (inr None, text).
Proof.
  intros text Hlen. unfold CCHistoryParser.processLine. rewrite bind_get.
  fold text. apply Nat.ltb_lt in Hlen. rewrite Hlen. by rewrite bind_modify.
Qed.

Lemma processLine_complete (lib : ParserLib) (line prevline : string)
  (date : struct_time) :
  let text := if (0 <? len prevline)%Z then line +:+ LF +:+ prevline else line in
  length (split HISTORY_FIELD_SEPARATOR text) = 10 ->
  strptime lib (nth 0 (split HISTORY_FIELD_SEPARATOR text) "") = inr date ->
  CCHistoryParser.processLine lib line prevline
  = (inr (Some (CCHistoryParser.record_of_fields lib
                  (split HISTORY_FIELD_SEPARATOR text) date)), "").
Proof.
  intros text Hlen Hdate. unfold CCHistoryParser.processLine. rewrite bind_get.
  fold text. rewrite Hlen. cbn [Nat.ltb Nat.leb]. rewrite bind_modify.
  unfold CCHistoryParser.call, bind. by rewrite Hdate.
Qed.

Lemma forM_app {S A} (l1 l2 : list A) (body : A -> M S unit) (s : S) :
  forM (l1 ++ l2) body s = (exec forM l1 body; forM l2 body) s.
Proof.
  revert s; induction l1 as [|x l1 IH]; intros s; [reflexivity|].
  cbn [app forM]. unfold bind. destruct (body x s) as [[e|[]] s']; [done|].
  rewrite IH. reflexivity.
Qed.

Lemma join_last_nonempty (sep : string) (l : list string) :
  List.last l "" <> "" -> join sep l <> "".
Proof.
  induction l as [|x l IH]; [done|]. destruct l as [|y l]; [done|].
  intros Hl. rewrite join_cons by done. intros Heq.
  destruct x; [|done]. rewrite app_nil_l in Heq.
  destruct sep; [|done]. rewrite app_nil_l in Heq. by apply IH.
Qed.

Lemma len_pos (s : string) : s <> "" -> (0 <? len s)%Z = true.
Proof. destruct s; [done|]. intros _. apply Z.ltb_lt. unfold len. cbn. lia. Qed.

Section HistoryLoopFacts.
Context `{DictOrder}.
Variable env : Env.
Variable cfg : Config.
Variable lib : ParserLib.

(** Lines that complete no record are kept, joined, in [prevline]. *)
Lemma history_loop_pending (suf : list string) (c : Converter) :
  suf <> [] -> List.last suf "" <> "" -> all_pending suf = true ->
  history_loop env cfg lib (rev suf) ("", c) = (inr tt, (join LF suf, c)).
Proof.
  induction suf as [|x suf IH]; [done|]. intros _ Hlast Hpend.
  cbn [all_pending] in Hpend. apply andb_prop in Hpend as [Hx Hpend].
  apply Nat.ltb_lt in Hx. unfold history_loop in *.
  destruct suf as [|y suf].
  - cbn [rev app forM join] in *. unfold bind, on_fst. cbn [fst snd].
    pose proof (processLine_pending lib x "" Hx) as Hp.
    change (CCHistoryParser.processLine lib x "" = (inr None, x)) in Hp.
    by rewrite Hp.
  - change (rev (x :: y :: suf)) with (rev (y :: suf) ++ [x]).
    rewrite forM_app. unfold bind at 1. rewrite IH by done.
    cbn [forM]. unfold bind, on_fst. cbn [fst snd].
    pose proof (processLine_pending lib x (join LF (y :: suf))) as Hp.
    cbn zeta in Hp. rewrite len_pos in Hp by (by apply join_last_nonempty).
    rewrite <- join_cons in Hp by done. by rewrite (Hp Hx).
Qed.

(** The lines of one record of the history file, the comment's lines among
    them, read last line first: the loop of [main] joins them again, parses
    the record once the first line has come, and has the converter process
    that one record; the parser keeps nothing. *)
Theorem comment_lines_are_joined (line : string) (rest : list string)
  (date : struct_time) (c : Converter) :
  List.last (line :: rest) "" <> "" ->
  all_pending rest = true ->
  length (split HISTORY_FIELD_SEPARATOR (join LF (line :: rest))) = 10 ->
  strptime lib (nth 0 (split HISTORY_FIELD_SEPARATOR (join LF (line :: rest))) "")
  = inr date ->
  history_loop env cfg lib (rev (line :: rest)) ("", c)
  = let '(res, c') :=
      process env cfg
        (CCHistoryParser.record_of_fields lib
           (split HISTORY_FIELD_SEPARATOR (join LF (line :: rest))) date) c in
    (res, ("", c')).
Proof.
  intros Hlast Hpend Hlen Hdate.
  set (r := CCHistoryParser.record_of_fields lib _ date).
  destruct rest as [|y rest].
  - cbn [rev app join] in *. unfold history_loop. cbn [forM].
    unfold bind, on_fst, on_snd. cbn [fst snd].
    pose proof (processLine_complete lib line "" date Hlen Hdate) as Hp.
    change (CCHistoryParser.processLine lib line "" = (inr (Some r), "")) in Hp.
    rewrite Hp. cbn [fst snd].
    by destruct (process env cfg r c) as [[e|[]] c'].
  - change (rev (line :: y :: rest)) with (rev (y :: rest) ++ [line]).
    unfold history_loop. rewrite forM_app. unfold bind at 1.
    fold (history_loop env cfg lib (rev (y :: rest))).
    rewrite history_loop_pending by done.
    cbn [forM]. unfold bind, on_fst, on_snd. cbn [fst snd].
    pose proof (processLine_complete lib line (join LF (y :: rest)) date) as Hp.
    cbn zeta in Hp. rewrite len_pos in Hp by (by apply join_last_nonempty).
    rewrite <- join_cons in Hp by done. specialize (Hp Hlen Hdate).
    fold r in Hp. rewrite Hp. cbn [fst snd].
    by destruct (process env cfg r c) as [[e|[]] c'].
Qed.

End HistoryLoopFacts.

Lemma comment_lines_are_joined_witness :
  history_loop (H := canonical_order) example_env example_cfg example_lib
    (rev three_line_record) ("", fresh_converter)
  = let '(res, c') :=
      process (H := canonical_order) example_env example_cfg
        (CCHistoryParser.record_of_fields example_lib
           (split HISTORY_FIELD_SEPARATOR (join LF three_line_record)) [15%Z])
        fresh_converter in
    (res, ("", c')).
Proof.
  apply (comment_lines_are_joined (H := canonical_order) example_env example_cfg
           example_lib
           "20090729.162424@@@src/bar.txt@@@/main/dev/3@@@checkin@@@(REL1, REL2)@@@@@@version@@@alice@@@fix the parser"
           [""; "and the tests@@@"] [15%Z] fresh_converter).
  - vm_compute. discriminate.
  - vm_compute. reflexivity.
  - vm_compute. reflexivity.
  - vm_compute. reflexivity.
Defined.

(** ** Ignored directories *)

Section IgnoredFacts.
Context `{DictOrder}.
Variable env : Env.
Variable cfg : Config.

Lemma isIgnored_empty_prefix (c : Converter) (dirs : list string) (path : string) :
  ignoredDirectories c = Some dirs -> "" ∈ dirs -> isIgnored c path = true.
Proof.
  intros Hd Hin. unfold isIgnored. rewrite Hd. apply existsb_exists.
  exists "". split; [by apply list_elem_of_In|]. by destruct path.
Qed.

(** A blank line in the file of ignored directories is read as the empty
    prefix, which every path starts with: the converter then drops every
    record, and neither its state nor the dump changes. *)
Theorem blank_line_ignores_everything (lines : list string) (c : Converter)
  (r : CCRecord.t) :
  existsb (fun line => String.eqb (strip line) "") lines = true ->
  ignoredDirectories c = readList (Some lines) ->
  process env cfg r c = (inr tt, c).
Proof.
  intros Hblank Hdirs. unfold process.
  destruct (String.eqb _ "."); [done|]. rewrite bind_get.
  destruct (match branches c with Some _ => _ | None => _ end); [done|].
  rewrite (isIgnored_empty_prefix c (map strip lines)); [done | done |].
  apply existsb_exists in Hblank as (line & Hin & Heq).
  apply String.eqb_eq in Heq. rewrite <- Heq.
  apply list_elem_of_fmap. exists line. split; [done|]. by apply list_elem_of_In.
Qed.

End IgnoredFacts.

Lemma blank_line_ignores_everything_witness :
  process (H := canonical_order) example_env example_cfg foo_main_0
    (Converter_new None None (readList (Some ["vendor/" +:+ LF; LF])) ∅)
  = (inr tt, Converter_new None None (readList (Some ["vendor/" +:+ LF; LF])) ∅).
Proof.
  apply (blank_line_ignores_everything (H := canonical_order) example_env
           example_cfg ["vendor/" +:+ LF; LF]).
  - vm_compute. reflexivity.
  - reflexivity.
Defined.

(** ** What [process] does with a record it does not drop *)

Section ProcessFacts.
Context `{DictOrder}.
Variable env : Env.
Variable cfg : Config.

Lemma process_passes (r : CCRecord.t) (c : Converter) :
  passes_filters r c = true ->
  process env cfg r c = process_cases env cfg (with_branch r) (prepared env cfg r c).
Proof.
  unfold passes_filters, process. intros Hp.
  apply andb_prop in Hp as [Hp Hig]. apply andb_prop in Hp as [Hdot Hbr].
  apply negb_true_iff in Hdot, Hig. rewrite Hdot, bind_get.
  replace (match branches c with
           | Some bs => negb (bool_decide (svnbranch_of (CCRecord.branchNames r) ∈ bs))
           | None => false
           end) with false
    by (destruct (branches c); [by rewrite Hbr | done]).
  cbn [CCRecord.path CCRecord.with_svn]. rewrite Hig.
  by rewrite !bind_modify.
Qed.

(** A symbolic-link record that is not dropped stops the conversion: the
    name [PUT_CCLINKS_TO_BRANCH] is read and nothing defines it.  By then the
    revision properties are set and the stream is enabled if the record is
    after the cutoff date; no call of the serializer is made, no byte is
    written, the file sets and the revision counter are as they were. *)
Theorem symbolic_link_raises_NameError (r : CCRecord.t) (c : Converter) :
  passes_filters r c = true ->
  CCRecord.type r = "symbolic link" ->
  CCRecord.operation r = "mkslink" ->
  process env cfg r c
  = (inl (NameError "PUT_CCLINKS_TO_BRANCH"), prepared env cfg r c)
  /\ history (out (prepared env cfg r c)) = history (out c)
  /\ file (out (prepared env cfg r c)) = file (out c)
  /\ svnTree (prepared env cfg r c) = svnTree c
  /\ svnRevNum (prepared env cfg r c) = svnRevNum c.
Proof.
  intros Hp Ht Ho. rewrite process_passes by done. split.
  - unfold process_cases. cbn [CCRecord.type CCRecord.operation with_branch
      CCRecord.with_svn]. by rewrite Ht, Ho.
  - unfold prepared, setRevisionProps, enable_after_cutoff.
    destruct (DUMP_SINCE_DATE cfg); [destruct (_ && _)|]; by repeat split.
Qed.

End ProcessFacts.

Lemma symbolic_link_raises_NameError_witness :
  process (H := canonical_order) example_env example_cfg link_record after_foo
  = (inl (NameError "PUT_CCLINKS_TO_BRANCH"),
     prepared example_env example_cfg link_record after_foo)
  /\ history (out (prepared example_env example_cfg link_record after_foo))
     = history (out after_foo)
  /\ file (out (prepared example_env example_cfg link_record after_foo))
     = file (out after_foo)
  /\ svnTree (prepared example_env example_cfg link_record after_foo)
     = svnTree after_foo
  /\ svnRevNum (prepared example_env example_cfg link_record after_foo)
     = svnRevNum after_foo.
Proof.
  apply (symbolic_link_raises_NameError (H := canonical_order) example_env
           example_cfg link_record after_foo); [vm_compute| |]; reflexivity.
Defined.

(** ** Effects of the serializer on a disabled stream *)

Section MuteStream.
Context `{DictOrder}.
Variable env : Env.

Lemma disabled_write (s : string) (o : WriteStream) :
  enabled o = false -> WriteStream.write s o = o.
Proof. unfold WriteStream.write. by intros ->. Qed.

Lemma disabled_writeItem (kv : string * string) (o : WriteStream) :
  enabled o = false -> SvnProperties.writeItem kv o = o.
Proof.
  destruct kv as [k v], o as [e fl h]. cbn [enabled]. intros ->.
  unfold SvnProperties.writeItem. rewrite !write_off.
  destruct (truthy v); by rewrite ?write_off.
Qed.

Lemma disabled_writeContent (p : SvnProperties) (o : WriteStream) :
  enabled o = false -> SvnProperties.writeContent p o = o.
Proof.
  intros He. unfold SvnProperties.writeContent.
  assert (fold_left (fun o kv => SvnProperties.writeItem kv o)
            (iteritems (keyset p)) o = o) as ->; [|by apply disabled_write].
  induction (iteritems (keyset p)) as [|kv l IH]; [done|]. cbn [fold_left].
  by rewrite disabled_writeItem.
Qed.

Lemma muteM_ret {A} (a : A) : muteM (ret a).
Proof. by intros o. Qed.

Lemma muteM_raise {A} (e : PyExc) : muteM (@raise _ A e).
Proof. by intros o. Qed.

Lemma muteM_bind {A B} (m : M WriteStream A) (k : A -> M WriteStream B) :
  muteM m -> (forall a, muteM (k a)) -> muteM (bind m k).
Proof.
  intros Hm Hk o He. unfold bind. destruct (Hm o He) as [He' Hf'].
  destruct (m o) as [[e|a] o']; cbn [snd] in *; [done|].
  destruct (Hk a o' He') as [-> ->]. done.
Qed.

Lemma muteM_out_write (s : string) : muteM (out_write s).
Proof. intros o He. unfold out_write, modify. cbn [snd]. by rewrite disabled_write. Qed.

Lemma muteM_log (call : DumpCall) : muteM (modify (WriteStream.log call)).
Proof. by intros o He. Qed.

Lemma muteM_writeLength (p : SvnProperties) :
  muteM (modify (SvnProperties.writeLength p)).
Proof. apply muteM_out_write. Qed.

Lemma muteM_props (p : SvnProperties) :
  muteM (modify (SvnProperties.writeContent p)).
Proof. intros o He. unfold modify. cbn [snd]. by rewrite disabled_writeContent. Qed.

Lemma muteM_writeNodePath (p : string) : muteM (writeNodePath env p).
Proof.
  unfold writeNodePath. destruct (toUTF8 env _);
    [apply muteM_out_write | apply muteM_raise].
Qed.

Lemma muteM_writeContent (content : string) : muteM (writeContent content).
Proof.
  intros o He. rewrite writeContent_spec. cbn [snd]. by rewrite disabled_write.
Qed.

Lemma muteM_need {A} (x : option A) : muteM (need x).
Proof. destruct x; [apply muteM_ret | apply muteM_raise]. Qed.

Ltac mute_steps :=
  repeat lazymatch goal with
  | |- muteM (bind _ _) => apply muteM_bind; [|intros ?]
  | |- muteM (out_write _) => apply muteM_out_write
  | |- muteM (writeNodePath _ _) => apply muteM_writeNodePath
  | |- muteM (writeContent _) => apply muteM_writeContent
  | |- muteM (need _) => apply muteM_need
  | |- muteM (ret _) => apply muteM_ret
  | |- muteM (raise _) => apply muteM_raise
  | |- muteM (modify (WriteStream.log _)) => apply muteM_log
  | |- muteM (modify (SvnProperties.writeLength _)) => apply muteM_writeLength
  | |- muteM (modify (SvnProperties.writeContent _)) => apply muteM_props
  | |- muteM (match toUTF8 ?e ?x with _ => _ end) => destruct (toUTF8 e x)
  end.

Lemma muteM_dumpSvnDir (p : string) : muteM (dumpSvnDir env p).
Proof. unfold dumpSvnDir, writeNodeKind, writeNodeAction. mute_steps. Qed.

Lemma muteM_dumpSvnCopy (kind from : string) (rev : Z) (target : string) :
  muteM (dumpSvnCopy env kind from rev target).
Proof. unfold dumpSvnCopy, writeNodeKind, writeNodeAction. mute_steps. Qed.

Lemma muteM_dumpSvnFile (action path : string) (props : SvnProperties)
  (content : string) : muteM (dumpSvnFile env action path props content).
Proof.
  unfold dumpSvnFile, writeNodeKind, writeNodeAction, writeTextContentLength,
    writeContentLength.
  mute_steps.
Qed.

Lemma appendsM_ret {A} (a : A) : appendsM (ret a).
Proof. intros o. exists "". by rewrite app_empty_r. Qed.

Lemma appendsM_raise {A} (e : PyExc) : appendsM (@raise _ A e).
Proof. intros o. exists "". by rewrite app_empty_r. Qed.

Lemma appendsM_bind {A B} (m : M WriteStream A) (k : A -> M WriteStream B) :
  appendsM m -> (forall a, appendsM (k a)) -> appendsM (bind m k).
Proof.
  intros Hm Hk o. unfold bind. destruct (Hm o) as [s1 Hs1].
  destruct (m o) as [[e|a] o']; cbn [snd] in *; [by exists s1|].
  destruct (Hk a o') as [s2 Hs2]. exists (s1 +:+ s2).
  by rewrite Hs2, Hs1, app_assoc_s.
Qed.

Lemma write_appends (s : string) (o : WriteStream) :
  exists t, file (WriteStream.write s o) = file o +:+ t.
Proof.
  destruct o as [[] fl h]; [by exists s|]. exists "". by rewrite app_empty_r.
Qed.

Lemma appendsM_out_write (s : string) : appendsM (out_write s).
Proof. intros o. apply write_appends. Qed.

Lemma appendsM_log (call : DumpCall) : appendsM (modify (WriteStream.log call)).
Proof. intros o. exists "". by rewrite app_empty_r. Qed.

Lemma appendsM_writeLength (p : SvnProperties) :
  appendsM (modify (SvnProperties.writeLength p)).
Proof. apply appendsM_out_write. Qed.

Lemma writeItem_appends (kv : string * string) (o : WriteStream) :
  exists t, file (SvnProperties.writeItem kv o) = file o +:+ t.
Proof.
  destruct kv as [k v], o as [[] fl h]; unfold SvnProperties.writeItem;
    rewrite ?write_on, ?write_off; destruct (truthy v);
    rewrite ?write_on, ?write_off; cbn [file];
    rewrite ?app_assoc_s; eexists; try reflexivity; by rewrite app_empty_r.
Qed.

Lemma writeContent_appends (p : SvnProperties) (o : WriteStream) :
  exists t, file (SvnProperties.writeContent p o) = file o +:+ t.
Proof.
  unfold SvnProperties.writeContent.
  assert (exists t, file (fold_left (fun o kv => SvnProperties.writeItem kv o)
                            (iteritems (keyset p)) o) = file o +:+ t) as [t Ht].
  { revert o. induction (iteritems (keyset p)) as [|kv l IH]; intros o.
    - exists "". by rewrite app_empty_r.
    - cbn [fold_left]. destruct (IH (SvnProperties.writeItem kv o)) as [t2 Ht2].
      destruct (writeItem_appends kv o) as [t1 Ht1]. exists (t1 +:+ t2).
      by rewrite Ht2, Ht1, app_assoc_s. }
  destruct (write_appends ("PROPS-END" +:+ LF)
              (fold_left (fun o kv => SvnProperties.writeItem kv o)
                 (iteritems (keyset p)) o)) as [t' Ht'].
  exists (t +:+ t'). by rewrite Ht', Ht, app_assoc_s.
Qed.

Lemma appendsM_props (p : SvnProperties) :
  appendsM (modify (SvnProperties.writeContent p)).
Proof. intros o. apply writeContent_appends. Qed.

Lemma appendsM_writeNodePath (p : string) : appendsM (writeNodePath env p).
Proof.
  unfold writeNodePath. destruct (toUTF8 env _);
    [apply appendsM_out_write | apply appendsM_raise].
Qed.

Lemma appendsM_writeContent (content : string) : appendsM (writeContent content).
Proof. intros o. rewrite writeContent_spec. apply write_appends. Qed.

Lemma appendsM_need {A} (x : option A) : appendsM (need x).
Proof. destruct x; [apply appendsM_ret | apply appendsM_raise]. Qed.

Ltac appends_steps :=
  repeat lazymatch goal with
  | |- appendsM (bind _ _) => apply appendsM_bind; [|intros ?]
  | |- appendsM (out_write _) => apply appendsM_out_write
  | |- appendsM (writeNodePath _ _) => apply appendsM_writeNodePath
  | |- appendsM (writeContent _) => apply appendsM_writeContent
  | |- appendsM (need _) => apply appendsM_need
  | |- appendsM (ret _) => apply appendsM_ret
  | |- appendsM (raise _) => apply appendsM_raise
  | |- appendsM (modify (WriteStream.log _)) => apply appendsM_log
  | |- appendsM (modify (SvnProperties.writeLength _)) => apply appendsM_writeLength
  | |- appendsM (modify (SvnProperties.writeContent _)) => apply appendsM_props
  | |- appendsM (match toUTF8 ?e ?x with _ => _ end) => destruct (toUTF8 e x)
  end.

Lemma appendsM_dumpSvnDir (p : string) : appendsM (dumpSvnDir env p).
Proof. unfold dumpSvnDir, writeNodeKind, writeNodeAction. appends_steps. Qed.

Lemma appendsM_dumpSvnCopy (kind from : string) (rev : Z) (target : string) :
  appendsM (dumpSvnCopy env kind from rev target).
Proof. unfold dumpSvnCopy, writeNodeKind, writeNodeAction. appends_steps. Qed.

Lemma appendsM_dumpSvnFile (action path : string) (props : SvnProperties)
  (content : string) : appendsM (dumpSvnFile env action path props content).
Proof.
  unfold dumpSvnFile, writeNodeKind, writeNodeAction, writeTextContentLength,
    writeContentLength.
  appends_steps.
Qed.

Lemma dump_appends (p : SvnProperties) (o : WriteStream) :
  exists t, file (SvnProperties.dump p o) = file o +:+ t.
Proof.
  unfold SvnProperties.dump, SvnProperties.writeLength.
  set (o1 := WriteStream.write _ o). set (o2 := WriteStream.write _ o1).
  set (o3 := WriteStream.write _ o2). set (o4 := SvnProperties.writeContent p o3).
  destruct (write_appends (LF +:+ LF) o4) as [t5 H5].
  destruct (writeContent_appends p o3) as [t4 H4]. fold o4 in H4.
  destruct (write_appends LF o2) as [t3 H3]. fold o3 in H3.
  destruct (write_appends ("Content-length: " +:+ str (totalLen p) +:+ LF) o1)
    as [t2 H2]. fold o2 in H2.
  destruct (write_appends ("Prop-content-length: " +:+ str (totalLen p) +:+ LF) o)
    as [t1 H1]. fold o1 in H1.
  exists (t1 +:+ t2 +:+ t3 +:+ t4 +:+ t5).
  by rewrite H5, H4, H3, H2, H1, !app_assoc_s.
Qed.

End MuteStream.

(** ** Effects of the converter's methods on the calls, the counter and the
    property sets *)

Section StepEffects.
Context `{DictOrder}.
Variable env : Env.
Variable cfg : Config.
Variable P : DumpCall -> Prop.
Hypothesis Hdir : forall p, P (CallSvnDir p).
Hypothesis Hcopy : forall kind from rev target, P (CallSvnCopy kind from rev target).
Hypothesis Hhdr : forall n p, P (CallRevisionHeader n p).

#[global] Instance effects_refl : Reflexive (effects P).
Proof.
  intros c. split; [|done]. exists []. rewrite app_nil_r.
  repeat split; try done. cbn. lia.
Qed.

#[global] Instance effects_trans : Transitive (effects P).
Proof.
  intros c1 c2 c3 [(l1 & Hh1 & HP1 & Hn1 & Hr1 & Hc1) Hp1]
    [(l2 & Hh2 & HP2 & Hn2 & Hr2 & Hc2) Hp2].
  split; [|by auto]. exists (l1 ++ l2).
  assert (header_numbers (l1 ++ l2) = header_numbers l1 ++ header_numbers l2)
    as Happ by apply omap_app.
  rewrite Hh2, Hh1, app_assoc, Happ, length_app, Nat2Z.inj_add.
  repeat split.
  - by apply Forall_app.
  - rewrite seqZ_app by lia. rewrite <- Hn1. f_equal. by rewrite <- Hr1.
  - lia.
  - intros Hok. apply Forall_app. auto.
Qed.

#[global] Instance silent_refl : Reflexive silent.
Proof. by intros c He. Qed.

#[global] Instance silent_trans : Transitive silent.
Proof.
  intros c1 c2 c3 H12 H23 He. destruct (H12 He) as [He2 Hf2].
  destruct (H23 He2) as [He3 Hf3]. split; [done | congruence].
Qed.

#[global] Instance appends_refl : Reflexive appends.
Proof. intros c. exists "". by rewrite app_empty_r. Qed.

#[global] Instance appends_trans : Transitive appends.
Proof.
  intros c1 c2 c3 [s1 H1] [s2 H2]. exists (s1 +:+ s2).
  by rewrite H2, H1, app_assoc_s.
Qed.

#[global] Instance steps_refl : Reflexive (steps P).
Proof. by intros c. Qed.

#[global] Instance steps_trans : Transitive (steps P).
Proof.
  intros c1 c2 c3 (He1 & Hs1 & Ha1) (He2 & Hs2 & Ha2).
  split; [by etrans|]. split; by etrans.
Qed.

(** A step that touches neither the stream, the counter nor the property
    sets. *)
Lemma steps_plain (f : Converter -> Converter) :
  (forall c, out (f c) = out c) -> (forall c, svnRevNum (f c) = svnRevNum c) ->
  (forall c, revProps (f c) = revProps c) ->
  (forall c, emptyProps (f c) = emptyProps c) ->
  (forall c, autoProps (f c) = autoProps c) ->
  pres (steps P) (modify f).
Proof.
  intros Ho Hn Hr He Ha c. cbn [modify snd]. split; [|split].
  - split.
    + exists []. rewrite Ho, Hn, app_nil_r. repeat split; try done. cbn. lia.
    + unfold props_ok. by rewrite Hr, He, Ha.
  - intros Hen. by rewrite Ho.
  - unfold appends. rewrite Ho. exists "". by rewrite app_empty_r.
Qed.

(** A serializer call that is no revision header. *)
Lemma steps_lift_call {A} (m : M WriteStream A) (call : DumpCall) (c : Converter) :
  logs m call -> muteM m -> appendsM m -> P call -> header_numbers [call] = [] ->
  (props_ok c -> call_props_ok call) ->
  steps P c (lift_out m c).2.
Proof.
  intros Hlog Hmute Happ HP Hnh Hok. rewrite lift_out_eq. cbn [snd].
  split; [|split; [|apply Happ]].
  - split; [|done]. exists [call]. cbn [out set_out svnRevNum].
    destruct (Hlog (out c)) as [-> _]. rewrite Hnh.
    repeat split; try done.
    + by constructor.
    + cbn. lia.
    + intros Hp. constructor; auto.
  - intros He. cbn [out set_out]. by apply Hmute.
Qed.

Lemma steps_lift_dir (p : string) : pres (steps P) (lift_out (dumpSvnDir env p)).
Proof.
  intros c. apply (steps_lift_call _ (CallSvnDir p));
    [apply logs_dumpSvnDir | apply muteM_dumpSvnDir | apply appendsM_dumpSvnDir
    | done..].
Qed.

Lemma steps_lift_copy (kind from : string) (rev : Z) (target : string) :
  pres (steps P) (lift_out (dumpSvnCopy env kind from rev target)).
Proof.
  intros c. apply (steps_lift_call _ (CallSvnCopy kind from rev target));
    [apply logs_dumpSvnCopy | apply muteM_dumpSvnCopy
    | apply appendsM_dumpSvnCopy | done..].
Qed.

Lemma dumpRevisionHeader_appends (c : Converter) :
  appends c (dumpRevisionHeader c).
Proof.
  destruct c as [ap ep lb cl br ig o tr cc n rp].
  unfold appends, dumpRevisionHeader, set_out, set_svnRevNum.
  cbn [out svnRevNum revProps autoProps emptyProps labels checklabels branches
       ignoredDirectories svnTree ccTree].
  destruct (dump_appends rp
              (WriteStream.write ("Revision-number: " +:+ str n +:+ LF)
                 (WriteStream.log (CallRevisionHeader n rp) o))) as [t2 H2].
  destruct (write_appends ("Revision-number: " +:+ str n +:+ LF)
              (WriteStream.log (CallRevisionHeader n rp) o)) as [t1 H1].
  exists (t1 +:+ t2). rewrite H2, H1. cbn [file WriteStream.log].
  by rewrite app_assoc_s.
Qed.

Lemma steps_header : pres (steps P) (modify dumpRevisionHeader).
Proof.
  intros c. cbn [modify snd]. split; [|split].
  - destruct (dumpRevisionHeader_effect c) as (o' & -> & Hh & _). split.
    + exists [CallRevisionHeader (svnRevNum c) (revProps c)].
      cbn [out set_out set_svnRevNum svnRevNum header_numbers omap length].
      repeat split; try done.
      * by constructor.
      * intros (Hr & _). by constructor.
    + done.
  - intros He. split; [|by apply dumpRevisionHeader_disabled].
    destruct (dumpRevisionHeader_effect c) as (o' & -> & _ & Hen).
    cbn [out set_out set_svnRevNum]. by rewrite Hen.
  - apply dumpRevisionHeader_appends.
Qed.

Hypothesis Hfile : forall action path props content,
  P (CallSvnFile action path props content).

Lemma props_at_ok (ref : PropsRef) (c : Converter) :
  props_ok c -> consistent (props_at ref c).
Proof.
  intros (_ & He & Ha). destruct ref as [pattern|]; [|done]. cbn [props_at].
  destruct (autoProps c !! pattern) as [p|] eqn:Hp; [|apply consistent_new].
  by apply (Ha pattern).
Qed.

Lemma set_props_ok (ref : PropsRef) (p : SvnProperties) (c : Converter) :
  consistent p -> props_ok c -> props_ok (set_props ref p c).
Proof.
  intros Hp (Hr & He & Ha). destruct ref as [pattern|]; repeat split; try done.
  cbn [set_props autoProps]. by apply map_Forall_insert_2.
Qed.

Ltac step := apply pres_bind; try apply _.
Ltac stop := apply pres_ret; apply _.

Lemma steps_fileSet_add (k p : string) : pres (steps P) (fileSet_add k p).
Proof. by apply steps_plain. Qed.

Lemma steps_createParentDirs (depth : nat) (k path : string) :
  pres (steps P) (createParentDirs env depth k path).
Proof.
  revert path. induction depth as [|depth IH]; intros path;
    cbn [createParentDirs]; [apply pres_raise; apply _|].
  step; [apply pres_get; apply _|]. intros c0.
  destruct (_ && _); [|stop].
  step; [apply IH|]. intros _. step; [apply pres_get; apply _|]. intros c1.
  step; [apply steps_lift_dir | intros _; apply steps_fileSet_add].
Qed.

Lemma steps_getTagFileset (label : string) :
  pres (steps P) (getTagFileset env label).
Proof.
  unfold getTagFileset. step; [apply pres_get; apply _|]. intros c0.
  destruct (svnTree c0 !! label); [stop|].
  step; [by apply steps_plain|]. intros _.
  step; [apply steps_lift_dir | intros _; stop].
Qed.

Lemma steps_processLabels_loop (r : CCRecord.t) (u : bool) (rev : Z)
  (first : bool) (ls : list string) :
  pres (steps P) (processLabels_loop env r u rev first ls).
Proof.
  revert first. induction ls as [|a ls IH]; intros first;
    cbn [processLabels_loop]; [stop|].
  step; [apply pres_get; apply _|]. intros c0.
  destruct (label_allowed c0 a); [|apply IH].
  step; [destruct first; [apply steps_header | stop]|]. intros _.
  step; [apply steps_getTagFileset|]. intros k.
  step; [apply steps_createParentDirs|]. intros _.
  step; [apply pres_get; apply _|]. intros c1.
  step; [apply steps_lift_copy|]. intros _.
  step; [|intros _; apply IH].
  destruct (_ && u); [by apply steps_plain | stop].
Qed.

Lemma steps_processLabels (r : CCRecord.t) (u : bool) :
  pres (steps P) (processLabels env r u).
Proof.
  unfold processLabels. step; [by apply steps_plain|]. intros _.
  step; [apply pres_get; apply _|]. intros c0. apply steps_processLabels_loop.
Qed.

Lemma steps_dumpFile (r : CCRecord.t) (action : string) (symlink : bool) :
  pres (steps P) (dumpFile env r action symlink).
Proof.
  intros c. unfold dumpFile. unfold bind at 1.
  destruct (getFile env _ _ symlink) as [e|content]; [reflexivity|].
  rewrite bind_get, bind_if_modify, bind_get.
  set (ref := SvnAutoProps.getProps env (autoProps c) (CCRecord.svnpath r)).
  set (c2 := if symlink && _ then _ else c).
  assert (steps P c c2) as Hc2.
  { unfold c2. destruct (_ && _); [|reflexivity]. split; [|split].
    - split.
      + exists []. rewrite app_nil_r.
        destruct ref; repeat split; try done; cbn; lia.
      + intros Hok. apply set_props_ok; [|done].
        apply consistent_set. by apply props_at_ok.
    - intros He. by destruct ref.
    - exists "". rewrite app_empty_r. by destruct ref. }
  etrans; [exact Hc2|].
  apply (steps_lift_call _ _ c2 (logs_dumpSvnFile env _ _ _ _)
           (muteM_dumpSvnFile env _ _ _ _) (appendsM_dumpSvnFile env _ _ _ _));
    try done.
  apply props_at_ok.
Qed.

Lemma steps_copy_branch (k parent : string) (rev : Z) (pfs : FileSet) :
  pres (steps P) (copy_branch env k parent rev pfs).
Proof.
  unfold copy_branch. step; [by apply steps_plain|]. intros _.
  apply steps_lift_copy.
Qed.

Lemma steps_create_branch_anyway (k : string) :
  pres (steps P) (create_branch_anyway env cfg k).
Proof.
  unfold create_branch_anyway. destruct (_ || _); [|apply pres_raise; apply _].
  step; [by apply steps_plain | intros _; apply steps_lift_dir].
Qed.

Lemma steps_process_known (r : CCRecord.t) (fs : FileSet) :
  pres (steps P) (process_known_branch env r fs).
Proof.
  unfold process_known_branch. step; [apply steps_header|]. intros _.
  step; [|intros _; apply steps_processLabels].
  destruct (FileSet.contains _ _); [apply steps_dumpFile|].
  step; [apply steps_createParentDirs|]. intros _.
  step; [apply steps_dumpFile | intros _; apply steps_fileSet_add].
Qed.

Lemma steps_process_new (r : CCRecord.t) :
  pres (steps P) (process_new_branch env cfg r).
Proof.
  unfold process_new_branch. step; [apply pres_get; apply _|]. intros c0.
  step; [apply steps_header|]. intros _.
  step.
  { destruct (_ <? 2).
    - step; [by apply steps_plain | intros _; apply steps_lift_dir].
    - step; [apply pres_get; apply _|]. intros c1.
      destruct (svnTree c1 !! _) as [pfs|]; [|apply steps_create_branch_anyway].
      destruct (FileSet.nonempty pfs);
        [apply steps_copy_branch | apply steps_create_branch_anyway]. }
  intros _. step; [apply pres_get; apply _|]. intros c2.
  step; [|intros _; apply steps_processLabels].
  destruct (FileSet.contains _ _).
  - destruct (negb _); [apply steps_dumpFile | stop].
  - step; [apply steps_createParentDirs|]. intros _.
    step; [apply steps_dumpFile | intros _; apply steps_fileSet_add].
Qed.

Lemma steps_process_directory (r : CCRecord.t) :
  pres (steps P) (process_directory env r).
Proof.
  unfold process_directory. step; [apply pres_get; apply _|]. intros c0.
  destruct (svnTree c0 !! _) as [fs|]; [|stop].
  destruct (FileSet.nonempty fs); [|stop].
  step; [|intros _; by apply steps_plain].
  destruct (FileSet.contains _ fs); [stop|].
  step; [apply steps_header|]. intros _.
  step; [apply steps_createParentDirs|]. intros _.
  step; [apply steps_lift_dir | intros _; apply steps_fileSet_add].
Qed.

Lemma steps_process_cases (r : CCRecord.t) :
  pres (steps P) (process_cases env cfg r).
Proof.
  unfold process_cases.
  destruct (String.eqb (CCRecord.type r) "version").
  { destruct (is_version_op _); [|stop].
    step; [apply pres_get; apply _|]. intros c0.
    destruct (svnTree c0 !! _); [apply steps_process_known | apply steps_process_new]. }
  destruct (String.eqb (CCRecord.type r) "directory version").
  { destruct (is_version_op _); [apply steps_process_directory | stop]. }
  destruct (_ && _); [apply pres_raise; apply _ | stop].
Qed.

Lemma props_ok_setRevisionProps (r : CCRecord.t) (c : Converter) :
  props_ok c -> props_ok (setRevisionProps env r c).
Proof.
  intros (Hr & He & Ha). repeat split; try done.
  unfold setRevisionProps. cbn [revProps set_revProps].
  by repeat apply consistent_set.
Qed.

(** [process] as a whole: it can enable the stream. *)
Lemma effects_process (r : CCRecord.t) : pres (effects P) (process env cfg r).
Proof.
  intros c. unfold process.
  destruct (String.eqb _ "."); [reflexivity|]. rewrite bind_get.
  destruct (match branches c with Some _ => _ | None => _ end); [reflexivity|].
  destruct (isIgnored c _); [reflexivity|]. rewrite !bind_modify.
  etrans; [|apply steps_process_cases]. split.
  - exists []. rewrite app_nil_r. unfold setRevisionProps, enable_after_cutoff.
    destruct (DUMP_SINCE_DATE cfg); [destruct (_ && _)|];
      repeat split; try done; cbn; lia.
  - intros Hok. apply props_ok_setRevisionProps.
    unfold enable_after_cutoff.
    destruct (DUMP_SINCE_DATE cfg); [destruct (_ && _)|]; done.
Qed.

(** [process] for a record that is not after the cutoff date. *)
Lemma silent_process (r : CCRecord.t) (since : struct_time) :
  DUMP_SINCE_DATE cfg = Some since -> tuple_gt (CCRecord.date r) since = false ->
  pres silent (process env cfg r).
Proof.
  intros Hsince Hdate c. unfold process.
  destruct (String.eqb _ "."); [reflexivity|]. rewrite bind_get.
  destruct (match branches c with Some _ => _ | None => _ end); [reflexivity|].
  destruct (isIgnored c _); [reflexivity|]. rewrite !bind_modify.
  etrans; [|apply steps_process_cases].
  unfold enable_after_cutoff. rewrite Hsince.
  cbn [CCRecord.date CCRecord.with_svn]. rewrite Hdate, andb_false_r.
  by intros He.
Qed.

Lemma steps_initializeFile : pres (steps P) (initializeFile env cfg).
Proof.
  unfold initializeFile. step.
  { intros c. rewrite lift_out_eq. cbn [snd]. split; [|split].
    - split; [|done]. exists []. rewrite app_nil_r. cbn [out set_out svnRevNum].
      destruct (quietM_out_write ("SVN-fs-dump-format-version: 2" +:+ LF +:+ LF)
                  (out c)) as [-> _].
      repeat split; try done. cbn. lia.
    - intros He. cbn [out set_out]. by apply muteM_out_write.
    - apply appendsM_out_write. }
  intros _. step.
  { destruct (DUMP_SINCE_DATE cfg); [|stop]. intros c. cbn [modify snd].
    split; [|split].
    - split; [|done]. exists []. rewrite app_nil_r. repeat split; try done.
      cbn. lia.
    - by intros He.
    - exists "". by rewrite app_empty_r. }
  intros _. destruct (match SVN_CREATE_BRANCHES_TAGS_DIRS cfg with _ => _ end);
    [|stop].
  step; [apply steps_header|]. intros _.
  step; [apply steps_lift_dir | intros _; apply steps_lift_dir].
Qed.

End StepEffects.

(** ** Invariants of a run *)

Lemma parseProps_consistent (s : string) : consistent (SvnAutoProps.parseProps s).
Proof.
  unfold SvnAutoProps.parseProps. generalize consistent_new.
  generalize SvnProperties.new as p.
  induction (split ";" s) as [|avp l IH]; intros p Hp; [done|].
  cbn [fold_left]. apply IH. by apply consistent_set.
Qed.

Lemma load_consistent (lines : list string) :
  map_Forall (fun _ p => consistent p) (SvnAutoProps.load lines).
Proof.
  unfold SvnAutoProps.load.
  assert (map_Forall (fun _ p => consistent p) (∅ : gmap string SvnProperties))
    as Hempty by apply map_Forall_empty.
  revert Hempty. generalize (∅ : gmap string SvnProperties) as m.
  induction lines as [|line lines IH]; intros m Hm; [done|].
  cbn [fold_left]. apply IH. unfold SvnAutoProps.load_line.
  destruct (SvnAutoProps.line_def line) as [[pattern s]|]; [|done].
  apply map_Forall_insert_2; [apply parseProps_consistent | done].
Qed.

Section RunInvariants.
Context `{DictOrder}.
Variable env : Env.
Variable cfg : Config.

Lemma effects_run (records : list CCRecord.t) :
  pres (effects (fun _ => True)) (fun c => run env cfg records c).
Proof.
  unfold run. apply pres_bind; try apply _.
  { intros c. by apply steps_initializeFile. }
  intros _. apply pres_forM; try apply _. intros r. by apply effects_process.
Qed.

(** The revision headers of a run are numbered 1, 2, 3, ... in the order in
    which they are made, whether the stream was enabled or not and whether
    the run ended normally or not, and the revision counter is the next
    number. *)
Theorem revisions_are_numbered (records : list CCRecord.t)
  (labels branches ignoredDirectories : option (list string))
  (autoProps : gmap string SvnProperties) :
  let c' := (run env cfg records
               (Converter_new labels branches ignoredDirectories autoProps)).2 in
  header_numbers (history (out c'))
  = seqZ 1 (Z.of_nat (length (header_numbers (history (out c')))))
  /\ svnRevNum c' = (1 + Z.of_nat (length (header_numbers (history (out c')))))%Z.
Proof.
  intros c'.
  destruct (effects_run records
              (Converter_new labels branches ignoredDirectories autoProps))
    as [(l & Hh & _ & Hn & Hr & _) _].
  fold c' in Hh, Hr. cbn [Converter_new out svnRevNum history WriteStream.new app] in *.
  rewrite Hh. done.
Qed.

(** In a run whose automatic properties were loaded from a file, every
    property set handed to the serializer, for a revision header or for a
    file node, serializes to as many bytes as its running total says: each
    [Prop-content-length] of the dump is right. *)
Theorem every_prop_content_length_is_right (records : list CCRecord.t)
  (lines : list string) (labels branches ignoredDirectories : option (list string)) :
  Forall prop_length_right
    (history (out (run env cfg records
                     (Converter_new labels branches ignoredDirectories
                        (SvnAutoProps.load lines))).2)).
Proof.
  destruct (effects_run records
              (Converter_new labels branches ignoredDirectories
                 (SvnAutoProps.load lines)))
    as [(l & Hh & _ & _ & _ & Hok) _].
  rewrite Hh. cbn [Converter_new out history WriteStream.new app].
  eapply Forall_impl; [apply Hok|].
  - split; [apply consistent_new|]. split; [apply consistent_new|].
    apply load_consistent.
  - assert (forall p, consistent p -> len (propsBlock p) = totalLen p) as Hlen.
    { intros p Hp. unfold propsBlock.
      rewrite (writeContent_len p WriteStream.new) by done.
      change (len (file WriteStream.new)) with 0%Z. lia. }
    intros [] Hc; cbn in *; auto.
Qed.

Lemma steps_silent {A} (m : M Converter A) :
  pres (steps (fun _ => True)) m -> pres silent m.
Proof. intros Hm c. apply Hm. Qed.

Lemma silent_replay (records : list CCRecord.t) (since : struct_time) :
  DUMP_SINCE_DATE cfg = Some since ->
  forallb (fun r => negb (tuple_gt (CCRecord.date r) since)) records = true ->
  pres silent (replay env cfg records).
Proof.
  intros Hsince. unfold replay.
  induction records as [|r records IH]; intros Hall; cbn [forM].
  - apply pres_ret. apply _.
  - cbn [forallb] in Hall. apply andb_prop in Hall as [Hr Hall].
    apply negb_true_iff in Hr.
    apply pres_bind; try apply _;
      [by eapply (silent_process env cfg (fun _ => True))|].
    intros _. by apply IH.
Qed.

(** With a cutoff date, a history with no record after that date leaves in
    the dump file the format line and nothing else, whatever the records
    are, and the stream ends disabled. *)
Theorem nothing_is_written_before_the_cutoff (records : list CCRecord.t)
  (since : struct_time) (labels branches ignoredDirectories : option (list string))
  (autoProps : gmap string SvnProperties) :
  DUMP_SINCE_DATE cfg = Some since ->
  forallb (fun r => negb (tuple_gt (CCRecord.date r) since)) records = true ->
  let c' := (run env cfg records
               (Converter_new labels branches ignoredDirectories autoProps)).2 in
  file (out c') = dump_format_line /\ enabled (out c') = false.
Proof.
  intros Hsince Hall c'.
  set (c0 := Converter_new labels branches ignoredDirectories autoProps) in *.
  set (c1 := set_out (WriteStream.disable
                        (WriteStream.write dump_format_line (out c0))) c0).
  assert (silent c1 c') as Hs.
  { unfold c', run, initializeFile. rewrite Hsince.
    rewrite bind_assoc. unfold bind at 1. rewrite lift_out_eq.
    cbn [fst snd out_write modify]. rewrite bind_assoc, bind_modify.
    fold dump_format_line. change (set_out _ (set_out _ c0)) with c1.
    apply pres_bind; try apply _; [|intros _; by apply (silent_replay _ since)].
    assert (pres silent (@ret Converter unit tt)) as Hret
      by (apply pres_ret; apply _).
    destruct (SVN_CREATE_BRANCHES_TAGS_DIRS cfg) as [v|]; [|exact Hret].
    destruct (truthy v); [|exact Hret].
    apply pres_bind; try apply _; [by apply steps_silent, steps_header|].
    intros _. apply pres_bind; try apply _;
      [by apply steps_silent, steps_lift_dir|].
    intros _. by apply steps_silent, steps_lift_dir. }
  destruct (Hs eq_refl) as [He Hf]. by rewrite Hf, He.
Qed.

End RunInvariants.

Lemma nothing_is_written_before_the_cutoff_witness :
  file (out (run (H := canonical_order) example_env cutoff_cfg
               [foo_main_0; bar_main_0] (Converter_new None None None ∅)).2)
  = dump_format_line
  /\ enabled (out (run (H := canonical_order) example_env cutoff_cfg
                     [foo_main_0; bar_main_0] (Converter_new None None None ∅)).2)
     = false.
Proof.
  apply (nothing_is_written_before_the_cutoff (H := canonical_order) example_env
           cutoff_cfg [foo_main_0; bar_main_0] july None None None ∅).
  - reflexivity.
  - vm_compute. reflexivity.
Defined.

(** ** A file version on a branch that is known *)

Section KnownBranch.
Context `{DictOrder}.
Variable env : Env.
Variable cfg : Config.


End KnownBranch.


(** ** Parent directories *)

Section ParentDirs.
Variable env : Env.

Lemma dumpSvnDir_ok (path p' : string) (o : WriteStream) :
  toUTF8 env (replace_char "\" "/" path) = Some p' ->
  (dumpSvnDir env path o).1 = inr tt.
Proof.
  intros Hp. unfold dumpSvnDir, writeNodePath, writeNodeKind, writeNodeAction,
    out_write. rewrite Hp. by rewrite !bind_modify.
Qed.

(** [createParentDirs] adds the missing directories above a path, the
    outermost first, each with one directory node under the root of the file
    set, and puts them into the file set; it looks no higher than the first
    directory that is in the set. *)
Theorem createParentDirs_adds_missing_dirs (depth : nat) (key path : string)
  (c : Converter) (fs : FileSet) :
  svnTree c !! key = Some fs ->
  length (missing_dirs depth (members fs) path) < depth ->
  Forall (fun d => is_Some (toUTF8 env (replace_char "\" "/"
                                          (root fs +:+ "/" +:+ d))))
    (missing_dirs depth (members fs) path) ->
  exists c',
    createParentDirs env depth key path c = (inr tt, c')
    /\ history (out c')
       = history (out c)
         ++ map (fun d => CallSvnDir (root fs +:+ "/" +:+ d))
              (rev (missing_dirs depth (members fs) path))
    /\ svnTree c'
       = <[key := {| root := root fs;
                     members := list_to_set (missing_dirs depth (members fs) path)
                                ∪ members fs |}]> (svnTree c).
Proof.
  revert path c. induction depth as [|depth IH]; intros path c Hfs Hlen Hutf;
    [cbn in Hlen; lia|].
  cbn [createParentDirs missing_dirs] in *. rewrite bind_get.
  unfold fileSet_at at 1. rewrite Hfs.
  change (default (FileSet.new "") (Some fs)) with fs. unfold FileSet.contains.
  destruct (truthy (dirname path) && negb (bool_decide (dirname path ∈ members fs)))
    eqn:Hc.
  - cbn [length] in Hlen. inversion Hutf as [|? ? [p' Hp'] Hrest]; subst.
    destruct (IH (dirname path) c Hfs ltac:(lia) Hrest) as (c1 & Hrun & Hh1 & Ht1).
    unfold bind at 1. rewrite Hrun, bind_get.
    assert (fileSet_at key c1
            = {| root := root fs;
                 members := list_to_set (missing_dirs depth (members fs) (dirname path))
                            ∪ members fs |}) as Hat.
    { unfold fileSet_at. by rewrite Ht1, lookup_insert_eq. }
    rewrite Hat. cbn [FileSet.getAbsolutePath root].
    assert (lift_out (dumpSvnDir env (root fs +:+ "/" +:+ dirname path)) c1
            = (inr tt, set_out (dumpSvnDir env (root fs +:+ "/" +:+ dirname path)
                                  (out c1)).2 c1)) as Hl.
    { rewrite lift_out_eq. by rewrite (dumpSvnDir_ok _ p' (out c1) Hp'). }
    rewrite (bind_ok _ _ _ _ _ Hl).
    eexists. split; [reflexivity|]. split.
    + cbn [fileSet_add modify snd out set_svnTree set_out].
      destruct (logs_dumpSvnDir env (root fs +:+ "/" +:+ dirname path) (out c1))
        as [-> _].
      rewrite Hh1. cbn [rev]. by rewrite map_app, <- app_assoc.
    + cbn [fileSet_add modify snd svnTree set_svnTree set_out].
      rewrite Ht1. rewrite alter_insert_eq.
      f_equal. unfold FileSet.add. cbn [root members list_to_set]. f_equal.
      by rewrite (assoc_L (∪)).
  - exists c. cbn [rev map list_to_set]. rewrite app_nil_r. split; [done|].
    split; [done|]. rewrite insert_id; [done|]. rewrite Hfs. f_equal.
    destruct fs as [rt ms]. cbn. f_equal. by rewrite (left_id_L ∅ (∪)).
Qed.

End ParentDirs.

Lemma createParentDirs_adds_missing_dirs_witness :
  exists c',
    createParentDirs example_env 5 "main" "a/b/c.txt" after_foo
    = (inr tt, c')
    /\ history (out c')
       = history (out after_foo)
         ++ map (fun d => CallSvnDir (root (fileSet_at "main" after_foo) +:+ "/" +:+ d))
              (rev (missing_dirs 5 (members (fileSet_at "main" after_foo)) "a/b/c.txt"))
    /\ svnTree c'
       = <[ "main" :=
            {| root := root (fileSet_at "main" after_foo);
               members := list_to_set
                            (missing_dirs 5 (members (fileSet_at "main" after_foo))
                               "a/b/c.txt")
                          ∪ members (fileSet_at "main" after_foo) |}]>
           (svnTree after_foo).
Proof.
  apply (createParentDirs_adds_missing_dirs example_env 5
           "main" "a/b/c.txt" after_foo (fileSet_at "main" after_foo)).
  - vm_compute. reflexivity.
  - vm_compute. lia.
  - apply Forall_forall. intros d _. by eexists.
Defined.

(** ** Reading a file backwards *)

Lemma join_empty_cons (x : string) (l : list string) :
  join "" (x :: l) = x +:+ join "" l.
Proof. destruct l; [by rewrite app_empty_r | done]. Qed.

Lemma join_empty_app (l1 l2 : list string) :
  join "" (l1 ++ l2) = join "" l1 +:+ join "" l2.
Proof.
  induction l1 as [|x l1 IH]; [done|].
  change ((x :: l1) ++ l2) with (x :: (l1 ++ l2)).
  by rewrite !join_empty_cons, IH, app_assoc_s.
Qed.

Lemma take_s_add (a b : nat) (s : string) :
  take_s (a + b) s = take_s a s +:+ take_s b (drop_s a s).
Proof.
  revert s; induction a as [|a IH]; intros s; [done|].
  destruct s as [|c s]; [by destruct b|].
  cbn [Nat.add take_s drop_s]. by rewrite app_cons, IH.
Qed.

Lemma length_take_s (n : nat) (s : string) :
  String.length (take_s n s) = Nat.min n (String.length s).
Proof.
  revert s; induction n as [|n IH]; intros [|c s]; cbn [take_s String.length];
    try lia.
  rewrite IH. lia.
Qed.

Lemma length_drop_s (n : nat) (s : string) :
  String.length (drop_s n s) = String.length s - n.
Proof.
  revert s; induction n as [|n IH]; intros [|c s]; cbn [drop_s String.length];
    try lia.
  rewrite IH. lia.
Qed.

Lemma drop_s_all (n : nat) (s : string) : String.length s <= n -> drop_s n s = "".
Proof.
  revert s; induction n as [|n IH]; intros [|c s]; cbn [drop_s String.length];
    intros Hle; try done; try lia.
  apply IH. lia.
Qed.

Lemma take_s_ge (n : nat) (s : string) : String.length s <= n -> take_s n s = s.
Proof.
  intros Hle. rewrite <- (take_drop_s n s) at 2.
  by rewrite (drop_s_all n s Hle), app_empty_r.
Qed.

Lemma rblocks_loop_spec (idxs : list nat) (blocksize : nat) (f : FileObj) :
  rblocks_loop idxs blocksize f
  = map (fun i => take_s blocksize (drop_s (i * blocksize) (data f))) idxs.
Proof.
  revert f; induction idxs as [|i idxs IH]; intros f; [done|].
  cbn [rblocks_loop map]. unfold read, seek. cbn [pos data mode].
  f_equal. by rewrite IH.
Qed.

(** The blocks [rblocks] yields, in terms of the content. *)
Lemma rblocks_spec (f : FileObj) (blocksize : nat) :
  mode_has_b (mode f) = true -> blocksize <> 0 ->
  rblocks f blocksize
  = inr (drop_s (String.length (data f) / blocksize * blocksize) (data f)
         :: map (fun i => take_s blocksize (drop_s (i * blocksize) (data f)))
              (rev (seq 0 (String.length (data f) / blocksize)))).
Proof.
  intros Hb Hbs. unfold rblocks. rewrite Hb. cbn [negb].
  apply Nat.eqb_neq in Hbs as Hbs'. rewrite Hbs'.
  unfold read, seek_end. cbn [pos data mode]. rewrite rblocks_loop_spec.
  cbn [data]. do 2 f_equal.
  pose proof (Nat.div_mod (String.length (data f)) blocksize Hbs) as Hdm.
  replace (String.length (data f) - String.length (data f) mod blocksize)
    with (String.length (data f) / blocksize * blocksize) by lia.
  apply take_s_ge. rewrite length_drop_s. lia.
Qed.

Lemma join_full_blocks (n blocksize : nat) (s : string) :
  join "" (map (fun i => take_s blocksize (drop_s (i * blocksize) s)) (seq 0 n))
  = take_s (n * blocksize) s.
Proof.
  induction n as [|n IH]; [done|].
  rewrite seq_S, map_app, join_empty_app, IH. cbn [Nat.add map join].
  replace (S n * blocksize) with (n * blocksize + blocksize) by lia.
  by rewrite take_s_add.
Qed.

(** The blocks of [rblocks], put back in file order, are the content of the
    file, with nothing lost or repeated; every block but the first one
    yielded (the end of the file) has exactly [blocksize] bytes, and the
    first has the remainder. *)
Theorem rblocks_round_trip (f : FileObj) (blocksize : nat) :
  mode_has_b (mode f) = true -> blocksize <> 0 ->
  exists first full,
    rblocks f blocksize = inr (first :: full)
    /\ join "" (rev (first :: full)) = data f
    /\ String.length first = String.length (data f) mod blocksize
    /\ length full = String.length (data f) / blocksize
    /\ Forall (fun block => String.length block = blocksize) full.
Proof.
  intros Hb Hbs. rewrite rblocks_spec by done. eexists _, _. split; [done|].
  pose proof (Nat.div_mod (String.length (data f)) blocksize Hbs) as Hdm.
  repeat split.
  - cbn [rev]. rewrite join_empty_app, <- map_rev, rev_involutive.
    rewrite join_full_blocks. cbn [join]. apply take_drop_s.
  - rewrite length_drop_s. lia.
  - by rewrite length_map, length_rev, length_seq.
  - apply Forall_forall. intros block Hin.
    apply list_elem_of_fmap in Hin as (i & -> & Hi).
    apply list_elem_of_In, in_rev, in_seq in Hi.
    rewrite length_take_s, length_drop_s.
    assert ((i + 1) * blocksize <= String.length (data f) / blocksize * blocksize)
      by (apply Nat.mul_le_mono_r; lia).
    lia.
Qed.

Lemma rblocks_round_trip_witness :
  exists first full,
    rblocks (open_rb "hello world") 3 = inr (first :: full)
    /\ join "" (rev (first :: full)) = data (open_rb "hello world")
    /\ String.length first = String.length (data (open_rb "hello world")) mod 3
    /\ length full = String.length (data (open_rb "hello world")) / 3
    /\ Forall (fun block => String.length block = 3) full.
Proof.
  apply (rblocks_round_trip (open_rb "hello world") 3); [reflexivity | lia].
Defined.

Lemma splitlines_go_cons (keepends : bool) (cur : option string) (c : ascii)
  (s' : string) :
  splitlines_go keepends cur (String c s')
  = let l := default "" cur in
    if Ascii.eqb c "010" then
      (l +:+ (if keepends then LF else "")) :: splitlines_go keepends None s'
    else if Ascii.eqb c "013" then
      match s' with
      | String "010" s'' =>
        (l +:+ (if keepends then CR +:+ LF else ""))
          :: splitlines_go keepends None s''
      | _ => (l +:+ (if keepends then CR else "")) :: splitlines_go keepends None s'
      end
    else splitlines_go keepends (Some (l +:+ String c "")) s'.
Proof. reflexivity. Qed.

(** The lines of [splitlines(True)] are the string, cut. *)
Lemma join_splitlines_go (s : string) :
  (forall cur, join "" (splitlines_go true cur s) = default "" cur +:+ s)
  /\ (forall c cur, join "" (splitlines_go true cur (String c s))
                    = default "" cur +:+ String c s).
Proof.
  induction s as [|d s [IH1 IH2]].
  - split; [intros [l|]; cbn; by rewrite ?app_empty_r|].
    intros c cur. rewrite splitlines_go_cons. cbv zeta.
    destruct (Ascii.eqb c "010") eqn:Hlf.
    { apply Ascii.eqb_eq in Hlf as ->. reflexivity. }
    destruct (Ascii.eqb c "013") eqn:Hcr.
    { apply Ascii.eqb_eq in Hcr as ->. reflexivity. }
    cbn [splitlines_go join default]. reflexivity.
  - split; [exact (IH2 d)|]. intros c cur. rewrite splitlines_go_cons. cbv zeta.
    destruct (Ascii.eqb c "010") eqn:Hlf.
    { apply Ascii.eqb_eq in Hlf as ->. rewrite join_empty_cons, (IH2 d).
      cbn [default]. by rewrite app_assoc_s. }
    destruct (Ascii.eqb c "013") eqn:Hcr.
    { apply Ascii.eqb_eq in Hcr as ->.
      destruct (Ascii.eqb d "010") eqn:Hd.
      - apply Ascii.eqb_eq in Hd as ->. rewrite join_empty_cons, IH1.
        cbn [default]. by rewrite !app_assoc_s.
      - assert (join "" ((default "" cur +:+ CR)
                           :: splitlines_go true None (String d s))
                = default "" cur +:+ String "013" (String d s)) as Hgoal.
        { rewrite join_empty_cons, (IH2 d). cbn [default]. by rewrite app_assoc_s. }
        destruct d as [[] [] [] [] [] [] [] []]; try exact Hgoal; discriminate. }
    rewrite (IH2 d).
    change (default "" (Some (default "" cur +:+ String c "")))
      with (default "" cur +:+ String c "").
    by rewrite app_assoc_s.
Qed.

Lemma join_splitlines (s : string) : join "" (splitlines true s) = s.
Proof. unfold splitlines. by rewrite (proj1 (join_splitlines_go s)). Qed.

Lemma join_rev_removelast (l : list string) :
  l <> [] -> join "" l = List.last (rev l) "" +:+ join "" (rev (removelast (rev l))).
Proof.
  destruct l as [|x l]; [done|]. intros _.
  cbn [rev]. rewrite last_last, removelast_last, rev_involutive.
  apply join_empty_cons.
Qed.

Lemma rlines_loop_keepends (blocks : list string) (buf : string) :
  join "" (rev (rlines_loop true buf blocks)) = join "" (rev blocks) +:+ buf.
Proof.
  revert buf; induction blocks as [|block blocks IH]; intros buf; [done|].
  cbn [rlines_loop]. unfold rlines_step.
  change (rev (block :: blocks)) with (rev blocks ++ [block]).
  rewrite join_empty_app. change (join "" [block]) with block.
  rewrite app_assoc_s.
  pose proof (join_splitlines (block +:+ buf)) as Hj.
  destruct (splitlines true (block +:+ buf)) as [|l ls] eqn:Hs.
  - cbn [app]. rewrite IH. cbn [join] in Hj. by rewrite <- Hj, app_empty_r.
  - rewrite (join_rev_removelast (l :: ls)) in Hj by done.
    set (rl := rev (l :: ls)) in *.
    rewrite rev_app_distr, join_empty_app, IH, app_assoc_s. by rewrite Hj.
Qed.

(** With [keepends], [rlines] loses no byte: the pieces it yields, put back
    in file order, are the content of the file. *)
Theorem rlines_keepends_keeps_every_byte (f : FileObj) :
  mode_has_b (mode f) = true ->
  exists pieces, rlines f true = inr pieces /\ join "" (rev pieces) = data f.
Proof.
  intros Hb. unfold rlines. rewrite rblocks_spec by done.
  eexists. split; [reflexivity|]. rewrite rlines_loop_keepends, app_empty_r.
  cbn [rev]. rewrite join_empty_app, <- map_rev, rev_involutive.
  rewrite join_full_blocks. cbn [join]. apply take_drop_s.
Qed.

Lemma rlines_keepends_keeps_every_byte_witness :
  exists pieces,
    rlines (open_rb blank_line_at_boundary) true = inr pieces
    /\ join "" (rev pieces) = data (open_rb blank_line_at_boundary).
Proof.
  apply (rlines_keepends_keeps_every_byte (open_rb blank_line_at_boundary)).
  reflexivity.
Defined.

(** ** Completing the labels *)

Section Stepwise.
Context {S : Type} (R : S -> S -> Prop) `{!Reflexive R} `{!Transitive R}.

Lemma stepwise_ret {A} (a : A) : stepwise R (ret a).
Proof. intros s. reflexivity. Qed.

Lemma stepwise_call {A} (r : PyExc + A) : stepwise R (CCHistoryParser.call r).
Proof. intros s. reflexivity. Qed.

Lemma stepwise_get : stepwise R get.
Proof. intros s. reflexivity. Qed.

Lemma stepwise_bind {A B} (m : M S A) (k : A -> M S B) :
  stepwise R m -> (forall a, stepwise R (k a)) -> stepwise R (bind m k).
Proof.
  intros Hm Hk s. unfold bind. specialize (Hm s).
  destruct (m s) as [[e|a] s']; cbn [snd] in *; [exact Hm|].
  etrans; [exact Hm | apply Hk].
Qed.

Lemma stepwise_forM {A} (l : list A) (body : A -> M S unit) :
  (forall x, stepwise R (body x)) -> stepwise R (forM l body).
Proof.
  intros Hb. induction l as [|x l IH]; [apply stepwise_ret|].
  cbn [forM]. apply stepwise_bind; [apply Hb | intros _; exact IH].
Qed.

Lemma stepwise_catch_all (m : M S unit) : stepwise R m -> stepwise R (catch_all m).
Proof.
  intros Hm s. unfold catch_all. specialize (Hm s).
  by destruct (m s) as [[e|[]] s'].
Qed.

End Stepwise.

#[global] Instance same_dump_refl : Reflexive same_dump.
Proof. by intros st. Qed.

#[global] Instance same_dump_trans : Transitive same_dump.
Proof. unfold same_dump. intros a b c Hab Hbc. congruence. Qed.

Section CompleteLabelsFacts.
Context `{DictOrder} `{SetOrder}.
Variable env : Env.
Variable cfg : Config.
Variable lib : ParserLib.
Variable lenv : LabelEnv.

Lemma silent_complete_file_tail (label : string) (r : CCRecord.t) :
  pres silent
    (exec modify (setRevisionProps env r);
     exec modify dumpRevisionHeader;
     do fileSet <- getTagFileset env label;
     exec createParentDirs env recursion_limit fileSet (CCRecord.path r);
     do c <- get;
     let r := CCRecord.with_svn (CCRecord.svnbranch r)
                (FileSet.getAbsolutePath (fileSet_at fileSet c) (CCRecord.path r)) r in
     exec dumpFile env r "add" false;
     exec fileSet_add fileSet (CCRecord.path r);
     let r := if bool_decide (label ∈ CCRecord.labels r)
              then set_labels (remove_first label (CCRecord.labels r)) r else r in
     processLabels env r false).
Proof.
  apply pres_bind; try apply _; [by intros c He|]. intros _.
  apply pres_bind; try apply _; [by apply steps_silent, steps_header|]. intros _.
  apply pres_bind; try apply _; [by apply steps_silent, steps_getTagFileset|].
  intros k.
  apply pres_bind; try apply _; [by apply steps_silent, steps_createParentDirs|].
  intros _. apply pres_bind; try apply _; [apply pres_get; apply _|]. intros c0.
  apply pres_bind; try apply _; [by apply steps_silent, steps_dumpFile|].
  intros _.
  apply pres_bind; try apply _; [by apply steps_silent, steps_fileSet_add|].
  intros _. by apply steps_silent, steps_processLabels.
Qed.

Lemma same_dump_complete_file (label : string) (r : CCRecord.t) (c : Converter) :
  DUMP_SINCE_DATE cfg = None ->
  file (out (complete_file env cfg label r c).2) = file (out c).
Proof.
  intros Hnone. unfold complete_file. rewrite bind_modify.
  unfold switch_for. rewrite Hnone.
  destruct (silent_complete_file_tail label r
              (set_out (WriteStream.disable (out c)) c) eq_refl) as [_ Hf].
  exact Hf.
Qed.

Lemma same_dump_complete_line (label line : string) :
  DUMP_SINCE_DATE cfg = None ->
  stepwise same_dump (complete_line env cfg lib lenv label line).
Proof.
  intros Hnone. unfold complete_line.
  destruct (split "@@" (strip line)) as [|path [|revision [|? ?]]];
    try (apply stepwise_ret; apply _).
  destruct (String.eqb path "."); [apply stepwise_ret; apply _|].
  apply stepwise_bind; try apply _; [apply stepwise_get; apply _|]. intros st.
  destruct (_ && _); [|apply stepwise_ret; apply _].
  apply stepwise_bind; try apply _; [apply stepwise_call; apply _|].
  intros details.
  apply stepwise_bind; try apply _.
  { intros s. unfold on_fst, same_dump.
    by destruct (CCHistoryParser.processLine lib details s.1). }
  assert (stepwise same_dump
            (on_snd (S := string)
               (modify (fun c => set_ccTree ({[(normpath lib path, revision)]}
                                              ∪ ccTree c) c)))) as Hseen
    by (by intros s).
  intros [r|]; [|exact Hseen].
  destruct (String.eqb (CCRecord.type r) "version"); [|exact Hseen].
  intros s. unfold on_snd, same_dump.
  pose proof (same_dump_complete_file label r s.2 Hnone) as Hf.
  by destruct (complete_file env cfg label r s.2).
Qed.

(** Without a cutoff date, the completion of the labels writes no byte to
    the dump file: the stream is disabled for each file version it finds,
    before anything is dumped for it. *)
Theorem label_completion_is_not_written (c : Converter) :
  DUMP_SINCE_DATE cfg = None ->
  file (out (completeLabels env cfg lib lenv c).2) = file (out c).
Proof.
  intros Hnone. unfold completeLabels.
  set (m := exec _; exec _; _).
  assert (stepwise same_dump m) as Hm.
  { unfold m. apply stepwise_bind; try apply _.
    { destruct (match checklabels_list c with [] => false | _ => true end);
        [apply stepwise_call | apply stepwise_ret]; apply _. }
    intros _. apply stepwise_bind; try apply _.
    { apply stepwise_forM; try apply _. intros label. unfold complete_label.
      apply stepwise_bind; try apply _; [apply stepwise_call; apply _|].
      intros _. apply stepwise_catch_all; try apply _.
      apply stepwise_bind; try apply _; [apply stepwise_call; apply _|].
      intros lines. apply stepwise_forM; try apply _. intros line.
      by apply same_dump_complete_line. }
    intros _. destruct (match checklabels_list c with [] => false | _ => true end);
      [apply stepwise_call | apply stepwise_ret]; apply _. }
  specialize (Hm ("", c)). unfold same_dump in Hm.
  by destruct (m ("", c)) as [r st].
Qed.

(** What goes wrong while a label is completed stops that label only: when
    the three changes of the view's config spec go through,
    [completeLabels] returns normally. *)
Theorem label_completion_swallows_errors (c : Converter) :
  saveConfigSpec lenv = inr tt ->
  (forall label, setLabelSpec lenv label = inr tt) ->
  setConfigSpec lenv = inr tt ->
  (completeLabels env cfg lib lenv c).1 = inr tt.
Proof.
  intros Hsave Hset Hrestore. unfold completeLabels.
  assert (forall l st, exists st',
            forM l (complete_label env cfg lib lenv) st = (inr tt, st')) as Hloop.
  { induction l as [|label l IH]; intros st; [by eexists|].
    cbn [forM]. unfold complete_label at 1. unfold bind at 1 2.
    unfold CCHistoryParser.call at 1. rewrite Hset. unfold catch_all.
    destruct (bind _ _ st) as [[e|[]] st1]; apply IH. }
  destruct (checklabels_list c) as [|label l].
  - unfold bind, ret. by cbn.
  - unfold bind at 1. unfold CCHistoryParser.call at 1. rewrite Hsave.
    unfold bind at 1. destruct (Hloop (label :: l) ("", c)) as (st' & ->).
    unfold CCHistoryParser.call. by rewrite Hrestore.
Qed.

End CompleteLabelsFacts.

Lemma label_completion_is_not_written_witness :
  file (out (completeLabels (H := canonical_order) (H0 := canonical_set_order)
               example_env example_cfg example_lib example_lenv after_foo_bar).2)
  = file (out after_foo_bar).
Proof.
  apply (label_completion_is_not_written (H := canonical_order)
           (H0 := canonical_set_order) example_env example_cfg example_lib
           example_lenv after_foo_bar).
  reflexivity.
Defined.

Lemma label_completion_swallows_errors_witness :
  (completeLabels (H := canonical_order) (H0 := canonical_set_order)
     example_env example_cfg example_lib unreadable_lenv after_foo_bar).1
  = inr tt.
Proof.
  apply (label_completion_swallows_errors (H := canonical_order)
           (H0 := canonical_set_order) example_env example_cfg example_lib
           unreadable_lenv after_foo_bar); [reflexivity | | reflexivity].
  intros label. reflexivity.
Defined.

(** Within one block: three lines, the last without a line end. *)
Lemma rlines_single_block_witness :
  rlines (open_rb ("one" +:+ LF +:+ LF +:+ "three")) false
  = inr (rev (forward_lines ("one" +:+ LF +:+ LF +:+ "three"))).
Proof.
  apply (rlines_single_block ("one" +:+ LF +:+ LF +:+ "three")).
  - discriminate.
  - vm_compute. lia.
Defined.

(** ** A file version on a branch that is new *)

Section NewBranch.
Context `{DictOrder}.
Variable env : Env.
Variable cfg : Config.


Lemma prepared_same (r : CCRecord.t) (c : Converter) :
  history (out (prepared env cfg r c)) = history (out c)
  /\ svnRevNum (prepared env cfg r c) = svnRevNum c
  /\ svnTree (prepared env cfg r c) = svnTree c.
Proof.
  unfold prepared, setRevisionProps, enable_after_cutoff.
  destruct (DUMP_SINCE_DATE cfg); [destruct (_ && _)|]; by repeat split.
Qed.


End NewBranch.


Section BranchEdgeCases.
Context `{DictOrder}.
Variable env : Env.
Variable cfg : Config.

(** The first file version on a branch whose parent the converter does not
    know, or knows with no file: unless [ignore_child_branch_warning] is
    exactly "true" or the operator answers yes, [process] ends the run with
    [sys.exit(1)].  The revision header is made before that; the file sets
    are as they were. *)
Theorem child_branch_before_parent_exits (r : CCRecord.t) (c : Converter) :
  passes_filters r c = true ->
  CCRecord.type r = "version" ->
  is_version_op (CCRecord.operation r) = true ->
  svnTree c !! svnbranch_of (CCRecord.branchNames r) = None ->
  (length (CCRecord.branchNames r) <? 2) = false ->
  match svnTree c !! parent_of (CCRecord.branchNames r) with
  | Some pfs => FileSet.nonempty pfs = false
  | None => True
  end ->
  String.eqb (IGNORE_CHILD_BRANCH_WARNING cfg) "true" = false ->
  askYesNo env "Create branch anyway and ignore the error? (or exit)" = false ->
  exists c',
    process env cfg r c = (inl (SystemExit 1), c')
    /\ new_calls c c'
       = [CallRevisionHeader (svnRevNum c) (revProps (prepared env cfg r c))]
    /\ svnTree c' = svnTree c
    /\ svnRevNum c' = (svnRevNum c + 1)%Z.
Proof.
  intros Hp Ht Hop Hnew Hlen Hpar Hcfg Hask.
  rewrite process_passes by done.
  set (c1 := prepared env cfg r c).
  destruct (prepared_same env cfg r c) as (Hh1 & Hn1 & Ht1).
  fold c1 in Hh1, Hn1, Ht1.
  unfold process_cases.
  cbn [CCRecord.type CCRecord.operation CCRecord.svnbranch with_branch
       CCRecord.with_svn].
  rewrite Ht, Hop. change ("version" =? "version")%string with true. cbv iota.
  rewrite bind_get, Ht1, Hnew. unfold process_new_branch.
  cbn [CCRecord.path CCRecord.svnbranch CCRecord.branchNames CCRecord.revNumber
       with_branch CCRecord.with_svn].
  rewrite Hlen, bind_get, bind_modify.
  destruct (dumpRevisionHeader_effect c1) as (o2 & -> & Hh2 & _).
  set (c2 := set_svnRevNum _ (set_out o2 c1)).
  assert (svnTree c2 = svnTree c) as Ht2 by exact Ht1.
  rewrite bind_assoc, bind_get, Ht2.
  assert (create_branch_anyway env cfg (svnbranch_of (CCRecord.branchNames r)) c2
          = (inl (SystemExit 1), c2)) as Hexit.
  { unfold create_branch_anyway. by rewrite Hcfg, Hask. }
  exists c2. split.
  - destruct (svnTree c !! parent_of (CCRecord.branchNames r)) as [pfs|];
      [rewrite Hpar|]; unfold bind; by rewrite Hexit.
  - split; [|by split; [|cbn [c2 svnRevNum set_svnRevNum]; rewrite Hn1]].
    unfold new_calls. cbn [c2 out set_svnRevNum set_out].
    by rewrite Hh2, Hh1, Hn1, drop_app_length.
Qed.

(** A directory version on a branch that the converter does not know yet:
    nothing is dumped and no file set changes; the directory comes with the
    first file under it. *)
Theorem directory_waits_for_files (r : CCRecord.t) (c : Converter) :
  passes_filters r c = true ->
  CCRecord.type r = "directory version" ->
  svnTree c !! svnbranch_of (CCRecord.branchNames r) = None ->
  process env cfg r c = (inr tt, prepared env cfg r c)
  /\ history (out (prepared env cfg r c)) = history (out c)
  /\ svnRevNum (prepared env cfg r c) = svnRevNum c
  /\ svnTree (prepared env cfg r c) = svnTree c.
Proof.
  intros Hp Ht Hnew. split; [|apply prepared_same].
  rewrite process_passes by done.
  destruct (prepared_same env cfg r c) as (_ & _ & Ht1).
  unfold process_cases.
  cbn [CCRecord.type CCRecord.operation CCRecord.svnbranch with_branch
       CCRecord.with_svn].
  rewrite Ht.
  change ("directory version" =? "version")%string with false.
  change ("directory version" =? "directory version")%string with true. cbv iota.
  destruct (is_version_op _); [|done].
  unfold process_directory.
  cbn [CCRecord.svnbranch with_branch CCRecord.with_svn].
  by rewrite bind_get, Ht1, Hnew.
Qed.

End BranchEdgeCases.

Lemma child_branch_before_parent_exits_witness :
  exists c',
    process (H := canonical_order) refusing_env example_cfg foo_dev_0 fresh_converter
    = (inl (SystemExit 1), c')
    /\ new_calls fresh_converter c'
       = [CallRevisionHeader (svnRevNum fresh_converter)
            (revProps (prepared refusing_env example_cfg foo_dev_0 fresh_converter))]
    /\ svnTree c' = svnTree fresh_converter
    /\ svnRevNum c' = (svnRevNum fresh_converter + 1)%Z.
Proof.
  apply (child_branch_before_parent_exits (H := canonical_order) refusing_env
           example_cfg foo_dev_0 fresh_converter); reflexivity.
Defined.

Lemma directory_waits_for_files_witness :
  process (H := canonical_order) example_env example_cfg src_dir_main fresh_converter
  = (inr tt, prepared example_env example_cfg src_dir_main fresh_converter)
  /\ history (out (prepared example_env example_cfg src_dir_main fresh_converter))
     = history (out fresh_converter)
  /\ svnRevNum (prepared example_env example_cfg src_dir_main fresh_converter)
     = svnRevNum fresh_converter
  /\ svnTree (prepared example_env example_cfg src_dir_main fresh_converter)
     = svnTree fresh_converter.
Proof.
  apply (directory_waits_for_files (H := canonical_order) example_env example_cfg
           src_dir_main fresh_converter); [vm_compute| |]; reflexivity.
Defined.

(** ** Edge cases of the serializer and of the property file *)

Section CopyEdge.
Variable env : Env.

(** A copy whose target path can be encoded and whose source path cannot:
    [dumpSvnCopy] raises when it comes to the source path, after it has
    written the first four lines of the node, which stays in the dump file
    without its [Node-copyfrom-path] and without the blank line that ends
    it. *)
Theorem copy_with_undecodable_source_is_truncated (kind from : string) (rev : Z)
  (target t' : string) (o : WriteStream) :
  enabled o = true ->
  toUTF8 env (replace_char "\" "/" target) = Some t' ->
  toUTF8 env (replace_char "\" "/" from) = None ->
  exists o',
    dumpSvnCopy env kind from rev target o = (inl UnicodeError, o')
    /\ file o'
       = file o +:+ "Node-path: " +:+ t' +:+ LF
         +:+ "Node-kind: " +:+ kind +:+ LF
         +:+ "Node-action: add" +:+ LF
         +:+ "Node-copyfrom-rev: " +:+ str rev +:+ LF.
Proof.
  intros He Ht Hf. destruct o as [e fl h]. cbn [enabled] in He. subst e.
  unfold dumpSvnCopy, writeNodePath, writeNodeKind, writeNodeAction, out_write.
  rewrite Ht, Hf, !bind_modify. unfold WriteStream.log. cbn [enabled file history].
  rewrite !write_on. eexists. split; [reflexivity|]. cbn [file].
  by rewrite !app_assoc_s.
Qed.

End CopyEdge.

(** An encoding that knows ASCII only. *)
Lemma copy_with_undecodable_source_is_truncated_witness :
  exists o',
    dumpSvnCopy ascii_env "dir" ("branches/caf" +:+ String "233" "") 7
      "branches/dev" WriteStream.new
    = (inl UnicodeError, o')
    /\ file o'
       = file WriteStream.new +:+ "Node-path: " +:+ "branches/dev" +:+ LF
         +:+ "Node-kind: " +:+ "dir" +:+ LF
         +:+ "Node-action: add" +:+ LF
         +:+ "Node-copyfrom-rev: " +:+ str 7 +:+ LF.
Proof.
  apply (copy_with_undecodable_source_is_truncated ascii_env "dir"
           ("branches/caf" +:+ String "233" "") 7 "branches/dev" "branches/dev"
           WriteStream.new); reflexivity.
Defined.

(** In a line of the property file, what follows a second [=] in a
    [key=value] pair is dropped: the value is the text between the first
    and the second [=]. *)
Theorem parseProps_takes_the_second_field (key value : string) (rest : list string) :
  Forall (fun x => has_char "=" x = false) (key :: value :: rest) ->
  has_char ";" (join "=" (key :: value :: rest)) = false ->
  SvnAutoProps.parseProps (join "=" (key :: value :: rest))
  = SvnProperties.set key value SvnProperties.new.
Proof.
  intros Heq Hsemi. unfold SvnAutoProps.parseProps.
  assert (split ";" (join "=" (key :: value :: rest))
          = [join "=" (key :: value :: rest)]) as ->
    by (apply (split_join ";" "" [_]); [done | by constructor]).
  cbn [fold_left]. by rewrite (split_join "=" "").
Qed.

Lemma parseProps_takes_the_second_field_witness :
  SvnAutoProps.parseProps (join "=" ["svn:keywords"; "Id"; "Rev"])
  = SvnProperties.set "svn:keywords" "Id" SvnProperties.new.
Proof.
  apply (parseProps_takes_the_second_field "svn:keywords" "Id" ["Rev"]).
  - repeat constructor.
  - reflexivity.
Defined.

(** ** The first revision *)

Section FirstRevision.
Context `{DictOrder}.
Variable env : Env.
Variable cfg : Config.


End FirstRevision.


(** ** File sets are closed under [dirname] *)

#[global] Instance keeps_closed_refl : Reflexive keeps_closed.
Proof. by intros c Hc. Qed.

#[global] Instance keeps_closed_trans : Transitive keeps_closed.
Proof. intros c1 c2 c3 H12 H23 Hc. auto. Qed.

#[global] Instance same_tree_refl : Reflexive same_tree.
Proof. by intros c. Qed.

#[global] Instance same_tree_trans : Transitive same_tree.
Proof. unfold same_tree. intros c1 c2 c3 H12 H23. congruence. Qed.

Section Closed.
Context `{DictOrder}.
Variable env : Env.
Variable cfg : Config.

Lemma pres_bind_at (R : Converter -> Converter -> Prop) `{!Transitive R}
  {A B} (m : M Converter A) (k : A -> M Converter B) (c : Converter) :
  R c (m c).2 ->
  (forall a, (m c).1 = inr a -> R (m c).2 (k a (m c).2).2) ->
  R c (bind m k c).2.
Proof.
  intros Hm Hk. unfold bind. destruct (m c) as [[e|a] c']; cbn [fst snd] in *.
  - exact Hm.
  - etrans; [exact Hm | by apply Hk].
Qed.

Lemma kc_same (c c' : Converter) : same_tree c c' -> keeps_closed c c'.
Proof. unfold same_tree, keeps_closed, tree_closed. by intros ->. Qed.

Lemma kc_pres {A} (m : M Converter A) : pres same_tree m -> pres keeps_closed m.
Proof. intros Hm c. apply kc_same, Hm. Qed.

Lemma same_tree_lift_out {A} (m : M WriteStream A) : pres same_tree (lift_out m).
Proof. intros c. by rewrite lift_out_eq. Qed.

Lemma same_tree_header : pres same_tree (modify dumpRevisionHeader).
Proof.
  intros c. cbn [modify snd].
  by destruct (dumpRevisionHeader_effect c) as (o' & -> & _).
Qed.

Lemma same_tree_dumpFile (r : CCRecord.t) (action : string) :
  pres same_tree (dumpFile env r action false).
Proof.
  intros c. destruct (dumpFile_plain env r action c)
    as [(e & _ & ->) | (content & o' & _ & -> & _)]; reflexivity.
Qed.

Lemma kc_insert_new (k rt : string) :
  pres keeps_closed
    (modify (fun c => set_svnTree (<[k := FileSet.new rt]> (svnTree c)) c)).
Proof.
  intros c Hc k' fs'. cbn [modify snd svnTree set_svnTree].
  destruct (decide (k = k')) as [->|Hne].
  - rewrite lookup_insert_eq. intros [= <-] p Hp. cbn in Hp.
    by apply elem_of_empty in Hp.
  - rewrite lookup_insert_ne by done. apply Hc.
Qed.

Lemma kc_fileSet_add (k p : string) (c : Converter) :
  (forall fs, svnTree c !! k = Some fs ->
     truthy (dirname p) = true -> dirname p ∈ members fs) ->
  keeps_closed c (fileSet_add k p c).2.
Proof.
  intros Hdir Hc k' fs'. cbn [fileSet_add modify snd svnTree set_svnTree].
  rewrite lookup_alter. case_decide as Hk; [subst k'|by apply Hc].
  destruct (svnTree c !! k) as [fs|] eqn:Hfs; [|discriminate].
  intros [= <-] q. cbn [members FileSet.add].
  rewrite !elem_of_union, !elem_of_singleton.
  intros [->|Hq] Ht; right; [by apply Hdir | by apply (Hc k fs)].
Qed.

(** [createParentDirs] keeps the file sets closed and, when it returns,
    leaves the directory of the path in the file set. *)
Lemma closed_createParentDirs (depth : nat) (key path : string) (c : Converter) :
  keeps_closed c (createParentDirs env depth key path c).2
  /\ ((createParentDirs env depth key path c).1 = inr tt ->
      forall fs', svnTree (createParentDirs env depth key path c).2 !! key = Some fs' ->
        truthy (dirname path) = true -> dirname path ∈ members fs').
Proof.
  revert path c. induction depth as [|depth IH]; intros path c;
    cbn [createParentDirs]; [by split|].
  rewrite bind_get.
  destruct (truthy (dirname path)) eqn:Ht; cbn [andb].
  2:{ split; [reflexivity | by intros _ fs' _ ?]. }
  destruct (FileSet.contains (dirname path) (fileSet_at key c)) eqn:Hin; cbn [negb].
  { split; [reflexivity|]. intros _ fs' Hfs' _. cbn [ret snd] in Hfs'.
    unfold FileSet.contains, fileSet_at in Hin. rewrite Hfs' in Hin.
    by apply bool_decide_eq_true in Hin. }
  destruct (IH (dirname path) c) as [Hkc Hpost].
  destruct (createParentDirs env depth key (dirname path) c) as [[e|[]] c1] eqn:Hrun;
    cbn [fst snd] in *.
  { rewrite (bind_err _ _ _ _ _ Hrun). by split. }
  rewrite (bind_ok _ _ _ _ _ Hrun), bind_get.
  pose proof (same_tree_lift_out
                (dumpSvnDir env (FileSet.getAbsolutePath (fileSet_at key c1)
                                   (dirname path))) c1) as Ht2.
  destruct (lift_out _ c1) as [[e|[]] c2] eqn:Hl; cbn [snd] in Ht2.
  { rewrite (bind_err _ _ _ _ _ Hl). split; [|done].
    etrans; [exact Hkc|]. by apply kc_same. }
  rewrite (bind_ok _ _ _ _ _ Hl). split.
  - etrans; [exact Hkc|]. etrans; [by apply (kc_same c1 c2)|].
    apply kc_fileSet_add. intros fs Hfs. rewrite Ht2 in Hfs. by apply Hpost.
  - intros _ fs'. cbn [fileSet_add modify snd svnTree set_svnTree].
    rewrite lookup_alter_eq, Ht2.
    destruct (svnTree c1 !! key) as [fs|]; [|discriminate].
    intros [= <-] _. cbn [members FileSet.add].
    apply elem_of_union. left. by apply elem_of_singleton.
Qed.

Lemma kc_createParentDirs (depth : nat) (key path : string) :
  pres keeps_closed (createParentDirs env depth key path).
Proof. intros c. apply closed_createParentDirs. Qed.

(** A path is added when its parent directories are there. *)
Lemma kc_add_after_parents (m : M Converter unit) (key path : string) :
  pres same_tree m ->
  pres keeps_closed
    (exec createParentDirs env recursion_limit key path;
     exec m;
     fileSet_add key path).
Proof.
  intros Hm c. destruct (closed_createParentDirs recursion_limit key path c)
    as [Hkc Hpost].
  apply pres_bind_at; try apply _; [exact Hkc|]. intros [] Hok.
  set (c1 := (createParentDirs env recursion_limit key path c).2) in *.
  apply pres_bind_at; try apply _; [apply kc_same, Hm|]. intros [] _.
  apply kc_fileSet_add. intros fs Hfs. rewrite (Hm c1) in Hfs. by apply Hpost.
Qed.

Ltac kstep := apply pres_bind; try apply _.
Ltac kstop := apply pres_ret; apply _.
Ltac kget := apply pres_get; apply _.

Lemma kc_plain (f : Converter -> Converter) :
  (forall c, svnTree (f c) = svnTree c) -> pres keeps_closed (modify f).
Proof. intros Hf c. apply kc_same, Hf. Qed.

Lemma kc_getTagFileset (label : string) :
  pres keeps_closed (getTagFileset env label).
Proof.
  unfold getTagFileset. kstep; [kget|]. intros c0.
  destruct (svnTree c0 !! label); [kstop|].
  kstep; [apply kc_insert_new|]. intros _.
  kstep; [apply kc_pres, same_tree_lift_out | intros _; kstop].
Qed.

Lemma kc_processLabels_loop (r : CCRecord.t) (u : bool) (rev : Z)
  (first : bool) (ls : list string) :
  pres keeps_closed (processLabels_loop env r u rev first ls).
Proof.
  revert first. induction ls as [|a ls IH]; intros first;
    cbn [processLabels_loop]; [kstop|].
  kstep; [kget|]. intros c0. destruct (label_allowed c0 a); [|apply IH].
  kstep; [destruct first; [apply kc_pres, same_tree_header | kstop]|]. intros _.
  kstep; [apply kc_getTagFileset|]. intros k.
  kstep; [apply kc_createParentDirs|]. intros _.
  kstep; [kget|]. intros c1.
  kstep; [apply kc_pres, same_tree_lift_out|]. intros _.
  kstep; [|intros _; apply IH].
  destruct (_ && u); [by apply kc_plain | kstop].
Qed.

Lemma kc_processLabels (r : CCRecord.t) (u : bool) :
  pres keeps_closed (processLabels env r u).
Proof.
  unfold processLabels. kstep; [by apply kc_plain|]. intros _.
  kstep; [kget|]. intros c0. apply kc_processLabels_loop.
Qed.

Lemma kc_copy_branch (k parent : string) (rev : Z) (pfs : FileSet) (c : Converter) :
  svnTree c !! parent = Some pfs ->
  keeps_closed c (copy_branch env k parent rev pfs c).2.
Proof.
  intros Hpfs. unfold copy_branch. rewrite bind_modify.
  etrans; [|exact (kc_pres _ (same_tree_lift_out _) _)].
  intros Hc k' fs'. cbn [svnTree set_svnTree].
  destruct (decide (k = k')) as [->|Hne].
  - rewrite lookup_insert_eq. intros [= <-]. exact (Hc parent pfs Hpfs).
  - rewrite lookup_insert_ne by done. apply Hc.
Qed.

Lemma kc_create_branch_anyway (k : string) :
  pres keeps_closed (create_branch_anyway env cfg k).
Proof.
  unfold create_branch_anyway. destruct (_ || _); [|apply pres_raise; apply _].
  kstep; [apply kc_insert_new | intros _; apply kc_pres, same_tree_lift_out].
Qed.

Lemma kc_process_known (r : CCRecord.t) (fs : FileSet) :
  pres keeps_closed (process_known_branch env r fs).
Proof.
  unfold process_known_branch. kstep; [apply kc_pres, same_tree_header|].
  intros _. kstep; [|intros _; apply kc_processLabels].
  destruct (FileSet.contains _ _); [apply kc_pres, same_tree_dumpFile|].
  apply kc_add_after_parents, same_tree_dumpFile.
Qed.

Lemma kc_process_new (r : CCRecord.t) :
  pres keeps_closed (process_new_branch env cfg r).
Proof.
  intros c. unfold process_new_branch. rewrite bind_get, bind_modify.
  etrans; [exact (kc_pres _ same_tree_header c)|]. cbn [modify snd].
  apply pres_bind_at; try apply _.
  { destruct (_ <? 2).
    - apply pres_bind; try apply _;
        [apply kc_insert_new | intros _; apply kc_pres, same_tree_lift_out].
    - rewrite bind_get. destruct (svnTree _ !! _) as [pfs|] eqn:Hpfs;
        [|apply kc_create_branch_anyway].
      destruct (FileSet.nonempty pfs);
        [by apply kc_copy_branch | apply kc_create_branch_anyway]. }
  intros _ _. rewrite bind_get.
  apply pres_bind; try apply _; [|intros _; apply kc_processLabels].
  destruct (FileSet.contains _ _).
  - destruct (negb _); [apply kc_pres, same_tree_dumpFile | kstop].
  - apply kc_add_after_parents, same_tree_dumpFile.
Qed.

Lemma kc_process_directory (r : CCRecord.t) :
  pres keeps_closed (process_directory env r).
Proof.
  unfold process_directory. kstep; [kget|]. intros c0.
  destruct (svnTree c0 !! _) as [fs|]; [|kstop].
  destruct (FileSet.nonempty fs); [|kstop].
  kstep; [|intros _; by apply kc_plain].
  destruct (FileSet.contains _ fs); [kstop|].
  kstep; [apply kc_pres, same_tree_header|]. intros _.
  apply kc_add_after_parents, same_tree_lift_out.
Qed.

Lemma kc_process_cases (r : CCRecord.t) :
  pres keeps_closed (process_cases env cfg r).
Proof.
  unfold process_cases.
  destruct (String.eqb (CCRecord.type r) "version").
  { destruct (is_version_op _); [|kstop]. kstep; [kget|]. intros c0.
    destruct (svnTree c0 !! _); [apply kc_process_known | apply kc_process_new]. }
  destruct (String.eqb (CCRecord.type r) "directory version").
  { destruct (is_version_op _); [apply kc_process_directory | kstop]. }
  destruct (_ && _); [apply pres_raise; apply _ | kstop].
Qed.

Lemma kc_process (r : CCRecord.t) : pres keeps_closed (process env cfg r).
Proof.
  intros c. unfold process.
  destruct (String.eqb _ "."); [reflexivity|]. rewrite bind_get.
  destruct (match branches c with Some _ => _ | None => _ end); [reflexivity|].
  destruct (isIgnored c _); [reflexivity|]. rewrite !bind_modify.
  etrans; [|apply kc_process_cases]. apply kc_same.
  unfold same_tree, setRevisionProps, enable_after_cutoff.
  destruct (DUMP_SINCE_DATE cfg); [destruct (_ && _)|]; done.
Qed.

Lemma kc_initializeFile : pres keeps_closed (initializeFile env cfg).
Proof.
  unfold initializeFile. kstep; [apply kc_pres, same_tree_lift_out|]. intros _.
  kstep; [destruct (DUMP_SINCE_DATE cfg); [by apply kc_plain | kstop]|].
  intros _. destruct (SVN_CREATE_BRANCHES_TAGS_DIRS cfg) as [v|]; [|kstop].
  destruct (truthy v); [|kstop].
  kstep; [apply kc_pres, same_tree_header|]. intros _.
  kstep; [apply kc_pres, same_tree_lift_out|]. intros _.
  apply kc_pres, same_tree_lift_out.
Qed.

(** In every run, whether it ends normally or not, each file set of the
    converter, for a branch or for a tag, holds with every path the
    directory the path is in: a path is put into a file set only when its
    parent directories are there. *)
Theorem file_sets_hold_the_parent_directories (records : list CCRecord.t)
  (labels branches ignoredDirectories : option (list string))
  (autoProps : gmap string SvnProperties) (k : string) (fs : FileSet) (p : string) :
  svnTree (run env cfg records
             (Converter_new labels branches ignoredDirectories autoProps)).2 !! k
  = Some fs ->
  p ∈ members fs -> truthy (dirname p) = true -> dirname p ∈ members fs.
Proof.
  assert (pres keeps_closed (fun c => run env cfg records c)) as Hrun.
  { unfold run. kstep; [apply kc_initializeFile|]. intros _.
    apply pres_forM; try apply _. apply kc_process. }
  intros Hk. eapply (Hrun (Converter_new labels branches ignoredDirectories autoProps));
    [|exact Hk].
  intros k' fs' Hk'. cbn in Hk'. by rewrite lookup_empty in Hk'.
Qed.

End Closed.

Lemma file_sets_hold_the_parent_directories_witness :
  dirname "src/bar.txt"
  ∈ members (fileSet_at "main"
               (run (H := canonical_order) example_env example_cfg
                  [foo_main_0; bar_main_0] (Converter_new None None None ∅)).2).
Proof.
  apply (file_sets_hold_the_parent_directories (H := canonical_order) example_env
           example_cfg [foo_main_0; bar_main_0] None None None ∅ "main" _
           "src/bar.txt").
  - vm_compute. reflexivity.
  - apply (bool_decide_eq_true_1 _). vm_compute. reflexivity.
  - reflexivity.
Defined.

(** ** [main] *)

#[global] Instance dump_grows_refl : Reflexive dump_grows.
Proof. intros st. exists "". by rewrite app_empty_r. Qed.

#[global] Instance dump_grows_trans : Transitive dump_grows.
Proof.
  intros a b c [s1 H1] [s2 H2]. exists (s1 +:+ s2).
  by rewrite H2, H1, app_assoc_s.
Qed.

Section MainFacts.
Context `{DictOrder} `{SetOrder}.
Variable env : Env.
Variable cfg : Config.
Variable lib : ParserLib.
Variable lenv : LabelEnv.
Variable menv : MainEnv.

Lemma steps_appends {A} (m : M Converter A) :
  pres (steps (fun _ => True)) m -> pres appends m.
Proof. intros Hm c. apply Hm. Qed.

Lemma appends_process (r : CCRecord.t) : pres appends (process env cfg r).
Proof.
  intros c. unfold process.
  destruct (String.eqb _ "."); [reflexivity|]. rewrite bind_get.
  destruct (match branches c with Some _ => _ | None => _ end); [reflexivity|].
  destruct (isIgnored c _); [reflexivity|]. rewrite !bind_modify.
  etrans; [|by apply steps_appends, steps_process_cases].
  exists "". rewrite app_empty_r. unfold setRevisionProps, enable_after_cutoff.
  destruct (DUMP_SINCE_DATE cfg); [destruct (_ && _)|]; done.
Qed.

Lemma on_snd_grows {A} (m : M Converter A) :
  pres appends m -> stepwise dump_grows (on_snd (S := string) m).
Proof.
  intros Hm st. unfold on_snd, dump_grows. specialize (Hm st.2).
  by destruct (m st.2).
Qed.

Lemma on_fst_grows {A} (m : M string A) :
  stepwise dump_grows (on_fst (T := Converter) m).
Proof.
  intros st. unfold on_fst, dump_grows. destruct (m st.1).
  exists "". by rewrite app_empty_r.
Qed.

Lemma grows_history_loop (lines : list string) :
  stepwise dump_grows (history_loop env cfg lib lines).
Proof.
  unfold history_loop. apply stepwise_forM; try apply _. intros line.
  apply stepwise_bind; try apply _; [apply on_fst_grows|].
  intros [r|]; [apply on_snd_grows, appends_process | apply stepwise_ret; apply _].
Qed.

Lemma appends_complete_file (label : string) (r : CCRecord.t) :
  pres appends (complete_file env cfg label r).
Proof.
  unfold complete_file.
  apply pres_bind; try apply _.
  { intros c. exists "". rewrite app_empty_r. cbn [modify snd out set_out].
    unfold switch_for. destruct (DUMP_SINCE_DATE cfg); [destruct (tuple_gt _ _)|];
      done. }
  intros _. apply pres_bind; try apply _.
  { intros c. exists "". by rewrite app_empty_r. }
  intros _. apply pres_bind; try apply _; [by apply steps_appends, steps_header|].
  intros _.
  apply pres_bind; try apply _; [by apply steps_appends, steps_getTagFileset|].
  intros k.
  apply pres_bind; try apply _; [by apply steps_appends, steps_createParentDirs|].
  intros _. apply pres_bind; try apply _; [apply pres_get; apply _|]. intros c0.
  apply pres_bind; try apply _; [by apply steps_appends, steps_dumpFile|].
  intros _.
  apply pres_bind; try apply _; [by apply steps_appends, steps_fileSet_add|].
  intros _. by apply steps_appends, steps_processLabels.
Qed.

Lemma grows_complete_line (label line : string) :
  stepwise dump_grows (complete_line env cfg lib lenv label line).
Proof.
  unfold complete_line.
  destruct (split "@@" (strip line)) as [|path [|revision [|? ?]]];
    try (apply stepwise_ret; apply _).
  destruct (String.eqb path "."); [apply stepwise_ret; apply _|].
  apply stepwise_bind; try apply _; [apply stepwise_get; apply _|]. intros st.
  destruct (_ && _); [|apply stepwise_ret; apply _].
  apply stepwise_bind; try apply _; [apply stepwise_call; apply _|].
  intros details.
  apply stepwise_bind; try apply _; [apply on_fst_grows|].
  assert (stepwise dump_grows
            (on_snd (S := string)
               (modify (fun c => set_ccTree ({[(normpath lib path, revision)]}
                                              ∪ ccTree c) c)))) as Hseen.
  { apply on_snd_grows. intros c. exists "". by rewrite app_empty_r. }
  intros [r|]; [|exact Hseen].
  destruct (String.eqb (CCRecord.type r) "version"); [|exact Hseen].
  apply on_snd_grows, appends_complete_file.
Qed.

Lemma appends_completeLabels : pres appends (completeLabels env cfg lib lenv).
Proof.
  intros c. unfold completeLabels.
  set (m := exec _; exec _; _).
  assert (stepwise dump_grows m) as Hm.
  { unfold m. apply stepwise_bind; try apply _.
    { destruct (match checklabels_list c with [] => false | _ => true end);
        [apply stepwise_call | apply stepwise_ret]; apply _. }
    intros _. apply stepwise_bind; try apply _.
    { apply stepwise_forM; try apply _. intros label. unfold complete_label.
      apply stepwise_bind; try apply _; [apply stepwise_call; apply _|].
      intros _. apply stepwise_catch_all; try apply _.
      apply stepwise_bind; try apply _; [apply stepwise_call; apply _|].
      intros lines. apply stepwise_forM; try apply _. intros line.
      apply grows_complete_line. }
    intros _. destruct (match checklabels_list c with [] => false | _ => true end);
      [apply stepwise_call | apply stepwise_ret]; apply _. }
  specialize (Hm ("", c)). unfold dump_grows in Hm.
  by destruct (m ("", c)) as [r st].
Qed.

Lemma appends_main_body (continuedRun : bool) :
  pres appends (main_body env cfg lib lenv menv continuedRun).
Proof.
  unfold main_body. apply pres_bind; try apply _.
  { destruct continuedRun; [apply pres_ret; apply _|].
    by apply steps_appends, steps_initializeFile. }
  intros _. apply pres_bind; try apply _; [apply pres_pure; apply _|].
  intros content. apply pres_bind; try apply _; [apply pres_pure; apply _|].
  intros lines. apply pres_bind; try apply _; [|intros _; apply pres_ret; apply _].
  intros c. unfold with_parser.
  assert (stepwise dump_grows
            (exec history_loop env cfg lib lines;
             on_snd (completeLabels env cfg lib lenv))) as Hm.
  { apply stepwise_bind; try apply _; [apply grows_history_loop|].
    intros _. apply on_snd_grows, appends_completeLabels. }
  specialize (Hm ("", c)). unfold dump_grows in Hm.
  by destruct (bind _ _ ("", c)) as [r st].
Qed.

(** Whenever the [try] block of [main] is left by an exception other than
    [SystemExit] after the converter was made, the handler's [saveState]
    raises in its turn: [main] ends with a [TypeError], not with the
    exception of the run, and the state file is left empty.  The dump file
    keeps what was written. *)
Theorem failed_run_ends_in_TypeError (w w' : World) (e : PyExc) (c : Converter) :
  main_try env cfg lib lenv menv w = (inl e, (w', Some c)) ->
  (forall n, e <> SystemExit n) ->
  main_plain env cfg lib lenv menv w
  = (inl (TypeError "cannot concatenate 'str' and 'int' objects"),
     {| dump_file := dump_file w'; state_file := Some "" |}).
Proof.
  intros Htry Hne. unfold main_plain. rewrite Htry.
  destruct e; try reflexivity. by destruct (Hne code).
Qed.

(** A dump file that is there when [main] starts is not replaced: unless a
    state file is there too and the operator declines to continue, the
    dump file after [main] begins with its old content, whatever happens
    in the run. *)
Theorem old_dump_is_appended_to (w : World) (old : string) :
  dump_file w = Some old ->
  state_file w = None \/ askYesNo env "Continue previous run?" = true ->
  exists s,
    dump_file (main_plain env cfg lib lenv menv w).2 = Some (old +:+ s).
Proof.
  intros Hold Hkeep.
  assert (exists s, dump_file w = Some (old +:+ s)) as Hsame
    by (exists ""; by rewrite app_empty_r).
  assert (exists s,
            dump_file (main_try env cfg lib lenv menv w).2.1 = Some (old +:+ s))
    as Htry.
  { unfold main_try.
    destruct (readList_file (CC_LABELS_FILE menv)) as [e|labels]; [exact Hsame|].
    destruct (readList_file (CC_BRANCHES_FILE menv)) as [e|branches];
      [exact Hsame|].
    destruct (readList_file (CC_IGNORED_DIRECTORIES_FILE menv)) as [e|ignored];
      [exact Hsame|].
    destruct (SVN_AUTOPROPS_FILE menv) as [e|lines]; [exact Hsame|].
    set (c0 := Converter_new labels branches ignored (SvnAutoProps.load lines)).
    assert (forall b, exists s,
                dump_file
                  (let '(r, converter) :=
                     main_body env cfg lib lenv menv b
                       (set_out {| enabled := true; file := default "" (dump_file w);
                                   history := [] |} c0) in
                   (r, ({| dump_file := Some (file (out converter));
                           state_file := state_file w |}, Some converter))).2.1
                = Some (old +:+ s)) as Hb.
    { intros b.
      destruct (appends_main_body b
                  (set_out {| enabled := true; file := default "" (dump_file w);
                              history := [] |} c0)) as [s Hs].
      destruct (main_body env cfg lib lenv menv b _) as [r c1].
      cbn [fst snd dump_file] in *. exists s. rewrite Hs. cbn [out set_out file].
      by rewrite Hold. }
    destruct Hkeep as [Hnone | Hyes].
    - destruct (bool_decide (is_Some (state_file w))) eqn:Hs.
      { apply bool_decide_eq_true in Hs as [x Hx]. congruence. }
      cbn [andb]. apply (Hb false).
    - rewrite Hyes. destruct (_ && _); [apply (Hb true) | apply (Hb false)]. }
  unfold main_plain.
  destruct (main_try env cfg lib lenv menv w) as [[e|[]] [w' [c'|]]];
    cbn [fst snd] in *; try exact Htry.
  - destruct e; try exact Htry. 
  - by destruct e.
Qed.

End MainFacts.

Lemma failed_run_ends_in_TypeError_witness :
  main_plain (H := canonical_order) (H0 := canonical_set_order) example_env
    example_cfg example_lib example_lenv link_menv new_world
  = (inl (TypeError "cannot concatenate 'str' and 'int' objects"),
     {| dump_file :=
          dump_file (main_try (H := canonical_order) (H0 := canonical_set_order)
                       example_env example_cfg example_lib example_lenv link_menv
                       new_world).2.1;
        state_file := Some "" |}).
Proof.
  apply (failed_run_ends_in_TypeError (H := canonical_order)
           (H0 := canonical_set_order) example_env example_cfg example_lib
           example_lenv link_menv new_world _
           (NameError "PUT_CCLINKS_TO_BRANCH")
           (default fresh_converter
              (main_try (H := canonical_order) (H0 := canonical_set_order)
                 example_env example_cfg example_lib example_lenv link_menv
                 new_world).2.2)).
  - vm_compute. reflexivity.
  - discriminate.
Defined.

Lemma old_dump_is_appended_to_witness :
  exists s,
    dump_file (main_plain (H := canonical_order) (H0 := canonical_set_order)
                 example_env example_cfg example_lib example_lenv link_menv
                 old_world).2
    = Some ("bytes of an earlier dump" +:+ s).
Proof.
  apply (old_dump_is_appended_to (H := canonical_order)
           (H0 := canonical_set_order) example_env example_cfg example_lib
           example_lenv link_menv old_world "bytes of an earlier dump").
  - reflexivity.
  - left. reflexivity.
Defined.

#[global] Instance run_effects_refl : Reflexive run_effects.
Proof. intros st. unfold run_effects. reflexivity. Qed.

#[global] Instance run_effects_trans : Transitive run_effects.
Proof. intros a b c Hab Hbc. unfold run_effects in *. by etrans. Qed.

Section ContinuedRun.
Context `{DictOrder} `{SetOrder}.
Variable env : Env.
Variable cfg : Config.
Variable lib : ParserLib.
Variable lenv : LabelEnv.
Variable menv : MainEnv.

Lemma steps_effects {A} (m : M Converter A) :
  pres (steps (fun _ => True)) m -> pres (effects (fun _ => True)) m.
Proof. intros Hm c. apply Hm. Qed.

Lemma on_snd_effects {A} (m : M Converter A) :
  pres (effects (fun _ => True)) m -> stepwise run_effects (on_snd (S := string) m).
Proof.
  intros Hm st. unfold on_snd, run_effects. specialize (Hm st.2).
  by destruct (m st.2).
Qed.

Lemma on_fst_effects {A} (m : M string A) :
  stepwise run_effects (on_fst (T := Converter) m).
Proof.
  intros st. unfold on_fst, run_effects. destruct (m st.1). reflexivity.
Qed.

Lemma effects_plain (f : Converter -> Converter) :
  (forall c, history (out (f c)) = history (out c)) ->
  (forall c, svnRevNum (f c) = svnRevNum c) ->
  (forall c, props_ok c -> props_ok (f c)) ->
  pres (effects (fun _ => True)) (modify f).
Proof.
  intros Hh Hn Hp c. cbn [modify snd]. split; [|apply Hp].
  exists []. rewrite Hh, Hn, app_nil_r. repeat split; try done. cbn. lia.
Qed.

Lemma effects_complete_file (label : string) (r : CCRecord.t) :
  pres (effects (fun _ => True)) (complete_file env cfg label r).
Proof.
  unfold complete_file.
  apply pres_bind; try apply _.
  { apply effects_plain; try done; intros c; cbn [out set_out]; unfold switch_for;
      destruct (DUMP_SINCE_DATE cfg); [destruct (tuple_gt _ _)|]; done. }
  intros _. apply pres_bind; try apply _.
  { apply effects_plain; try done. intros c. apply props_ok_setRevisionProps. }
  intros _. apply pres_bind; try apply _; [by apply steps_effects, steps_header|].
  intros _.
  apply pres_bind; try apply _; [by apply steps_effects, steps_getTagFileset|].
  intros k.
  apply pres_bind; try apply _; [by apply steps_effects, steps_createParentDirs|].
  intros _. apply pres_bind; try apply _; [apply pres_get; apply _|]. intros c0.
  apply pres_bind; try apply _; [by apply steps_effects, steps_dumpFile|].
  intros _.
  apply pres_bind; try apply _; [by apply steps_effects, steps_fileSet_add|].
  intros _. by apply steps_effects, steps_processLabels.
Qed.

Lemma effects_complete_line (label line : string) :
  stepwise run_effects (complete_line env cfg lib lenv label line).
Proof.
  unfold complete_line.
  destruct (split "@@" (strip line)) as [|path [|revision [|? ?]]];
    try (apply stepwise_ret; apply _).
  destruct (String.eqb path "."); [apply stepwise_ret; apply _|].
  apply stepwise_bind; try apply _; [apply stepwise_get; apply _|]. intros st.
  destruct (_ && _); [|apply stepwise_ret; apply _].
  apply stepwise_bind; try apply _; [apply stepwise_call; apply _|].
  intros details.
  apply stepwise_bind; try apply _; [apply on_fst_effects|].
  assert (stepwise run_effects
            (on_snd (S := string)
               (modify (fun c => set_ccTree ({[(normpath lib path, revision)]}
                                              ∪ ccTree c) c)))) as Hseen
    by (by apply on_snd_effects, effects_plain).
  intros [r|]; [|exact Hseen].
  destruct (String.eqb (CCRecord.type r) "version"); [|exact Hseen].
  apply on_snd_effects, effects_complete_file.
Qed.

Lemma effects_completeLabels :
  pres (effects (fun _ => True)) (completeLabels env cfg lib lenv).
Proof.
  intros c. unfold completeLabels.
  set (m := exec _; exec _; _).
  assert (stepwise run_effects m) as Hm.
  { unfold m. apply stepwise_bind; try apply _.
    { destruct (match checklabels_list c with [] => false | _ => true end);
        [apply stepwise_call | apply stepwise_ret]; apply _. }
    intros _. apply stepwise_bind; try apply _.
    { apply stepwise_forM; try apply _. intros label. unfold complete_label.
      apply stepwise_bind; try apply _; [apply stepwise_call; apply _|].
      intros _. apply stepwise_catch_all; try apply _.
      apply stepwise_bind; try apply _; [apply stepwise_call; apply _|].
      intros lines. apply stepwise_forM; try apply _. intros line.
      apply effects_complete_line. }
    intros _. destruct (match checklabels_list c with [] => false | _ => true end);
      [apply stepwise_call | apply stepwise_ret]; apply _. }
  specialize (Hm ("", c)). unfold run_effects in Hm.
  by destruct (m ("", c)) as [r st].
Qed.

Lemma effects_main_body (continuedRun : bool) :
  pres (effects (fun _ => True)) (main_body env cfg lib lenv menv continuedRun).
Proof.
  unfold main_body. apply pres_bind; try apply _.
  { destruct continuedRun; [apply pres_ret; apply _|].
    by apply steps_effects, steps_initializeFile. }
  intros _. apply pres_bind; try apply _; [apply pres_pure; apply _|].
  intros content. apply pres_bind; try apply _; [apply pres_pure; apply _|].
  intros lines. apply pres_bind; try apply _; [|intros _; apply pres_ret; apply _].
  intros c. unfold with_parser.
  assert (stepwise run_effects
            (exec history_loop env cfg lib lines;
             on_snd (completeLabels env cfg lib lenv))) as Hm.
  { apply stepwise_bind; try apply _.
    - unfold history_loop. apply stepwise_forM; try apply _. intros line.
      apply stepwise_bind; try apply _; [apply on_fst_effects|].
      intros [r|]; [|apply stepwise_ret; apply _].
      apply on_snd_effects. intros c1. by apply effects_process.
    - intros _. apply on_snd_effects, effects_completeLabels. }
  specialize (Hm ("", c)). unfold run_effects in Hm.
  by destruct (bind _ _ ("", c)) as [r st].
Qed.

(** Continuing a previous run takes nothing from it: with a state file and a
    dump file there and the operator's yes, [main] skips [initializeFile],
    reads no state, and the converter it makes starts anew; the revision
    headers of the whole run, replay and completion of labels, are numbered
    1, 2, 3, ... again, after the revisions the old dump file holds. *)
Theorem continued_run_starts_at_revision_1 (w : World) (old state : string)
  (labels branches ignoredDirectories : option (list string)) (lines : list string) :
  dump_file w = Some old -> state_file w = Some state ->
  askYesNo env "Continue previous run?" = true ->
  readList_file (CC_LABELS_FILE menv) = inr labels ->
  readList_file (CC_BRANCHES_FILE menv) = inr branches ->
  readList_file (CC_IGNORED_DIRECTORIES_FILE menv) = inr ignoredDirectories ->
  SVN_AUTOPROPS_FILE menv = inr lines ->
  exists r w' c,
    main_try env cfg lib lenv menv w = (r, (w', Some c))
    /\ (c = (main_body env cfg lib lenv menv true
               (set_out {| enabled := true; file := old; history := [] |}
                  (Converter_new labels branches ignoredDirectories
                     (SvnAutoProps.load lines)))).2)
    /\ header_numbers (history (out c))
       = seqZ 1 (Z.of_nat (length (header_numbers (history (out c)))))
    /\ svnRevNum c = (1 + Z.of_nat (length (header_numbers (history (out c)))))%Z.
Proof.
  intros Hold Hstate Hyes Hl Hb Hi Ha. unfold main_try.
  rewrite Hl, Hb, Hi, Ha, Hold, Hstate, Hyes.
  rewrite !bool_decide_eq_true_2 by (by eexists). cbn [andb default].
  set (c0 := set_out _ (Converter_new _ _ _ _)).
  destruct (effects_main_body true c0) as [(l & Hh & _ & Hn & Hr & _) _].
  destruct (main_body env cfg lib lenv menv true c0) as [r c] eqn:Hrun.
  cbn [snd] in *. eexists r, _, c. split; [reflexivity|].
  split; [subst c0; rewrite Hold in Hrun; cbn [default] in Hrun;
          unfold id in Hrun; by rewrite Hrun|].
  cbn [c0 out set_out history app svnRevNum Converter_new] in Hh, Hn, Hr.
  rewrite Hh. by split.
Qed.

End ContinuedRun.

Lemma continued_run_starts_at_revision_1_witness :
  exists r w' c,
    main_try (H := canonical_order) (H0 := canonical_set_order) example_env
      example_cfg example_lib example_lenv foo_menv failed_world
    = (r, (w', Some c))
    /\ (c = (main_body (H := canonical_order) (H0 := canonical_set_order)
               example_env example_cfg example_lib example_lenv foo_menv true
               (set_out {| enabled := true; file := "bytes of an earlier dump";
                           history := [] |}
                  (Converter_new None None None (SvnAutoProps.load [])))).2)
    /\ header_numbers (history (out c))
       = seqZ 1 (Z.of_nat (length (header_numbers (history (out c)))))
    /\ svnRevNum c = (1 + Z.of_nat (length (header_numbers (history (out c)))))%Z.
Proof.
  apply (continued_run_starts_at_revision_1 (H := canonical_order)
           (H0 := canonical_set_order) example_env example_cfg example_lib
           example_lenv foo_menv failed_world "bytes of an earlier dump" ""
           None None None []); reflexivity.
Defined.
